(** * Invisisnake: the turn engine of [src/components/Invisisnake.jsx]

    A shallow embedding of the game logic of the React component
    [Invisisnake] (functions [isOpposite], [posEq], [sizeForLevel],
    [wrapCoord], [placeFreeCell], [maybeSpawnPowerUp], [maybeSpawnHazard],
    [loseLifeAt], [triggerWin] and [doStep]) and the properties of one
    turn.

    Execution model.  [doStep] runs inside an event handler.  What it
    reads, either through its closure ([snake], [dir], [fruit], [gameOver],
    [won], [level], [cols], [rows]) or through the mirrors
    [xRef.current] (which are assigned in [useEffect] callbacks, that is
    after the next render has been committed), is the state of the last
    committed render: the record [cur] below.  What it writes goes through
    the [setX] functions, which enqueue updates; React applies the queue in
    order once the handler has returned.  The queue is modelled by the
    [pending] state: it starts as [cur], every [setX v] overwrites a field,
    every [setX (fun v => ...)] transforms it, and its final value is the
    next committed state.  Sound cues and timers are recorded in an effect
    log; [Math.random ()] reads a tape of rationals at a cursor.

    Numbers.  Coordinates, counters and levels are integers ([Z]).  The
    few non-integer quantities (the random draws, the chances 0.25 and
    0.12, the canvas ratios, [0.15 * total], the Euclidean distance) are
    computed in exact rational or integer arithmetic, which stands for the
    doubles of the source.  The particle bursts are kept only as the number
    of random draws they consume and as an entry of the effect log. *)

From Stdlib Require Import ZArith QArith Qround Qminmax List Bool Lia Ascii.
From stdpp Require Import base gmap sets list strings pretty.
Import ListNotations.

Close Scope Q_scope.
Local Open Scope Z_scope.

(** ** Cells, directions and the pure helpers *)

Record Cell : Type := mkCell { x : Z; y : Z }.

(** The entries of the table [DIRS]; [dirX] and [dirY] are their [x] and
    [y] fields. *)
Inductive Dir : Type := UP | DOWN | LEFT | RIGHT.

Definition dirX (d : Dir) : Z :=
  match d with UP => 0 | DOWN => 0 | LEFT => -1 | RIGHT => 1 end.

Definition dirY (d : Dir) : Z :=
  match d with UP => -1 | DOWN => 1 | LEFT => 0 | RIGHT => 0 end.

Definition isOpposite (a b : Dir) : bool :=
  (dirX a + dirX b =? 0) && (dirY a + dirY b =? 0).

Definition posEq (a b : Cell) : bool :=
  (x a =? x b) && (y a =? y b).

Definition sizeForLevel (lvl : Z) : Z := Z.max 3 (2 + lvl).

Definition wrapCoord (v max : Z) : Z :=
  if v <? 0 then max - 1 else if v >=? max then 0 else v.

(** [Math.floor (c / 2)] on both axes. *)
Definition centerCell (c r : Z) : Cell := mkCell (c / 2) (r / 2).

(** The template string [`${x},${y}`] that keys the occupancy sets. *)
Definition cellKey (c : Cell) : string :=
  pretty (x c) +:+ "," +:+ pretty (y c).

(** [new Set (cells.map (p => `${p.x},${p.y}`))]. *)
Definition keySet (cells : list Cell) : gset string :=
  list_to_set (cellKey <$> cells).

(** [s.add (key)] for a cell that may be [null]. *)
Definition addCell (o : option Cell) (s : gset string) : gset string :=
  match o with
  | Some c => {[ cellKey c ]} ∪ s
  | None => s
  end.

(** [cells.forEach (h => s.add (key h))]. *)
Definition addCells (cells : list Cell) (s : gset string) : gset string :=
  keySet cells ∪ s.

Definition has (s : gset string) (c : Cell) : bool :=
  bool_decide (cellKey c ∈ s).

(** ** Component state *)

(** The power-up object [{x, y, ttl}]. *)
Record PowerUp : Type := mkPowerUp { pux : Z; puy : Z; ttl : Z }.

(** A power-up seen as a cell, for [posEq] and for the occupancy keys. *)
Definition puCell (p : PowerUp) : Cell := mkCell (pux p) (puy p).

Inductive OverlayMode : Type := retry | reset | win.

(** The [useState] cells of the component that the turn logic reads or
    writes.  The refs [snakeRef], [fruitRef], ... hold the same values
    between two turns, so they have no field of their own. *)
Record State : Type := mkState {
  level : Z;
  cols : Z;
  rows : Z;
  selectedLevel : Z;
  selectedLevelInput : string;
  lives : Z;
  snake : list Cell;
  dir : Dir;
  fruit : option Cell;
  score : Z;
  gameOver : bool;
  won : bool;
  crashPos : option Cell;
  showOverlay : bool;
  overlayMode : option OverlayMode;
  powerUp : option PowerUp;
  revealTurns : Z;
  hazards : list Cell
}.

(** What a turn hands to its collaborators: the sound cues of
    [useChiptune], the particle bursts (of which only the number of
    particles is kept) and the overlay timers. *)
Inductive Effect : Type :=
  | PlayMove
  | PlayFruit
  | PlayWin
  | PlayLifeLost
  | PlayGameOver
  | PlayPickupSweep
  | Burst (at_cell : Cell) (color : string) (count : Z)
  | OverlayTimer (after_ms : Z) (for_win : bool).

Definition OVERLAY_DELAY_MS : Z := 1000.
Definition POWERUP_MIN_LEVEL : Z := 2.
Definition POWERUP_CHANCE_PER_TURN : Q := 25 # 100.
Definition HAZARD_MIN_LEVEL : Z := 3.
Definition HAZARD_CHANCE_PER_TURN : Q := 12 # 100.

(** [canvasRef.current]: the [clientWidth] and [clientHeight] of the
    canvas element. *)
Record Canvas : Type := mkCanvas { clientWidth : Z; clientHeight : Z }.

(** ** The handler monad *)

(** The run of a handler: the queue of state updates folded into the
    pending state, the effects emitted so far (oldest first) and the
    number of [Math.random ()] draws made so far. *)
Record Run : Type := mkRun {
  pending : State;
  fx : list Effect;
  drawn : nat
}.

Definition M (A : Type) : Type := Run -> A * Run.

(** How a call of [doStep] ends: it returns, or reading [head.x] of an
    empty snake throws a [TypeError] (before anything is written). *)
Inductive Completion : Type := Returns | Throws.

Definition ret {A : Type} (a : A) : M A := fun r => (a, r).

Definition bind {A B : Type} (m : M A) (k : A -> M B) : M B :=
  fun r => let (a, r') := m r in k a r'.

Declare Scope handler_scope.
Delimit Scope handler_scope with M.
Notation "v <- m ;; k" := (bind m (fun v => k))
  (at level 100, m at next level, right associativity) : handler_scope.
Notation "m ;; k" := (bind m (fun _ => k))
  (at level 100, right associativity) : handler_scope.

Definition when (b : bool) (m : M unit) : M unit :=
  if b then m else ret tt.

Definition emit (e : Effect) : M unit :=
  fun r => (tt, mkRun (pending r) (fx r ++ [e]) (drawn r)).

(** A state update [setX (fun v => ...)]; [setX v] is the constant case. *)
Definition update (f : State -> State) : M unit :=
  fun r => (tt, mkRun (f (pending r)) (fx r) (drawn r)).

Definition setSelectedLevel (v : Z) : M unit :=
  update (fun s => mkState (level s) (cols s) (rows s) v (selectedLevelInput s)
    (lives s) (snake s) (dir s) (fruit s) (score s) (gameOver s) (won s)
    (crashPos s) (showOverlay s) (overlayMode s) (powerUp s) (revealTurns s)
    (hazards s)).

Definition setSelectedLevelInput (v : string) : M unit :=
  update (fun s => mkState (level s) (cols s) (rows s) (selectedLevel s) v
    (lives s) (snake s) (dir s) (fruit s) (score s) (gameOver s) (won s)
    (crashPos s) (showOverlay s) (overlayMode s) (powerUp s) (revealTurns s)
    (hazards s)).

Definition setLives (v : Z) : M unit :=
  update (fun s => mkState (level s) (cols s) (rows s) (selectedLevel s)
    (selectedLevelInput s) v (snake s) (dir s) (fruit s) (score s)
    (gameOver s) (won s) (crashPos s) (showOverlay s) (overlayMode s)
    (powerUp s) (revealTurns s) (hazards s)).

Definition setSnake (v : list Cell) : M unit :=
  update (fun s => mkState (level s) (cols s) (rows s) (selectedLevel s)
    (selectedLevelInput s) (lives s) v (dir s) (fruit s) (score s)
    (gameOver s) (won s) (crashPos s) (showOverlay s) (overlayMode s)
    (powerUp s) (revealTurns s) (hazards s)).

Definition setDir (v : Dir) : M unit :=
  update (fun s => mkState (level s) (cols s) (rows s) (selectedLevel s)
    (selectedLevelInput s) (lives s) (snake s) v (fruit s) (score s)
    (gameOver s) (won s) (crashPos s) (showOverlay s) (overlayMode s)
    (powerUp s) (revealTurns s) (hazards s)).

Definition setFruit (v : option Cell) : M unit :=
  update (fun s => mkState (level s) (cols s) (rows s) (selectedLevel s)
    (selectedLevelInput s) (lives s) (snake s) (dir s) v (score s)
    (gameOver s) (won s) (crashPos s) (showOverlay s) (overlayMode s)
    (powerUp s) (revealTurns s) (hazards s)).

(** [setScore] is only called with an updater function. *)
Definition setScore (f : Z -> Z) : M unit :=
  update (fun s => mkState (level s) (cols s) (rows s) (selectedLevel s)
    (selectedLevelInput s) (lives s) (snake s) (dir s) (fruit s) (f (score s))
    (gameOver s) (won s) (crashPos s) (showOverlay s) (overlayMode s)
    (powerUp s) (revealTurns s) (hazards s)).

Definition setGameOver (v : bool) : M unit :=
  update (fun s => mkState (level s) (cols s) (rows s) (selectedLevel s)
    (selectedLevelInput s) (lives s) (snake s) (dir s) (fruit s) (score s)
    v (won s) (crashPos s) (showOverlay s) (overlayMode s)
    (powerUp s) (revealTurns s) (hazards s)).

Definition setWon (v : bool) : M unit :=
  update (fun s => mkState (level s) (cols s) (rows s) (selectedLevel s)
    (selectedLevelInput s) (lives s) (snake s) (dir s) (fruit s) (score s)
    (gameOver s) v (crashPos s) (showOverlay s) (overlayMode s)
    (powerUp s) (revealTurns s) (hazards s)).

Definition setCrashPos (v : option Cell) : M unit :=
  update (fun s => mkState (level s) (cols s) (rows s) (selectedLevel s)
    (selectedLevelInput s) (lives s) (snake s) (dir s) (fruit s) (score s)
    (gameOver s) (won s) v (showOverlay s) (overlayMode s)
    (powerUp s) (revealTurns s) (hazards s)).

Definition setShowOverlay (v : bool) : M unit :=
  update (fun s => mkState (level s) (cols s) (rows s) (selectedLevel s)
    (selectedLevelInput s) (lives s) (snake s) (dir s) (fruit s) (score s)
    (gameOver s) (won s) (crashPos s) v (overlayMode s)
    (powerUp s) (revealTurns s) (hazards s)).

Definition setOverlayMode (v : option OverlayMode) : M unit :=
  update (fun s => mkState (level s) (cols s) (rows s) (selectedLevel s)
    (selectedLevelInput s) (lives s) (snake s) (dir s) (fruit s) (score s)
    (gameOver s) (won s) (crashPos s) (showOverlay s) v
    (powerUp s) (revealTurns s) (hazards s)).

Definition setPowerUp (v : option PowerUp) : M unit :=
  update (fun s => mkState (level s) (cols s) (rows s) (selectedLevel s)
    (selectedLevelInput s) (lives s) (snake s) (dir s) (fruit s) (score s)
    (gameOver s) (won s) (crashPos s) (showOverlay s) (overlayMode s)
    v (revealTurns s) (hazards s)).

Definition setRevealTurns (v : Z) : M unit :=
  update (fun s => mkState (level s) (cols s) (rows s) (selectedLevel s)
    (selectedLevelInput s) (lives s) (snake s) (dir s) (fruit s) (score s)
    (gameOver s) (won s) (crashPos s) (showOverlay s) (overlayMode s)
    (powerUp s) v (hazards s)).

(** [setHazards] is only called with an updater function. *)
Definition setHazards (f : list Cell -> list Cell) : M unit :=
  update (fun s => mkState (level s) (cols s) (rows s) (selectedLevel s)
    (selectedLevelInput s) (lives s) (snake s) (dir s) (fruit s) (score s)
    (gameOver s) (won s) (crashPos s) (showOverlay s) (overlayMode s)
    (powerUp s) (revealTurns s) (f (hazards s))).

(** [Math.ceil (Math.hypot (dx, dy))] on integers, in exact arithmetic:
    the least [n >= 0] with [dx² + dy² <= n²]. *)
Definition ceilHypot (dx dy : Z) : Z :=
  let s := dx * dx + dy * dy in
  let q := Z.sqrt s in
  if q * q =? s then q else q + 1.

(** The cells of a [cols] by [rows] board in row-major order, as the two
    nested [for] loops of [placeFreeCell] visit them. *)
Definition boardCells (cols rows : Z) : list Cell :=
  seqZ 0 rows ≫= (fun yy => (fun xx => mkCell xx yy) <$> seqZ 0 cols).

(** [snake.length]. *)
Definition snakeLength (s : list Cell) : Z := Z.of_nat (length s).

(** ** The turn logic *)

Section Handler.

(** The values that successive calls of [Math.random ()] return. *)
Variable rnd : nat -> Q.
(** [canvasRef.current], [None] before the canvas is mounted. *)
Variable canvasRef : option Canvas.
(** The state of the last committed render (closure values and refs). *)
Variable cur : State.

Local Open Scope handler_scope.

Definition random : M Q :=
  fun r => (rnd (drawn r), mkRun (pending r) (fx r) (S (drawn r))).

Fixpoint randoms (n : nat) : M unit :=
  match n with
  | O => ret tt
  | S k => _ <- random ;; randoms k
  end.

(** The rejection-sampling loop of [placeFreeCell], [attempts]
    iterations left. *)
Fixpoint sampleFree (excludedSet : gset string) (cols rows : Z)
    (attempts : nat) : M (option Cell) :=
  match attempts with
  | O => ret None
  | S k =>
      r1 <- random ;;
      r2 <- random ;;
      let c := mkCell (Qfloor (r1 * inject_Z cols)) (Qfloor (r2 * inject_Z rows)) in
      if has excludedSet c then sampleFree excludedSet cols rows k
      else ret (Some c)
  end.

Definition placeFreeCell (excludedSet : gset string) (cols rows : Z)
    : M (option Cell) :=
  let total := cols * rows in
  if Z.of_nat (size excludedSet) >=? total then ret None
  else
    sampled <- sampleFree excludedSet cols rows 128 ;;
    match sampled with
    | Some c => ret (Some c)
    | None =>
        ret (find (fun c => negb (has excludedSet c)) (boardCells cols rows))
    end.

(** [spawnBurst]: one draw for the speed and two per particle; the
    particles themselves belong to the renderer. *)
Definition spawnBurst (at_cell : Cell) (color : string)
    (cellSize intensity : Q) : M unit :=
  let baseCount := Z.max 10 (Qfloor (cellSize * (6 # 10))) in
  let count := Z.min 64 (Qfloor (inject_Z baseCount * intensity)) in
  _ <- random ;;
  randoms (2 * Z.to_nat count) ;;
  emit (Burst at_cell color count).

(** The block [if (cssCanvas) { ... spawnBurst (...) }]. *)
Definition scaledBurst (cellPos : Cell) (color : string) (intensity : Q)
    : M unit :=
  match canvasRef with
  | Some cssCanvas =>
      let cssW := inject_Z (clientWidth cssCanvas) in
      let cssH := inject_Z (clientHeight cssCanvas) in
      let cell := Qmin (cssW / inject_Z (cols cur)) (cssH / inject_Z (rows cur)) in
      spawnBurst cellPos color cell intensity
  | None => ret tt
  end.

Definition maybeSpawnPowerUp (head : Cell) (currentSnake : list Cell)
    (c r : Z) (block : bool) : M unit :=
  if block then ret tt
  else if level cur <? POWERUP_MIN_LEVEL then ret tt
  else if bool_decide (is_Some (powerUp cur)) then ret tt
  else if revealTurns cur >? 0 then ret tt
  else if snakeLength currentSnake <? 10 then ret tt
  else
    roll <- random ;;
    if negb (Qle_bool roll POWERUP_CHANCE_PER_TURN) then ret tt
    else
      let occ := keySet currentSnake in
      let occ := addCell (fruit cur) occ in
      let occ := addCells (hazards cur) occ in
      pos <- placeFreeCell occ c r ;;
      match pos with
      | None => ret tt
      | Some pos =>
          let ttl := Z.max 1 (ceilHypot (x pos - x head) (y pos - y head) + 3) in
          setPowerUp (Some (mkPowerUp (x pos) (y pos) ttl))
      end.

Definition maybeSpawnHazard (head : Cell) (currentSnake : list Cell)
    (c r : Z) : M unit :=
  if level cur <? HAZARD_MIN_LEVEL then ret tt
  else
    let maxHazards := Z.max 0 (level cur - 2) in
    if Z.of_nat (length (hazards cur)) >=? maxHazards then ret tt
    else
      roll <- random ;;
      if negb (Qle_bool roll HAZARD_CHANCE_PER_TURN) then ret tt
      else
        let occ := keySet currentSnake in
        let occ := addCell (fruit cur) occ in
        let occ := addCell (puCell <$> powerUp cur) occ in
        let occ := addCells (hazards cur) occ in
        let occ := addCell (Some head) occ in
        pos <- placeFreeCell occ c r ;;
        match pos with
        | None => ret tt
        | Some pos => setHazards (fun hs => hs ++ [pos])
        end.

Definition loseLifeAt (cellPos : Cell) : M unit :=
  setCrashPos (Some cellPos) ;;
  setGameOver true ;;
  setShowOverlay false ;;
  let remaining := Z.max 0 (lives cur - 1) in
  setLives remaining ;;
  setOverlayMode (Some (if remaining >? 0 then retry else reset)) ;;
  (if remaining >? 0 then emit PlayLifeLost
   else
     emit PlayGameOver ;;
     setSelectedLevel 1 ;;
     setSelectedLevelInput "1") ;;
  scaledBurst cellPos "#f43f5e" (12 # 10) ;;
  emit (OverlayTimer OVERLAY_DELAY_MS false).

Definition triggerWin : M unit :=
  if won cur then ret tt
  else
    setWon true ;;
    setShowOverlay false ;;
    setOverlayMode (Some win) ;;
    emit PlayWin ;;
    emit (OverlayTimer OVERLAY_DELAY_MS true).

(** The cell [newHead] of [doStep]. *)
Definition newHeadOf (head : Cell) (nextDir : Dir) : Cell :=
  mkCell (wrapCoord (x head + dirX nextDir) (cols cur))
         (wrapCoord (y head + dirY nextDir) (rows cur)).

(** [fruit && posEq (newHead, fruit)]. *)
Definition ateFruitAt (newHead : Cell) : bool :=
  match fruit cur with
  | Some f => posEq newHead f
  | None => false
  end.

(** The [else] branch of the block "Fruit" of [doStep]: the fruit under
    [newHead] is eaten and a new one is placed.  Returns
    [nextFruitPos]. *)
Definition fruitEaten (newHead : Cell) (newSnake : list Cell)
    : M (option Cell) :=
  emit PlayFruit ;;
  let occF := keySet newSnake in
  let occF := addCell (puCell <$> powerUp cur) occF in
  let occF := addCells (hazards cur) occF in
  nf <- placeFreeCell occF (cols cur) (rows cur) ;;
  nextFruitPos <-
    match nf with
    | None => triggerWin ;; ret None
    | Some nf => setFruit (Some nf) ;; ret (Some nf)
    end ;;
  setScore (fun v => v + 1) ;;
  scaledBurst newHead "#22c55e" 1 ;;
  ret nextFruitPos.

(** The block "Power-up pickup" of [doStep].  Returns
    [pickedUpThisStep]. *)
Definition pickUp (newHead : Cell) (newSnake : list Cell) : M bool :=
  match powerUp cur with
  | Some p =>
      if posEq newHead (puCell p) then
        setRevealTurns (snakeLength newSnake) ;;
        setPowerUp None ;;
        emit PlayPickupSweep ;;
        ret true
      else ret false
  | None => ret false
  end.

(** The block "Countdown" of [doStep]; it is gated by the refs. *)
Definition countdown : M unit :=
  match powerUp cur with
  | Some p =>
      let nextTTL := ttl p - 1 in
      if nextTTL <=? 0 then setPowerUp None
      else setPowerUp (Some (mkPowerUp (pux p) (puy p) nextTTL))
  | None => ret tt
  end ;;
  when (revealTurns cur >? 0) (setRevealTurns (revealTurns cur - 1)).

(** The set [occ] of the block "Win check" of [doStep]. *)
Definition winOcc (newSnake : list Cell) (nextFruitPos : option Cell)
    : gset string :=
  let occ := keySet newSnake in
  let occ := addCells (hazards cur) occ in
  let occ := addCell nextFruitPos occ in
  addCell (puCell <$> powerUp cur) occ.

(** [Math.ceil (total * 0.15)]. *)
Definition winThreshold (total : Z) : Z :=
  Qceiling (inject_Z total * (15 # 100)).

(** The block "Win check" of [doStep]. *)
Definition winCheck (newSnake : list Cell) (nextFruitPos : option Cell)
    : M unit :=
  let total := cols cur * rows cur in
  let occ := winOcc newSnake nextFruitPos in
  let empties := total - Z.of_nat (size occ) in
  let threshold := winThreshold total in
  when (empties <? threshold) triggerWin.

(** The blocks "Always move head into the cell first" and "Fruit" of
    [doStep].  Returns [newSnake] and [nextFruitPos]. *)
Definition advance (newHead : Cell) : M (list Cell * option Cell) :=
  let newSnake := newHead :: snake cur in
  let ateFruit := ateFruitAt newHead in
  if negb ateFruit then
    emit PlayMove ;;
    ret (removelast newSnake, fruit cur)
  else
    nextFruitPos <- fruitEaten newHead newSnake ;;
    ret (newSnake, nextFruitPos).

Definition doStep (nextDir : Dir) : M Completion :=
  if gameOver cur || won cur then ret Returns
  else if (snakeLength (snake cur) >? 1) && isOpposite nextDir (dir cur)
  then ret Returns
  else
    match snake cur with
    | [] => ret Throws
    | head :: _ =>
        let newHead := newHeadOf head nextDir in
        if existsb (fun h => posEq h newHead) (hazards cur)
        then loseLifeAt newHead ;; ret Returns
        else if existsb (fun s => posEq s newHead) (snake cur)
        then loseLifeAt newHead ;; ret Returns
        else
          moved <- advance newHead ;;
          let newSnake := fst moved in
          let nextFruitPos := snd moved in
          pickedUpThisStep <- pickUp newHead newSnake ;;
          countdown ;;
          winCheck newSnake nextFruitPos ;;
          maybeSpawnPowerUp newHead newSnake (cols cur) (rows cur)
            pickedUpThisStep ;;
          maybeSpawnHazard newHead newSnake (cols cur) (rows cur) ;;
          setSnake newSnake ;;
          setDir nextDir ;;
          ret Returns
    end.

(** One turn: the handler runs on an empty queue. *)
Definition turn (nextDir : Dir) : Completion * Run :=
  doStep nextDir (mkRun cur [] 0%nat).

End Handler.

(** The state committed after the turn, and what the turn emitted. *)
Definition nextState (t : Completion * Run) : State := pending (snd t).
Definition effects (t : Completion * Run) : list Effect := fx (snd t).

(** ** The level and lives controller *)

Definition setLevel (v : Z) : M unit :=
  update (fun s => mkState v (cols s) (rows s) (selectedLevel s)
    (selectedLevelInput s) (lives s) (snake s) (dir s) (fruit s) (score s)
    (gameOver s) (won s) (crashPos s) (showOverlay s) (overlayMode s)
    (powerUp s) (revealTurns s) (hazards s)).

Definition setCols (v : Z) : M unit :=
  update (fun s => mkState (level s) v (rows s) (selectedLevel s)
    (selectedLevelInput s) (lives s) (snake s) (dir s) (fruit s) (score s)
    (gameOver s) (won s) (crashPos s) (showOverlay s) (overlayMode s)
    (powerUp s) (revealTurns s) (hazards s)).

Definition setRows (v : Z) : M unit :=
  update (fun s => mkState (level s) (cols s) v (selectedLevel s)
    (selectedLevelInput s) (lives s) (snake s) (dir s) (fruit s) (score s)
    (gameOver s) (won s) (crashPos s) (showOverlay s) (overlayMode s)
    (powerUp s) (revealTurns s) (hazards s)).

(** A callback handed to [setTimeout (..., 0)]: it runs as a handler of
    its own, after the updates of the handler that scheduled it have been
    committed. *)
Inductive Task : Type := ResetBoardTask (c r : Z).

(** The fields of a [keydown] event that [onKeyDown] reads. *)
Record KeyEvent : Type := mkKeyEvent { repeat : bool; key : string }.

(** The values of a JavaScript number: [NaN], the infinities and the
    finite ones. *)
Inductive JsNum : Type := NaN | PosInf | NegInf | Finite (q : Q).

(** [Math.floor]. *)
Definition mathFloor (n : JsNum) : JsNum :=
  match n with
  | Finite q => Finite (inject_Z (Qfloor q))
  | other => other
  end.

(** [Number.isNaN (num) ? 1 : Math.max (1, Math.min (10, num))], for a
    [num] that [Math.floor] returned. *)
Definition clampFloored (num : JsNum) : Z :=
  match num with
  | NaN => 1
  | PosInf => Z.max 1 (Z.min 10 10)
  | NegInf => 1
  | Finite q => Z.max 1 (Z.min 10 (Qfloor q))
  end.

(** [baselineAlpha]: the opacity of the snake cell of 1-based index
    [index1]. *)
Definition baselineAlpha (index1 : Z) : Q :=
  if index1 <=? 3 then 1%Q
  else if index1 >=? 10 then 0%Q
  else (1 - inject_Z (index1 - 3) / 7)%Q.

Section Controller.

(** The values that successive calls of [Math.random ()] return. *)
Variable rnd : nat -> Q.
(** [canvasRef.current]. *)
Variable canvasRef : option Canvas.
(** [Number] applied to the text of the level box. *)
Variable Number : string -> JsNum.
(** The state of the last committed render (closure values and refs). *)
Variable cur : State.

Local Open Scope handler_scope.

(** [resetBoard].  Its last two statements clear the particle list and
    the flash of the renderer, which are not part of [State]. *)
Definition resetBoard (c r : Z) : M unit :=
  let start := centerCell c r in
  let startSnake := [start] in
  setSnake startSnake ;;
  setDir RIGHT ;;
  let occ := keySet [start] in
  placed <- placeFreeCell rnd occ c r ;;
  setFruit (Some (match placed with Some p => p | None => mkCell 0 0 end)) ;;
  setScore (fun _ => 0) ;;
  setGameOver false ;;
  setWon false ;;
  setCrashPos None ;;
  setShowOverlay false ;;
  setOverlayMode None ;;
  setPowerUp None ;;
  setRevealTurns 0 ;;
  setHazards (fun _ => []).

(** [applyLevel], called with the number [selectedLevel] or with [1]:
    [Number (lvl) || 1] replaces [0] by [1] and [Math.floor] is the
    identity on an integer.  Returns the callback it schedules. *)
Definition applyLevel (lvl : Z) : M (list Task) :=
  let clamped := Z.max 1 (Z.min 10 (if lvl =? 0 then 1 else lvl)) in
  let s := sizeForLevel clamped in
  setLevel clamped ;;
  setCols s ;;
  setRows s ;;
  setSelectedLevel clamped ;;
  setSelectedLevelInput (pretty clamped) ;;
  setLives 3 ;;
  ret [ResetBoardTask s s].

Definition resetLevelOne : M (list Task) := applyLevel 1.

Definition nextLevel : M (list Task) :=
  let next := Z.max 1 (Z.min 10 (level cur + 1)) in
  let s := sizeForLevel next in
  setLevel next ;;
  setCols s ;;
  setRows s ;;
  setSelectedLevel next ;;
  setSelectedLevelInput (pretty next) ;;
  ret [ResetBoardTask s s].

(** The callback of a scheduled task. *)
Definition runTask (t : Task) : M unit :=
  match t with
  | ResetBoardTask c r => resetBoard c r
  end.

(** The callbacks that [loseLifeAt] and [triggerWin] hand to
    [setTimeout (..., OVERLAY_DELAY_MS)]. *)
Definition overlayTimerFired (for_win : bool) : M unit :=
  if for_win then when (won cur) (setShowOverlay true)
  else when (gameOver cur) (setShowOverlay true).

Definition onOverlayClick : M (list Task) :=
  if won cur then nextLevel
  else if gameOver cur && showOverlay cur then
    match overlayMode cur with
    | Some retry => resetBoard (cols cur) (rows cur) ;; ret []
    | Some reset => resetLevelOne
    | _ => ret []
    end
  else ret [].

(** [onKeyDown]; [e.preventDefault ()] has no effect on the game. *)
Definition onKeyDown (e : KeyEvent) : M (Completion * list Task) :=
  if repeat e then ret (Returns, [])
  else
    let k := key e in
    if String.eqb k "ArrowUp" || String.eqb k "w" || String.eqb k "W" then
      c <- doStep rnd canvasRef cur UP ;; ret (c, [])
    else if String.eqb k "ArrowDown" || String.eqb k "s" || String.eqb k "S" then
      c <- doStep rnd canvasRef cur DOWN ;; ret (c, [])
    else if String.eqb k "ArrowLeft" || String.eqb k "a" || String.eqb k "A" then
      c <- doStep rnd canvasRef cur LEFT ;; ret (c, [])
    else if String.eqb k "ArrowRight" || String.eqb k "d" || String.eqb k "D" then
      c <- doStep rnd canvasRef cur RIGHT ;; ret (c, [])
    else if String.eqb k "Enter" || String.eqb k " " then
      if won cur then ts <- nextLevel ;; ret (Returns, ts)
      else if gameOver cur && showOverlay cur then
        match overlayMode cur with
        | Some retry => resetBoard (cols cur) (rows cur) ;; ret (Returns, [])
        | Some reset => ts <- resetLevelOne ;; ret (Returns, ts)
        | _ => ret (Returns, [])
        end
      else ret (Returns, [])
    else ret (Returns, []).

(** [commitLevelInput]. *)
Definition commitLevelInput : M unit :=
  let num := mathFloor (Number (selectedLevelInput cur)) in
  let clamped := clampFloored num in
  setSelectedLevel clamped ;;
  setSelectedLevelInput (pretty clamped).

(** The [onClick] of the button "Start":
    [commitLevelInput (); applyLevel (selectedLevel)]. *)
Definition startClicked : M (list Task) :=
  commitLevelInput ;;
  applyLevel (selectedLevel cur).

(** A click on the overlay, which is rendered while [showOverlay] holds:
    the [onClick] of the overlay runs [onOverlayClick], the event bubbles
    to the wrapper of the canvas, and its [onClick] runs
    [if (showOverlayRef.current) onOverlayClick ()] in the same batch. *)
Definition overlayClicked : M (list Task) :=
  inner <- onOverlayClick ;;
  outer <- (if showOverlay cur then onOverlayClick else ret []) ;;
  ret (inner ++ outer).

End Controller.

(** A handler run on the committed state [st], with an empty queue. *)
Definition handle {A : Type} (m : State -> M A) (st : State) : A * Run :=
  m st (mkRun st [] 0%nat).

(** ** Vocabulary of the statements *)

(** A string without the separator of the occupancy keys. *)
Fixpoint commaFree (s : string) : Prop :=
  match s with
  | EmptyString => True
  | String a s' => a <> ","%char /\ commaFree s'
  end.

(** The two lethal checks of [doStep], hazards first. *)
Definition lethal (st : State) (newHead : Cell) : bool :=
  existsb (fun h => posEq h newHead) (hazards st)
  || existsb (fun s => posEq s newHead) (snake st).

(** The direction gate of [doStep]. *)
Definition rejected (st : State) (nextDir : Dir) : bool :=
  (snakeLength (snake st) >? 1) && isOpposite nextDir (dir st).

Definition terminal (st : State) : bool := gameOver st || won st.

(** A cell of the board. *)
Definition inBoard (st : State) (c : Cell) : Prop :=
  0 <= x c < cols st /\ 0 <= y c < rows st.

(** What the block "Countdown" leaves of a power-up. *)
Definition countedDown (p : PowerUp) : option PowerUp :=
  if ttl p - 1 <=? 0 then None
  else Some (mkPowerUp (pux p) (puy p) (ttl p - 1)).

(** The state that [loseLifeAt cellPos] commits. *)
Definition lifeLost (st : State) (cellPos : Cell) : State :=
  let remaining := Z.max 0 (lives st - 1) in
  mkState (level st) (cols st) (rows st)
    (if remaining >? 0 then selectedLevel st else 1)
    (if remaining >? 0 then selectedLevelInput st else "1")
    remaining (snake st) (dir st) (fruit st) (score st)
    true (won st) (Some cellPos) false
    (Some (if remaining >? 0 then retry else reset))
    (powerUp st) (revealTurns st) (hazards st).

(** A block that leaves the field [f] of the queue alone. *)
Definition keeps {A B : Type} (f : State -> B) (m : M A) : Prop :=
  forall r, f (pending (snd (m r))) = f (pending r).

(** A block that only appends to the effect log. *)
Definition extends {A : Type} (m : M A) : Prop :=
  forall r, exists l, fx (snd (m r)) = fx r ++ l.

(** The state at the end of an accepted move: the last two updates of
    [doStep] applied to the queue [q]. *)
Definition moved (q : State) (newSnake : list Cell) (nextDir : Dir) : State :=
  mkState (level q) (cols q) (rows q) (selectedLevel q) (selectedLevelInput q)
    (lives q) newSnake nextDir (fruit q) (score q) (gameOver q) (won q)
    (crashPos q) (showOverlay q) (overlayMode q) (powerUp q) (revealTurns q)
    (hazards q).

(** ** Concrete boards used by the examples *)

(** A fresh board: what [resetBoard (c, r)] commits, with the fruit at
    [f]. *)
Definition freshBoard (lvl c r : Z) (f : Cell) : State :=
  mkState lvl c r lvl (pretty lvl) 3 [centerCell c r] RIGHT (Some f) 0
    false false None false None None 0 [].

(** A tape on which every draw is [0]. *)
Definition zeros : nat -> Q := fun _ => 0%Q.

(** The tape 0, 1/2, 0, 1/2, ... *)
Definition alternating : nat -> Q :=
  fun i => if Nat.even i then 0%Q else (1 # 2)%Q.

(** The snake [(1,1),(1,0)] heading DOWN on the level-1 board. *)
Definition twoCells : State :=
  mkState 1 3 3 1 "1" 3 [mkCell 1 1; mkCell 1 0] DOWN (Some (mkCell 0 2)) 1
    false false None false None None 0 [].

(** The board of the scenario "hazard at (2,2), head moving into it". *)
Definition hazardAhead : State :=
  mkState 3 5 5 3 "3" 3 [mkCell 1 2] RIGHT (Some (mkCell 0 0)) 0
    false false None false None None 0 [mkCell 2 2].

(** The level-1 board with a one-cell snake at [(2,2)], the cell the
    scenario of C10 names. *)
Definition cornerStart : State :=
  mkState 1 (sizeForLevel 1) (sizeForLevel 1) 1 "1" 3 [mkCell 2 2] RIGHT
    (Some (mkCell 0 0)) 0 false false None false None None 0 [].

(** The board of a pickup: level 3, a snake of ten cells heading RIGHT
    with its head at (1,0), and a power-up spawned on the turn before in
    the cell ahead, (2,0), hence with [ttl = 4]. *)
Definition pickupBoard : State :=
  mkState 3 5 5 3 "3" 3
    [mkCell 1 0; mkCell 0 0; mkCell 0 1; mkCell 1 1; mkCell 2 1;
     mkCell 3 1; mkCell 4 1; mkCell 4 2; mkCell 3 2; mkCell 2 2]
    RIGHT (Some (mkCell 4 4)) 9 false false None false None
    (Some (mkPowerUp 2 0 4)) 0 [].

(** The same board before the power-up spawned. *)
Definition spawnBoard : State :=
  mkState 3 5 5 3 "3" 3
    [mkCell 0 0; mkCell 0 1; mkCell 1 1; mkCell 2 1; mkCell 3 1;
     mkCell 4 1; mkCell 4 2; mkCell 3 2; mkCell 2 2; mkCell 1 2]
    UP (Some (mkCell 4 4)) 9 false false None false None
    None 0 [].

(** The level-1 board with the snake on the eight cells of the ring,
    heading DOWN with its head at (0,1), and the fruit on the only cell
    left, the center. *)
Definition lastFruit : State :=
  mkState 1 3 3 1 "1" 3
    [mkCell 0 1; mkCell 0 0; mkCell 1 0; mkCell 2 0;
     mkCell 2 1; mkCell 2 2; mkCell 1 2; mkCell 0 2]
    DOWN (Some (mkCell 1 1)) 7 false false None false None None 0 [].

(** The keys of the union of the snake cells, the hazards, the fruit cell
    if present and the power-up cell if present. *)
Definition occupiedKeys (snake' hazards' : list Cell) (fruit' : option Cell)
    (powerUp' : option PowerUp) : gset string :=
  keySet snake' ∪ keySet hazards'
  ∪ addCell fruit' ∅ ∪ addCell (puCell <$> powerUp') ∅.

(** The power-up after the blocks "Power-up pickup" and "Countdown". *)
Definition powerUpAfterMove (st : State) : option PowerUp :=
  powerUp st ≫= countedDown.

(** ** Vocabulary of the further properties *)

(** A tape of draws as [Math.random ()] makes them: in [[0, 1)]. *)
Definition tapeInRange (rnd : nat -> Q) : Prop :=
  forall i, (0 <= rnd i)%Q /\ (rnd i < 1)%Q.

(** Consecutive cells of the list are neighbours on the torus: each cell
    is one wrapped unit step away from the cell that follows it. *)
Fixpoint chained (st : State) (l : list Cell) : Prop :=
  match l with
  | a :: (b :: _) as l' => (exists d, a = newHeadOf st b d) /\ chained st l'
  | _ => True
  end.

(** The snake of a board in play: not empty, without a repeated cell, on
    the board, and connected. *)
Definition snakeOk (st : State) : Prop :=
  snake st <> []
  /\ NoDup (snake st)
  /\ Forall (inBoard st) (snake st)
  /\ chained st (snake st).

(** [maxHazards] of [maybeSpawnHazard]. *)
Definition hazardCap (st : State) : Z := Z.max 0 (level st - 2).

(** The board that [resetBoard (c, r)] leaves, up to the fruit. *)
Definition freshAt (st : State) (c r : Z) : Prop :=
  snake st = [centerCell c r] /\ dir st = RIGHT /\ score st = 0
  /\ gameOver st = false /\ won st = false /\ crashPos st = None
  /\ showOverlay st = false /\ overlayMode st = None
  /\ powerUp st = None /\ revealTurns st = 0 /\ hazards st = [].

(** A state after a death, with the overlay on the screen. *)
Definition deadBoard (lvl left : Z) (mode : OverlayMode) : State :=
  mkState lvl (sizeForLevel lvl) (sizeForLevel lvl) lvl (pretty lvl) left
    [mkCell 1 2; mkCell 1 1] DOWN (Some (mkCell 0 0)) 1
    true false (Some (mkCell 1 1)) true (Some mode) None 0 [].

(** The state that [resetBoard (c, r)] commits from the queue [q] when
    the fruit goes to [f]. *)
Definition resetState (q : State) (c r : Z) (f : Cell) : State :=
  mkState (level q) (cols q) (rows q) (selectedLevel q) (selectedLevelInput q)
    (lives q) [centerCell c r] RIGHT (Some f) 0 false false None false None
    None 0 [].

(** The scheduled callbacks run in order, each as a handler of its own;
    none of them reads the state. *)
Fixpoint runTasks (rnd : nat -> Q) (ts : list Task) (r : Run) : Run :=
  match ts with
  | [] => r
  | t :: ts' => runTasks rnd ts' (snd (runTask rnd t r))
  end.

(** The queue [q] after [applyLevel] or [nextLevel] has set the level
    [lvl] and the lives [lv]. *)
Definition levelState (q : State) (lvl lv : Z) : State :=
  mkState lvl (sizeForLevel lvl) (sizeForLevel lvl) lvl (pretty lvl) lv
    (snake q) (dir q) (fruit q) (score q) (gameOver q) (won q) (crashPos q)
    (showOverlay q) (overlayMode q) (powerUp q) (revealTurns q) (hazards q).

(** The heading agrees with the snake: the head is one wrapped step in
    the direction [dir] from the cell behind it. *)
Definition headed (st : State) : Prop :=
  match snake st with
  | h :: n :: _ => h = newHeadOf st n (dir st)
  | _ => True
  end.

(** The keys that [onKeyDown] handles. *)
Definition handledKeys : list string :=
  ["ArrowUp"; "w"; "W"; "ArrowDown"; "s"; "S"; "ArrowLeft"; "a"; "A";
   "ArrowRight"; "d"; "D"; "Enter"; " "].

(** The state that [commitLevelInput] commits from [st] for the level
    [v]. *)
Definition levelPicked (st : State) (v : Z) : State :=
  mkState (level st) (cols st) (rows st) v (pretty v) (lives st) (snake st)
    (dir st) (fruit st) (score st) (gameOver st) (won st) (crashPos st)
    (showOverlay st) (overlayMode st) (powerUp st) (revealTurns st)
    (hazards st).

(** A level that was won, the overlay on the screen. *)
Definition wonShown (lvl : Z) : State :=
  mkState lvl (sizeForLevel lvl) (sizeForLevel lvl) lvl (pretty lvl) 2
    [mkCell 1 2; mkCell 1 1] DOWN (Some (mkCell 0 0)) 1
    false true None true (Some win) None 0 [].

(** The board of [hazardAhead] on the last life. *)
Definition lastLife : State :=
  mkState 3 5 5 3 "3" 1 [mkCell 1 2] RIGHT (Some (mkCell 0 0)) 4
    false false None false None None 0 [mkCell 2 2].

(** A level that was won, the overlay not yet on the screen. *)
Definition wonBoard (lvl : Z) : State :=
  mkState lvl (sizeForLevel lvl) (sizeForLevel lvl) lvl (pretty lvl) 2
    [mkCell 1 2; mkCell 1 1] DOWN (Some (mkCell 0 0)) 1
    false true None false (Some win) None 0 [].

(** ** The occupancy keys *)

Lemma pretty_N_char_commaFree n : pretty_N_char n <> ","%char.
Proof. unfold pretty_N_char. repeat case_match; discriminate. Qed.

Lemma pretty_N_go_commaFree n :
  forall s, commaFree s -> commaFree (pretty_N_go n s).
Proof.
  induction (N.lt_wf_0 n) as [n _ IH]; intros s Hs.
  destruct (decide (n = 0)%N) as [->|Hn].
  - by rewrite pretty_N_go_0.
  - rewrite pretty_N_go_step by lia.
    apply IH; [apply N.div_lt; lia|].
    split; [apply pretty_N_char_commaFree | exact Hs].
Qed.

Lemma pretty_N_commaFree (n : N) : commaFree (pretty n).
Proof.
  unfold pretty, pretty_N. case_decide.
  - simpl. split; [discriminate | exact I].
  - apply pretty_N_go_commaFree. exact I.
Qed.

Lemma pretty_Z_commaFree (z : Z) : commaFree (pretty z).
Proof.
  destruct z as [|p|p]; unfold pretty, pretty_Z.
  - simpl. split; [discriminate | exact I].
  - apply pretty_N_commaFree.
  - simpl. split; [discriminate | apply pretty_N_commaFree].
Qed.

Lemma comma_split_inj (a a' b b' : string) :
  commaFree a -> commaFree a' ->
  a +:+ "," +:+ b = a' +:+ "," +:+ b' -> a = a' /\ b = b'.
Proof.
  revert a'. induction a as [|c a IH]; intros [|c' a'] Ha Ha' E.
  - change (String "," b = String "," b') in E. split; congruence.
  - change (String "," b = String c' (a' +:+ "," +:+ b')) in E.
    destruct Ha' as [Hc _]. congruence.
  - change (String c (a +:+ "," +:+ b) = String "," b') in E.
    destruct Ha as [Hc _]. congruence.
  - change (String c (a +:+ "," +:+ b) = String c' (a' +:+ "," +:+ b')) in E.
    destruct Ha as [_ Ha], Ha' as [_ Ha'].
    assert (E' : a +:+ "," +:+ b = a' +:+ "," +:+ b') by congruence.
    destruct (IH a' Ha Ha' E') as [-> ->]. split; congruence.
Qed.

(** Distinct cells have distinct keys. *)
Lemma cellKey_inj (a b : Cell) : cellKey a = cellKey b -> a = b.
Proof.
  unfold cellKey. intros E.
  apply comma_split_inj in E; try apply pretty_Z_commaFree.
  destruct E as [Ex Ey].
  apply (inj pretty) in Ex. apply (inj pretty) in Ey.
  destruct a, b; simpl in *; congruence.
Qed.

Lemma has_keySet (l : list Cell) (c : Cell) :
  has (keySet l) c = true <-> In c l.
Proof.
  unfold has, keySet. rewrite bool_decide_eq_true, elem_of_list_to_set.
  rewrite list_elem_of_fmap. split.
  - intros (c' & E & Hin). apply cellKey_inj in E. subst c'.
    by apply list_elem_of_In.
  - intros Hin. exists c. split; [done|]. by apply list_elem_of_In.
Qed.

Lemma posEq_eq (a b : Cell) : posEq a b = true <-> a = b.
Proof.
  unfold posEq. rewrite andb_true_iff, !Z.eqb_eq.
  destruct a, b; simpl. split; [intros [-> ->]; done | intros [= -> ->]; done].
Qed.

Lemma existsb_posEq (l : list Cell) (c : Cell) :
  existsb (fun s => posEq s c) l = true <-> In c l.
Proof.
  rewrite existsb_exists. split.
  - intros (s & Hin & E). apply posEq_eq in E. by subst.
  - intros Hin. exists c. split; [done|]. by apply posEq_eq.
Qed.

(** ** The blocks of a turn *)

Arguments keySet : simpl never.
Arguments addCell : simpl never.
Arguments addCells : simpl never.
Arguments has : simpl never.
Arguments placeFreeCell : simpl never.
Arguments scaledBurst : simpl never.
Arguments winOcc : simpl never.
Arguments winThreshold : simpl never.

Section Blocks.

Variable rnd : nat -> Q.
Variable canvasRef : option Canvas.
Variable cur : State.

(** Drawing random numbers only moves the cursor of the tape. *)
Lemma randoms_run (n : nat) (r : Run) :
  exists k, randoms rnd n r = (tt, mkRun (pending r) (fx r) k).
Proof.
  revert r. induction n as [|n IH]; intros r; simpl.
  - exists (drawn r). by destruct r.
  - unfold bind, random. destruct (IH (mkRun (pending r) (fx r) (S (drawn r))))
      as [k ->]. by exists k.
Qed.

Lemma sampleFree_run (s : gset string) (c r0 : Z) (n : nat) (r : Run) :
  exists o k, sampleFree rnd s c r0 n r = (o, mkRun (pending r) (fx r) k)
    /\ forall p, o = Some p -> has s p = false.
Proof.
  revert r. induction n as [|n IH]; intros r; simpl.
  - exists None, (drawn r). destruct r. by split.
  - unfold bind, random, ret; simpl.
    match goal with |- context [has s ?p] => destruct (has s p) eqn:Hhas end.
    + destruct (IH (mkRun (pending r) (fx r) (S (S (drawn r)))))
        as (o & k & -> & Ho). by exists o, k.
    + eexists _, _. split; [reflexivity|]. by intros p [= <-].
Qed.

(** [placeFreeCell] touches neither the queue nor the effects, and a cell
    it returns is not in the excluded set. *)
Lemma placeFreeCell_run (s : gset string) (c r0 : Z) (r : Run) :
  exists o k, placeFreeCell rnd s c r0 r = (o, mkRun (pending r) (fx r) k)
    /\ forall p, o = Some p -> has s p = false.
Proof.
  unfold placeFreeCell.
  destruct (Z.of_nat (size s) >=? c * r0).
  - exists None, (drawn r). destruct r. by split.
  - unfold bind.
    destruct (sampleFree_run s c r0 128 r) as ([p|] & k & -> & Ho).
    + exists (Some p), k. by split.
    + eexists _, k. split; [reflexivity|].
      intros p Hp. apply find_some in Hp as [_ Hp].
      by apply negb_true_iff in Hp.
Qed.

(** A saturated excluded set is detected before any draw. *)
Lemma placeFreeCell_full (s : gset string) (c r0 : Z) (r : Run) :
  c * r0 <= Z.of_nat (size s) -> placeFreeCell rnd s c r0 r = (None, r).
Proof.
  intros Hfull. unfold placeFreeCell.
  destruct (Z.of_nat (size s) >=? c * r0) eqn:E; [done|].
  rewrite Z.geb_leb in E. apply Z.leb_gt in E. lia.
Qed.

(** A burst only draws random numbers and logs itself. *)
Lemma scaledBurst_run (cellPos : Cell) (color : string) (i : Q) (r : Run) :
  exists l k,
    scaledBurst rnd canvasRef cur cellPos color i r
      = (tt, mkRun (pending r) (fx r ++ l) k)
    /\ forall e, In e l -> exists n, e = Burst cellPos color n.
Proof.
  unfold scaledBurst. destruct canvasRef as [cv|].
  - unfold spawnBurst, bind, random, emit.
    match goal with |- context [randoms rnd ?n ?r'] =>
      destruct (randoms_run n r') as [k ->] end.
    simpl. eexists [_], k. split; [reflexivity|].
    intros e [<-|[]]. by eexists.
  - exists [], (drawn r). unfold ret. rewrite app_nil_r. destruct r. by split.
Qed.

End Blocks.

(** ** Frames: which blocks touch which fields *)

Section Frames.

Context {B : Type} (f : State -> B).

Lemma keeps_ret {A : Type} (a : A) : keeps f (ret a).
Proof. by intros r. Qed.

Lemma keeps_bind {A C : Type} (m : M A) (k : A -> M C) :
  keeps f m -> (forall a, keeps f (k a)) -> keeps f (bind m k).
Proof.
  intros Hm Hk r. unfold bind. specialize (Hm r).
  destruct (m r) as [a r']. simpl in Hm. rewrite <- Hm. apply Hk.
Qed.

Lemma keeps_emit (e : Effect) : keeps f (emit e).
Proof. by intros r. Qed.

Lemma keeps_update (g : State -> State) :
  (forall s, f (g s) = f s) -> keeps f (update g).
Proof. intros Hg r. simpl. apply Hg. Qed.

Lemma keeps_when (b : bool) (m : M unit) : keeps f m -> keeps f (when b m).
Proof. intros Hm. destruct b; [done | apply keeps_ret]. Qed.

Lemma keeps_random (rnd : nat -> Q) : keeps f (random rnd).
Proof. by intros r. Qed.

Lemma keeps_placeFreeCell rnd s c r0 : keeps f (placeFreeCell rnd s c r0).
Proof.
  intros r. by destruct (placeFreeCell_run rnd s c r0 r) as (o & k & -> & _).
Qed.

Lemma keeps_scaledBurst rnd cv cur p col i :
  keeps f (scaledBurst rnd cv cur p col i).
Proof.
  intros r.
  by destruct (scaledBurst_run rnd cv cur p col i r) as (l & k & -> & _).
Qed.

Lemma keeps_run {A : Type} (m : M A) (r r' : Run) (a : A) :
  keeps f m -> m r = (a, r') -> f (pending r') = f (pending r).
Proof. intros Hm E. specialize (Hm r). by rewrite E in Hm. Qed.

End Frames.

Ltac frame_step :=
  first
    [ apply keeps_ret
    | apply keeps_emit
    | apply keeps_random
    | apply keeps_placeFreeCell
    | apply keeps_scaledBurst
    | apply keeps_when
    | apply keeps_bind; [|intros ?]
    | apply keeps_update; intros ?; reflexivity
    | match goal with
      | |- keeps _ (if ?b then _ else _) => destruct b
      | |- keeps _ (match ?o with _ => _ end) => destruct o
      end ].

Ltac frame := repeat frame_step.

Ltac unfold_setters :=
  unfold setSelectedLevel, setSelectedLevelInput, setLives, setSnake, setDir,
    setFruit, setScore, setGameOver, setWon, setCrashPos, setShowOverlay,
    setOverlayMode, setPowerUp, setRevealTurns, setHazards.

Section BlockFrames.

Variable rnd : nat -> Q.
Variable canvasRef : option Canvas.
Variable cur : State.

Lemma triggerWin_keeps_powerUp : keeps powerUp (triggerWin cur).
Proof. unfold triggerWin. unfold_setters. frame. Qed.

Lemma triggerWin_keeps_score : keeps score (triggerWin cur).
Proof. unfold triggerWin. unfold_setters. frame. Qed.

Lemma triggerWin_keeps_fruit : keeps fruit (triggerWin cur).
Proof. unfold triggerWin. unfold_setters. frame. Qed.

Lemma triggerWin_keeps_revealTurns : keeps revealTurns (triggerWin cur).
Proof. unfold triggerWin. unfold_setters. frame. Qed.

Lemma winCheck_keeps_powerUp s o : keeps powerUp (winCheck cur s o).
Proof. unfold winCheck. frame. apply triggerWin_keeps_powerUp. Qed.

Lemma winCheck_keeps_score s o : keeps score (winCheck cur s o).
Proof. unfold winCheck. frame. apply triggerWin_keeps_score. Qed.

Lemma winCheck_keeps_fruit s o : keeps fruit (winCheck cur s o).
Proof. unfold winCheck. frame. apply triggerWin_keeps_fruit. Qed.

Lemma winCheck_keeps_revealTurns s o : keeps revealTurns (winCheck cur s o).
Proof. unfold winCheck. frame. apply triggerWin_keeps_revealTurns. Qed.

Lemma pickUp_keeps_score n s : keeps score (pickUp cur n s).
Proof. unfold pickUp. unfold_setters. frame. Qed.

Lemma pickUp_keeps_fruit n s : keeps fruit (pickUp cur n s).
Proof. unfold pickUp. unfold_setters. frame. Qed.

Lemma pickUp_keeps_won n s : keeps won (pickUp cur n s).
Proof. unfold pickUp. unfold_setters. frame. Qed.

Lemma countdown_keeps_score : keeps score (countdown cur).
Proof. unfold countdown. unfold_setters. frame. Qed.

Lemma countdown_keeps_fruit : keeps fruit (countdown cur).
Proof. unfold countdown. unfold_setters. frame. Qed.

Lemma countdown_keeps_won : keeps won (countdown cur).
Proof. unfold countdown. unfold_setters. frame. Qed.

Lemma spawnPowerUp_keeps_score h s c r b :
  keeps score (maybeSpawnPowerUp rnd cur h s c r b).
Proof. unfold maybeSpawnPowerUp. unfold_setters. frame. Qed.

Lemma spawnPowerUp_keeps_fruit h s c r b :
  keeps fruit (maybeSpawnPowerUp rnd cur h s c r b).
Proof. unfold maybeSpawnPowerUp. unfold_setters. frame. Qed.

Lemma spawnPowerUp_keeps_won h s c r b :
  keeps won (maybeSpawnPowerUp rnd cur h s c r b).
Proof. unfold maybeSpawnPowerUp. unfold_setters. frame. Qed.

Lemma spawnPowerUp_keeps_revealTurns h s c r b :
  keeps revealTurns (maybeSpawnPowerUp rnd cur h s c r b).
Proof. unfold maybeSpawnPowerUp. unfold_setters. frame. Qed.

Lemma spawnHazard_keeps_score h s c r :
  keeps score (maybeSpawnHazard rnd cur h s c r).
Proof. unfold maybeSpawnHazard. unfold_setters. frame. Qed.

Lemma spawnHazard_keeps_fruit h s c r :
  keeps fruit (maybeSpawnHazard rnd cur h s c r).
Proof. unfold maybeSpawnHazard. unfold_setters. frame. Qed.

Lemma spawnHazard_keeps_won h s c r :
  keeps won (maybeSpawnHazard rnd cur h s c r).
Proof. unfold maybeSpawnHazard. unfold_setters. frame. Qed.

Lemma spawnHazard_keeps_powerUp h s c r :
  keeps powerUp (maybeSpawnHazard rnd cur h s c r).
Proof. unfold maybeSpawnHazard. unfold_setters. frame. Qed.

Lemma spawnHazard_keeps_revealTurns h s c r :
  keeps revealTurns (maybeSpawnHazard rnd cur h s c r).
Proof. unfold maybeSpawnHazard. unfold_setters. frame. Qed.

End BlockFrames.

(** ** The two outcomes of an accepted step *)

Section Turn.

Variable rnd : nat -> Q.
Variable canvasRef : option Canvas.

(** [loseLifeAt] on an empty queue: the committed state and the effects,
    in order. *)
Lemma loseLifeAt_run (st : State) (cellPos : Cell) (r : Run) :
  pending r = st ->
  exists l k,
    loseLifeAt rnd canvasRef st cellPos r
    = (tt, mkRun (lifeLost st cellPos)
             (fx r ++ [if Z.max 0 (lives st - 1) >? 0
                       then PlayLifeLost else PlayGameOver]
                ++ l ++ [OverlayTimer OVERLAY_DELAY_MS false]) k)
    /\ forall e, In e l -> exists n, e = Burst cellPos "#f43f5e" n.
Proof.
  intros <-. unfold loseLifeAt, lifeLost, bind.
  destruct (Z.max 0 (lives (pending r) - 1) >? 0) eqn:E; simpl;
    unfold bind; simpl;
    match goal with |- context [scaledBurst _ _ _ ?c ?s ?i ?r'] =>
      destruct (scaledBurst_run rnd canvasRef (pending r) c s i r')
        as (l & k & -> & Hl) end;
    unfold emit; simpl; exists l, k; (split; [|done]);
    rewrite <- !app_assoc; reflexivity.
Qed.

(** A step that passes the gate and hits a hazard or the snake is
    [loseLifeAt newHead] and nothing else. *)
Lemma turn_lethal (st : State) (d : Dir) (h : Cell) (tl : list Cell) :
  terminal st = false -> rejected st d = false -> snake st = h :: tl ->
  lethal st (newHeadOf st h d) = true ->
  exists l k,
    turn rnd canvasRef st d
    = (Returns,
       mkRun (lifeLost st (newHeadOf st h d))
         ([if Z.max 0 (lives st - 1) >? 0 then PlayLifeLost else PlayGameOver]
            ++ l ++ [OverlayTimer OVERLAY_DELAY_MS false]) k)
    /\ forall e, In e l -> exists n, e = Burst (newHeadOf st h d) "#f43f5e" n.
Proof.
  unfold terminal, rejected, lethal, turn, doStep.
  intros -> -> Hs Hl. rewrite Hs. rewrite <- Hs.
  destruct (loseLifeAt_run st (newHeadOf st h d) (mkRun st [] 0%nat) eq_refl)
    as (l & k & E & Hb).
  exists l, k. split; [|exact Hb].
  apply orb_true_iff in Hl as [Hl|Hl]; rewrite Hl.
  - unfold bind. rewrite E. reflexivity.
  - destruct (existsb _ (hazards st)); unfold bind; rewrite E; reflexivity.
Qed.

(** A step that passes the gate and is not lethal runs the six blocks in
    order and then commits the new snake and heading. *)
Lemma turn_accepted (st : State) (d : Dir) (h : Cell) (tl : list Cell) :
  terminal st = false -> rejected st d = false -> snake st = h :: tl ->
  lethal st (newHeadOf st h d) = false ->
  exists newSnake nextFruitPos picked r1 r2 r3 r4 r5 r6,
    advance rnd canvasRef st (newHeadOf st h d) (mkRun st [] 0%nat)
      = ((newSnake, nextFruitPos), r1)
    /\ pickUp st (newHeadOf st h d) newSnake r1 = (picked, r2)
    /\ countdown st r2 = (tt, r3)
    /\ winCheck st newSnake nextFruitPos r3 = (tt, r4)
    /\ maybeSpawnPowerUp rnd st (newHeadOf st h d) newSnake (cols st) (rows st)
         picked r4 = (tt, r5)
    /\ maybeSpawnHazard rnd st (newHeadOf st h d) newSnake (cols st) (rows st)
         r5 = (tt, r6)
    /\ turn rnd canvasRef st d
       = (Returns, mkRun (moved (pending r6) newSnake d) (fx r6) (drawn r6)).
Proof.
  unfold terminal, rejected, lethal, turn, doStep.
  intros -> -> Hs Hl. rewrite Hs. rewrite <- Hs.
  apply orb_false_iff in Hl as [-> ->].
  set (n := newHeadOf st h d).
  unfold bind at 1.
  destruct (advance rnd canvasRef st n (mkRun st [] 0%nat))
    as [[newSnake nextFruitPos] r1] eqn:E1.
  unfold bind at 1. cbn [fst snd].
  destruct (pickUp st n newSnake r1) as [picked r2] eqn:E2.
  unfold bind at 1.
  destruct (countdown st r2) as [[] r3] eqn:E3.
  unfold bind at 1.
  destruct (winCheck st newSnake nextFruitPos r3) as [[] r4] eqn:E4.
  unfold bind at 1.
  destruct (maybeSpawnPowerUp rnd st n newSnake (cols st) (rows st) picked r4)
    as [[] r5] eqn:E5.
  unfold bind at 1.
  destruct (maybeSpawnHazard rnd st n newSnake (cols st) (rows st) r5)
    as [[] r6] eqn:E6.
  exists newSnake, nextFruitPos, picked, r1, r2, r3, r4, r5, r6.
  repeat (split; [first [reflexivity | eassumption]|]).
  reflexivity.
Qed.

End Turn.

(** ** Moving the head *)

Section Moves.

Variable rnd : nat -> Q.
Variable canvasRef : option Canvas.

Lemma ateFruitAt_iff (st : State) (n : Cell) :
  ateFruitAt st n = true <-> fruit st = Some n.
Proof.
  unfold ateFruitAt. destruct (fruit st) as [f|].
  - rewrite posEq_eq. split; [by intros -> | by intros [= ->]].
  - split; discriminate.
Qed.

(** Without a fruit under the new head the tail is dropped. *)
Lemma advance_plain (st : State) (n : Cell) (r : Run) :
  ateFruitAt st n = false ->
  advance rnd canvasRef st n r
  = ((removelast (n :: snake st), fruit st),
     mkRun (pending r) (fx r ++ [PlayMove]) (drawn r)).
Proof. intros E. unfold advance. rewrite E. reflexivity. Qed.

(** With a fruit under the new head the snake keeps its tail and the
    score goes up by one. *)
Lemma advance_fruit (st : State) (n : Cell) (r : Run) :
  ateFruitAt st n = true ->
  exists nf r1,
    advance rnd canvasRef st n r = ((n :: snake st, nf), r1)
    /\ score (pending r1) = score (pending r) + 1.
Proof.
  intros E. unfold advance. rewrite E. simpl.
  unfold bind at 1.
  destruct (fruitEaten rnd canvasRef st n (n :: snake st) r) as [nf r1] eqn:E1.
  exists nf, r1. split; [reflexivity|].
  revert E1. unfold fruitEaten, bind, emit. simpl.
  match goal with |- context [placeFreeCell rnd ?s ?c ?r0 ?r'] =>
    destruct (placeFreeCell_run rnd s c r0 r') as (o & k & -> & _) end.
  destruct o as [c|].
  - simpl.
    match goal with |- context [scaledBurst _ _ _ ?c ?s ?i ?r'] =>
      destruct (scaledBurst_run rnd canvasRef st c s i r') as (l & k' & -> & _) end.
    intros [= <- <-]. reflexivity.
  - match goal with |- context [triggerWin st ?r'] =>
      pose proof (triggerWin_keeps_score st r') as Hk;
      destruct (triggerWin st r') as [[] r''] end.
    simpl in Hk. simpl.
    match goal with |- context [scaledBurst _ _ _ ?c ?s ?i ?r'] =>
      destruct (scaledBurst_run rnd canvasRef st c s i r') as (l & k' & -> & _) end.
    intros [= <- <-]. simpl. rewrite Hk. reflexivity.
Qed.

Lemma removelast_cons_length {A : Type} (a : A) (l : list A) :
  length (removelast (a :: l)) = length l.
Proof.
  rewrite removelast_firstn_len, length_firstn. simpl. lia.
Qed.

End Moves.

(** * The claims *)

(** C8.  For a head inside the board and any of the four unit directions,
    the new head [wrap (head + heading)] lies inside the board, equals
    [head + heading] modulo the board size on each axis, and keeps the
    coordinate orthogonal to the move. *)
Theorem C8_new_head_wraps (st : State) (head : Cell) (d : Dir) :
  inBoard st head ->
  inBoard st (newHeadOf st head d)
  /\ x (newHeadOf st head d) = (x head + dirX d) mod cols st
  /\ y (newHeadOf st head d) = (y head + dirY d) mod rows st
  /\ (dirX d = 0 -> x (newHeadOf st head d) = x head)
  /\ (dirY d = 0 -> y (newHeadOf st head d) = y head).
Proof.
  unfold inBoard, newHeadOf, wrapCoord. simpl. intros [Hx Hy].
  assert (Hw : forall v m k, 0 <= v < m -> (k = -1 \/ k = 0 \/ k = 1) ->
     let w := if v + k <? 0 then m - 1 else if v + k >=? m then 0 else v + k in
     0 <= w < m /\ w = (v + k) mod m /\ (k = 0 -> w = v)).
  { intros v m k Hv Hk. simpl.
    destruct (v + k <? 0) eqn:E1; [apply Z.ltb_lt in E1 | apply Z.ltb_ge in E1].
    - assert (v = 0 /\ k = -1) as [-> ->] by lia. simpl.
      repeat split; try lia.
      apply (Z.mod_unique _ _ (-1)); lia.
    - destruct (v + k >=? m) eqn:E2; rewrite Z.geb_leb in E2;
        [apply Z.leb_le in E2 | apply Z.leb_gt in E2].
      + assert (v + k = m) as -> by lia.
        repeat split; try lia. by rewrite Z.mod_same by lia.
      + repeat split; try lia. by rewrite Z.mod_small by lia. }
  assert (Hdx : dirX d = -1 \/ dirX d = 0 \/ dirX d = 1) by (destruct d; simpl; lia).
  assert (Hdy : dirY d = -1 \/ dirY d = 0 \/ dirY d = 1) by (destruct d; simpl; lia).
  destruct (Hw _ _ _ Hx Hdx) as (Hx1 & Hx2 & Hx3).
  destruct (Hw _ _ _ Hy Hdy) as (Hy1 & Hy2 & Hy3).
  simpl in *. repeat split; try tauto; try lia.
Qed.

Lemma C8_new_head_wraps_witness :
  inBoard (freshBoard 3 5 5 (mkCell 0 0)) (mkCell 4 2)
  /\ x (newHeadOf (freshBoard 3 5 5 (mkCell 0 0)) (mkCell 4 2) RIGHT) = 0
  /\ y (newHeadOf (freshBoard 3 5 5 (mkCell 0 0)) (mkCell 4 2) RIGHT) = 2.
Proof.
  assert (H : inBoard (freshBoard 3 5 5 (mkCell 0 0)) (mkCell 4 2))
    by (unfold inBoard; simpl; lia).
  split; [exact H|].
  destruct (C8_new_head_wraps (freshBoard 3 5 5 (mkCell 0 0)) (mkCell 4 2)
              RIGHT H) as (_ & Hx & _ & _ & Hy).
  split; [exact Hx | exact (Hy eq_refl)].
Defined.

(** C3.  A request for the exact opposite of the current heading is a
    no-op when the snake is longer than one cell: the state is the input
    state, nothing is emitted and no random number is drawn.  With a snake
    of one cell (in a state that is not terminal) the request is accepted:
    the step either ends in a death at the new head or moves the snake
    there and takes the requested heading. *)
Theorem C3_opposite_request (rnd : nat -> Q) (cv : option Canvas)
    (st : State) (d : Dir) :
  isOpposite d (dir st) = true ->
  (1 < snakeLength (snake st) ->
     turn rnd cv st d = (Returns, mkRun st [] 0%nat))
  /\ (forall h, snake st = [h] -> terminal st = false ->
        fst (turn rnd cv st d) = Returns
        /\ (lethal st (newHeadOf st h d) = true ->
              nextState (turn rnd cv st d) = lifeLost st (newHeadOf st h d))
        /\ (lethal st (newHeadOf st h d) = false ->
              snake (nextState (turn rnd cv st d))
                = (if ateFruitAt st (newHeadOf st h d)
                   then [newHeadOf st h d; h] else [newHeadOf st h d])
              /\ dir (nextState (turn rnd cv st d)) = d)).
Proof.
  intros Hopp. split.
  - intros Hlen. unfold turn, doStep. rewrite Hopp.
    apply Z.gtb_lt in Hlen. rewrite Hlen. simpl.
    by destruct (gameOver st || won st).
  - intros h Hs Hterm.
    assert (Hrej : rejected st d = false)
      by (unfold rejected; rewrite Hs; reflexivity).
    destruct (lethal st (newHeadOf st h d)) eqn:Hl.
    + destruct (turn_lethal rnd cv st d h [] Hterm Hrej Hs Hl)
        as (l & k & -> & _).
      repeat split; [done | discriminate].
    + destruct (turn_accepted rnd cv st d h [] Hterm Hrej Hs Hl)
        as (newSnake & nf & picked & r1 & r2 & r3 & r4 & r5 & r6
            & E1 & _ & _ & _ & _ & _ & ->).
      split; [reflexivity|]. split; [discriminate|]. intros _.
      unfold nextState. simpl. split; [|reflexivity].
      destruct (ateFruitAt st (newHeadOf st h d)) eqn:Ha.
      * destruct (advance_fruit rnd cv st _ (mkRun st [] 0%nat) Ha)
          as (nf' & r1' & E1' & _).
        rewrite E1 in E1'. injection E1' as -> _ _. by rewrite Hs.
      * rewrite (advance_plain rnd cv st _ _ Ha) in E1.
        injection E1 as <- _ _. by rewrite Hs.
Qed.

Lemma C3_opposite_request_witness :
  isOpposite UP (dir twoCells) = true
  /\ 1 < snakeLength (snake twoCells)
  /\ turn zeros None twoCells UP = (Returns, mkRun twoCells [] 0%nat).
Proof.
  split; [reflexivity|]. split; [reflexivity|].
  apply (C3_opposite_request zeros None twoCells UP); reflexivity.
Defined.

(** C1, as amended.  In a state that is not terminal, for a request that
    passes the direction gate, if the wrapped new head is a hazard cell or
    a cell of the snake before the move (its tail included), the step is a
    death: the crash position is the new head, the game is over, the death
    cue is played, the snake, heading and score stay as they were and the
    lives go down by one, floored at 0. *)
Theorem C1_lethal_step_dies (rnd : nat -> Q) (cv : option Canvas)
    (st : State) (d : Dir) (h : Cell) (tl : list Cell) :
  terminal st = false ->
  rejected st d = false ->
  snake st = h :: tl ->
  In (newHeadOf st h d) (hazards st) \/ In (newHeadOf st h d) (snake st) ->
  fst (turn rnd cv st d) = Returns
  /\ crashPos (nextState (turn rnd cv st d)) = Some (newHeadOf st h d)
  /\ gameOver (nextState (turn rnd cv st d)) = true
  /\ (In PlayLifeLost (effects (turn rnd cv st d))
      \/ In PlayGameOver (effects (turn rnd cv st d)))
  /\ snake (nextState (turn rnd cv st d)) = snake st
  /\ dir (nextState (turn rnd cv st d)) = dir st
  /\ score (nextState (turn rnd cv st d)) = score st
  /\ lives (nextState (turn rnd cv st d)) = Z.max 0 (lives st - 1).
Proof.
  intros Hterm Hrej Hs Hhit.
  assert (Hl : lethal st (newHeadOf st h d) = true).
  { unfold lethal. apply orb_true_iff.
    destruct Hhit as [Hh|Hh]; [left | right]; by apply existsb_posEq. }
  destruct (turn_lethal rnd cv st d h tl Hterm Hrej Hs Hl) as (l & k & -> & _).
  unfold nextState, effects. simpl.
  repeat split; try reflexivity.
  destruct (Z.max 0 (lives st - 1) >? 0); [left | right]; by left.
Qed.

Lemma C1_lethal_step_dies_witness :
  crashPos (nextState (turn zeros None hazardAhead RIGHT)) = Some (mkCell 2 2)
  /\ snake (nextState (turn zeros None hazardAhead RIGHT)) = [mkCell 1 2]
  /\ lives (nextState (turn zeros None hazardAhead RIGHT)) = 2.
Proof.
  destruct (C1_lethal_step_dies zeros None hazardAhead RIGHT (mkCell 1 2) [])
    as (_ & Hc & _ & _ & Hs & _ & _ & Hl).
  - reflexivity.
  - reflexivity.
  - reflexivity.
  - left. simpl. left. reflexivity.
  - split; [exact Hc|]. split; [exact Hs | exact Hl].
Defined.

(** C1 as stated fails at the direction gate: with the snake
    [(1,1),(1,0)] heading DOWN, the request UP has its wrapped new head on
    the snake cell [(1,0)], and the step is a no-op, not a death. *)
Lemma C1_counterexample :
  terminal twoCells = false
  /\ In (newHeadOf twoCells (mkCell 1 1) UP) (snake twoCells)
  /\ gameOver (nextState (turn zeros None twoCells UP)) = false
  /\ crashPos (nextState (turn zeros None twoCells UP)) = None
  /\ lives (nextState (turn zeros None twoCells UP)) = lives twoCells.
Proof.
  split; [reflexivity|]. split; [right; left; reflexivity|].
  repeat split; reflexivity.
Qed.

(** C2.  In a step that is neither ignored (terminal state), rejected by
    the gate, nor lethal, the snake keeps its length when the new head is
    not the fruit cell and is one cell longer when it is. *)
Theorem C2_length_of_snake (rnd : nat -> Q) (cv : option Canvas)
    (st : State) (d : Dir) (h : Cell) (tl : list Cell) :
  terminal st = false ->
  rejected st d = false ->
  snake st = h :: tl ->
  lethal st (newHeadOf st h d) = false ->
  (fruit st <> Some (newHeadOf st h d) ->
     length (snake (nextState (turn rnd cv st d))) = length (snake st))
  /\ (fruit st = Some (newHeadOf st h d) ->
     length (snake (nextState (turn rnd cv st d))) = S (length (snake st))).
Proof.
  intros Hterm Hrej Hs Hl.
  destruct (turn_accepted rnd cv st d h tl Hterm Hrej Hs Hl)
    as (newSnake & nf & picked & r1 & r2 & r3 & r4 & r5 & r6
        & E1 & _ & _ & _ & _ & _ & ->).
  unfold nextState. simpl.
  destruct (ateFruitAt st (newHeadOf st h d)) eqn:Ha.
  - destruct (advance_fruit rnd cv st _ (mkRun st [] 0%nat) Ha)
      as (nf' & r1' & E1' & _).
    rewrite E1 in E1'. injection E1' as -> _ _.
    apply ateFruitAt_iff in Ha. split; [congruence | reflexivity].
  - rewrite (advance_plain rnd cv st _ _ Ha) in E1. injection E1 as <- _ _.
    split.
    + intros _. apply removelast_cons_length.
    + intros Hf. apply ateFruitAt_iff in Hf. congruence.
Qed.

Lemma C2_length_of_snake_witness :
  length (snake (nextState (turn zeros None twoCells RIGHT))) = 2%nat.
Proof.
  apply (C2_length_of_snake zeros None twoCells RIGHT (mkCell 1 1) [mkCell 1 0]);
    try reflexivity.
  discriminate.
Defined.

(** ** Score of an accepted step *)

Section Score.

Variable rnd : nat -> Q.
Variable canvasRef : option Canvas.

(** The snake after an accepted step: the new head before the old
    cells, without the old tail unless the fruit was eaten. *)
Lemma turn_snake (st : State) (d : Dir) (h : Cell) (tl : list Cell) :
  terminal st = false -> rejected st d = false -> snake st = h :: tl ->
  lethal st (newHeadOf st h d) = false ->
  snake (nextState (turn rnd canvasRef st d))
  = if ateFruitAt st (newHeadOf st h d)
    then newHeadOf st h d :: snake st
    else removelast (newHeadOf st h d :: snake st).
Proof.
  intros Hterm Hrej Hs Hl.
  destruct (turn_accepted rnd canvasRef st d h tl Hterm Hrej Hs Hl)
    as (newSnake & nf & picked & r1 & r2 & r3 & r4 & r5 & r6
        & E1 & _ & _ & _ & _ & _ & ->).
  unfold nextState. simpl.
  destruct (ateFruitAt st (newHeadOf st h d)) eqn:Ha.
  - destruct (advance_fruit rnd canvasRef st _ (mkRun st [] 0%nat) Ha)
      as (nf' & r1' & E1' & _).
    rewrite E1 in E1'. by injection E1' as -> _ _.
  - rewrite (advance_plain rnd canvasRef st _ _ Ha) in E1.
    by injection E1 as <- _ _.
Qed.

(** The score goes up by one exactly when the fruit is eaten. *)
Lemma turn_score (st : State) (d : Dir) (h : Cell) (tl : list Cell) :
  terminal st = false -> rejected st d = false -> snake st = h :: tl ->
  lethal st (newHeadOf st h d) = false ->
  score (nextState (turn rnd canvasRef st d))
  = score st + (if ateFruitAt st (newHeadOf st h d) then 1 else 0).
Proof.
  intros Hterm Hrej Hs Hl.
  destruct (turn_accepted rnd canvasRef st d h tl Hterm Hrej Hs Hl)
    as (newSnake & nf & picked & r1 & r2 & r3 & r4 & r5 & r6
        & E1 & E2 & E3 & E4 & E5 & E6 & ->).
  unfold nextState. simpl.
  rewrite (keeps_run score _ _ _ _ (spawnHazard_keeps_score rnd st _ _ _ _) E6).
  rewrite (keeps_run score _ _ _ _ (spawnPowerUp_keeps_score rnd st _ _ _ _ _) E5).
  rewrite (keeps_run score _ _ _ _ (winCheck_keeps_score st _ _) E4).
  rewrite (keeps_run score _ _ _ _ (countdown_keeps_score st) E3).
  rewrite (keeps_run score _ _ _ _ (pickUp_keeps_score st _ _) E2).
  destruct (ateFruitAt st (newHeadOf st h d)) eqn:Ha.
  - destruct (advance_fruit rnd canvasRef st _ (mkRun st [] 0%nat) Ha)
      as (nf' & r1' & E1' & Hsc).
    rewrite E1 in E1'. injection E1' as _ _ <-. exact Hsc.
  - rewrite (advance_plain rnd canvasRef st _ _ Ha) in E1.
    injection E1 as _ _ <-. simpl. lia.
Qed.

End Score.

(** C10, as amended.  At level 1 the board is 3 by 3 and its center cell is
    (1,1).  With a one-cell snake at the center, heading RIGHT, no hazard
    on the board and the fruit not in the target cell, stepping RIGHT
    yields the snake [(2,1)] and leaves the score unchanged. *)
Theorem C10_first_move_level_one (rnd : nat -> Q) (cv : option Canvas)
    (st : State) :
  level st = 1 ->
  cols st = sizeForLevel (level st) ->
  rows st = sizeForLevel (level st) ->
  snake st = [centerCell (cols st) (rows st)] ->
  dir st = RIGHT ->
  terminal st = false ->
  hazards st = [] ->
  fruit st <> Some (mkCell 2 1) ->
  cols st = 3 /\ rows st = 3
  /\ snake st = [mkCell 1 1]
  /\ snake (nextState (turn rnd cv st RIGHT)) = [mkCell 2 1]
  /\ score (nextState (turn rnd cv st RIGHT)) = score st.
Proof.
  intros Hlvl Hc Hr Hs Hd Hterm Hhz Hf.
  rewrite Hlvl in Hc, Hr. change (sizeForLevel 1) with 3 in Hc, Hr.
  rewrite Hc, Hr in Hs. change (centerCell 3 3) with (mkCell 1 1) in Hs.
  assert (Hn : newHeadOf st (mkCell 1 1) RIGHT = mkCell 2 1)
    by (unfold newHeadOf; rewrite Hc, Hr; reflexivity).
  assert (Hrej : rejected st RIGHT = false)
    by (unfold rejected; rewrite Hs; reflexivity).
  assert (Hl : lethal st (newHeadOf st (mkCell 1 1) RIGHT) = false)
    by (unfold lethal; rewrite Hn, Hhz, Hs; reflexivity).
  assert (Ha : ateFruitAt st (newHeadOf st (mkCell 1 1) RIGHT) = false).
  { rewrite Hn. destruct (ateFruitAt st (mkCell 2 1)) eqn:E; [|done].
    apply ateFruitAt_iff in E. contradiction. }
  repeat split; try assumption.
  - destruct (turn_accepted rnd cv st RIGHT _ [] Hterm Hrej Hs Hl)
      as (newSnake & nf & picked & r1 & r2 & r3 & r4 & r5 & r6
          & E1 & _ & _ & _ & _ & _ & ->).
    rewrite (advance_plain rnd cv st _ _ Ha) in E1. injection E1 as <- _ _.
    unfold nextState. simpl. rewrite Hs, Hn. reflexivity.
  - rewrite (turn_score rnd cv st RIGHT _ [] Hterm Hrej Hs Hl), Ha. lia.
Qed.

Lemma C10_first_move_level_one_witness :
  snake (nextState (turn zeros None (freshBoard 1 3 3 (mkCell 0 0)) RIGHT))
    = [mkCell 2 1]
  /\ score (nextState (turn zeros None (freshBoard 1 3 3 (mkCell 0 0)) RIGHT))
    = 0.
Proof.
  destruct (C10_first_move_level_one zeros None (freshBoard 1 3 3 (mkCell 0 0)))
    as (_ & _ & _ & Hsn & Hsc); try reflexivity.
  - discriminate.
  - split; [exact Hsn | exact Hsc].
Defined.

(** C10 as stated fails: the level-1 board is not 5 by 5, its center is not
    (2,2), and on it a one-cell snake at (2,2) stepping RIGHT wraps to
    (0,2) instead of reaching (3,2). *)
Lemma C10_counterexample :
  sizeForLevel 1 <> 5
  /\ centerCell (sizeForLevel 1) (sizeForLevel 1) <> mkCell 2 2
  /\ snake (nextState (turn zeros None cornerStart RIGHT)) = [mkCell 0 2]
  /\ snake (nextState (turn zeros None cornerStart RIGHT)) <> [mkCell 3 2].
Proof.
  assert (E : snake (nextState (turn zeros None cornerStart RIGHT))
              = [mkCell 0 2]) by (vm_compute; reflexivity).
  split; [discriminate|]. split; [discriminate|].
  split; [exact E | rewrite E; discriminate].
Qed.

(** ** The power-up through a step *)

Section PowerUps.

Variable rnd : nat -> Q.
Variable canvasRef : option Canvas.

Lemma fruitEaten_keeps_powerUp (st : State) (n : Cell) (s : list Cell) :
  keeps powerUp (fruitEaten rnd canvasRef st n s).
Proof.
  unfold fruitEaten. unfold_setters. frame. apply triggerWin_keeps_powerUp.
Qed.

Lemma advance_keeps_powerUp (st : State) (n : Cell) :
  keeps powerUp (advance rnd canvasRef st n).
Proof. unfold advance. frame. apply triggerWin_keeps_powerUp. Qed.

Lemma fruitEaten_keeps_revealTurns (st : State) (n : Cell) (s : list Cell) :
  keeps revealTurns (fruitEaten rnd canvasRef st n s).
Proof.
  unfold fruitEaten. unfold_setters. frame.
  apply triggerWin_keeps_revealTurns.
Qed.

Lemma advance_keeps_revealTurns (st : State) (n : Cell) :
  keeps revealTurns (advance rnd canvasRef st n).
Proof. unfold advance. frame. apply triggerWin_keeps_revealTurns. Qed.

(** With the block flag set the spawn routine does nothing, whatever
    the level, the snake, the reveal counter and the tape. *)
Lemma maybeSpawnPowerUp_blocked (st : State) (head : Cell)
    (s : list Cell) (c r : Z) (run : Run) :
  maybeSpawnPowerUp rnd st head s c r true run = (tt, run).
Proof. reflexivity. Qed.

(** Nor does it while the last render had a power-up. *)
Lemma maybeSpawnPowerUp_present (st : State) (p : PowerUp) (head : Cell)
    (s : list Cell) (c r : Z) (b : bool) (run : Run) :
  powerUp st = Some p ->
  maybeSpawnPowerUp rnd st head s c r b run = (tt, run).
Proof.
  intros E. unfold maybeSpawnPowerUp. rewrite E.
  destruct b; [reflexivity|].
  destruct (level st <? POWERUP_MIN_LEVEL); [reflexivity|].
  rewrite bool_decide_eq_true_2 by (by eexists). reflexivity.
Qed.

(** The countdown reads the power-up of the last render and overwrites
    whatever the queue holds. *)
Lemma countdown_present (st : State) (p : PowerUp) (r r' : Run) :
  powerUp st = Some p -> countdown st r = (tt, r') ->
  powerUp (pending r') = countedDown p.
Proof.
  intros E. unfold countdown, countedDown. rewrite E.
  unfold bind, when. unfold_setters.
  destruct (ttl p - 1 <=? 0); destruct (revealTurns st >? 0); simpl;
    intros [= <-]; reflexivity.
Qed.

Lemma countdown_absent (st : State) (r r' : Run) :
  powerUp st = None -> countdown st r = (tt, r') ->
  powerUp (pending r') = powerUp (pending r).
Proof.
  intros E. unfold countdown. rewrite E.
  unfold bind, when, ret. unfold_setters.
  destruct (revealTurns st >? 0); simpl; intros [= <-]; reflexivity.
Qed.

(** What an accepted step leaves of a power-up that the last render
    had: its countdown, whether or not the head has just entered its
    cell. *)
Lemma turn_powerUp_present (st : State) (d : Dir) (h : Cell)
    (tl : list Cell) (p : PowerUp) :
  terminal st = false -> rejected st d = false -> snake st = h :: tl ->
  lethal st (newHeadOf st h d) = false ->
  powerUp st = Some p ->
  powerUp (nextState (turn rnd canvasRef st d)) = countedDown p.
Proof.
  intros Hterm Hrej Hs Hl Hp.
  destruct (turn_accepted rnd canvasRef st d h tl Hterm Hrej Hs Hl)
    as (newSnake & nf & picked & r1 & r2 & r3 & r4 & r5 & r6
        & E1 & E2 & E3 & E4 & E5 & E6 & ->).
  unfold nextState. simpl.
  rewrite (keeps_run powerUp _ _ _ _ (spawnHazard_keeps_powerUp rnd st _ _ _ _) E6).
  rewrite (maybeSpawnPowerUp_present st p _ _ _ _ _ _ Hp) in E5.
  injection E5 as <-.
  rewrite (keeps_run powerUp _ _ _ _ (winCheck_keeps_powerUp st _ _) E4).
  exact (countdown_present st p r2 r3 Hp E3).
Qed.

(** The reveal counter after a step in which the head enters the cell
    of the power-up. *)
Lemma turn_revealTurns_pickup (st : State) (d : Dir) (h : Cell)
    (tl : list Cell) (p : PowerUp) :
  terminal st = false -> rejected st d = false -> snake st = h :: tl ->
  lethal st (newHeadOf st h d) = false ->
  powerUp st = Some p -> posEq (newHeadOf st h d) (puCell p) = true ->
  revealTurns (nextState (turn rnd canvasRef st d))
  = if revealTurns st >? 0 then revealTurns st - 1
    else snakeLength (snake (nextState (turn rnd canvasRef st d))).
Proof.
  intros Hterm Hrej Hs Hl Hp Hat.
  destruct (turn_accepted rnd canvasRef st d h tl Hterm Hrej Hs Hl)
    as (newSnake & nf & picked & r1 & r2 & r3 & r4 & r5 & r6
        & E1 & E2 & E3 & E4 & E5 & E6 & ->).
  unfold nextState. simpl.
  rewrite (keeps_run revealTurns _ _ _ _
             (spawnHazard_keeps_revealTurns rnd st _ _ _ _) E6).
  rewrite (keeps_run revealTurns _ _ _ _
             (spawnPowerUp_keeps_revealTurns rnd st _ _ _ _ _) E5).
  rewrite (keeps_run revealTurns _ _ _ _ (winCheck_keeps_revealTurns st _ _) E4).
  revert E2 E3. unfold pickUp, countdown. rewrite Hp, Hat.
  unfold bind, when, ret, emit. unfold_setters. simpl.
  intros [= _ <-].
  destruct (ttl p - 1 <=? 0); destruct (revealTurns st >? 0); simpl;
    intros [= <-]; reflexivity.
Qed.

End PowerUps.

(** C7.  In a step in which the head enters the cell of the power-up, no
    power-up is spawned: the spawn routine, called with the block flag,
    does nothing whatever the level, the snake length, the reveal counter,
    the free cells and the random draws, and the power-up left by the step
    is what the countdown makes of the old one. *)
Theorem C7_no_spawn_on_pickup (rnd : nat -> Q) (cv : option Canvas)
    (st : State) (d : Dir) (h : Cell) (tl : list Cell) (p : PowerUp) :
  terminal st = false ->
  rejected st d = false ->
  snake st = h :: tl ->
  lethal st (newHeadOf st h d) = false ->
  powerUp st = Some p ->
  posEq (newHeadOf st h d) (puCell p) = true ->
  (forall (st' : State) (head : Cell) (s : list Cell) (c r : Z) (run : Run),
      maybeSpawnPowerUp rnd st' head s c r true run = (tt, run))
  /\ powerUp (nextState (turn rnd cv st d)) = countedDown p
  /\ In PlayPickupSweep (effects (turn rnd cv st d)).
Proof.
  intros Hterm Hrej Hs Hl Hp Hat. split; [reflexivity|]. split.
  - exact (turn_powerUp_present rnd cv st d h tl p Hterm Hrej Hs Hl Hp).
  - destruct (turn_accepted rnd cv st d h tl Hterm Hrej Hs Hl)
      as (newSnake & nf & picked & r1 & r2 & r3 & r4 & r5 & r6
          & E1 & E2 & E3 & E4 & E5 & E6 & ->).
    unfold effects. simpl.
    rewrite (maybeSpawnPowerUp_present rnd st p _ _ _ _ _ _ Hp) in E5.
    injection E5 as <-.
    assert (H2 : In PlayPickupSweep (fx r2)).
    { revert E2. unfold pickUp. rewrite Hp, Hat.
      unfold bind, ret, emit. unfold_setters. simpl.
      intros [= _ <-]. simpl. apply in_or_app. right. by left. }
    assert (H3 : In PlayPickupSweep (fx r3)).
    { revert E3. unfold countdown. rewrite Hp.
      unfold bind, when, ret. unfold_setters.
      destruct (ttl p - 1 <=? 0); destruct (revealTurns st >? 0); simpl;
        intros [= <-]; exact H2. }
    assert (H4 : In PlayPickupSweep (fx r4)).
    { revert E4. unfold winCheck, when, triggerWin.
      destruct (_ <? _); [|intros [= <-]; exact H3].
      destruct (won st); [intros [= <-]; exact H3|].
      unfold bind, emit. unfold_setters. simpl. intros [= <-]. simpl.
      rewrite <- app_assoc. apply in_or_app. by left. }
    revert E6. unfold maybeSpawnHazard.
    destruct (level st <? HAZARD_MIN_LEVEL); [intros [= <-]; exact H4|].
    destruct (_ >=? _); [intros [= <-]; exact H4|].
    unfold bind, random. simpl.
    destruct (negb _); [intros [= <-]; exact H4|].
    match goal with |- context [placeFreeCell rnd ?s ?c ?r0 ?r'] =>
      destruct (placeFreeCell_run rnd s c r0 r') as (o & k & -> & _) end.
    destruct o; unfold_setters; simpl; intros [= <-]; exact H4.
Qed.

Lemma C7_no_spawn_on_pickup_witness :
  powerUp (nextState (turn zeros None pickupBoard RIGHT))
  = countedDown (mkPowerUp 2 0 4).
Proof.
  assert (H1 : terminal pickupBoard = false) by reflexivity.
  assert (H2 : rejected pickupBoard RIGHT = false) by reflexivity.
  assert (H3 : snake pickupBoard = mkCell 1 0 :: tl (snake pickupBoard))
    by reflexivity.
  assert (H4 : lethal pickupBoard (newHeadOf pickupBoard (mkCell 1 0) RIGHT)
               = false) by reflexivity.
  assert (H5 : powerUp pickupBoard = Some (mkPowerUp 2 0 4)) by reflexivity.
  assert (H6 : posEq (newHeadOf pickupBoard (mkCell 1 0) RIGHT)
                 (puCell (mkPowerUp 2 0 4)) = true) by reflexivity.
  exact (proj1 (proj2 (C7_no_spawn_on_pickup zeros None pickupBoard RIGHT
                         (mkCell 1 0) (tl (snake pickupBoard))
                         (mkPowerUp 2 0 4) H1 H2 H3 H4 H5 H6))).
Defined.

(** [pickupBoard] is what one step commits from [spawnBoard]: the snake
    turns RIGHT, the power-up roll succeeds, the first sampled cell, (2,0),
    is free, and the hazard roll fails. *)
Example spawnBoard_step :
  nextState (turn alternating None spawnBoard RIGHT) = pickupBoard.
Proof. vm_compute. reflexivity. Qed.

(** C5 (the code departs from it).  On [pickupBoard] the head enters the
    cell of the power-up; the step sets the reveal counter to the length
    of the snake, 10, but the countdown, gated by the mirror of the last
    render, then writes the power-up back with [ttl] 3: it is counted
    down, not removed. *)
Theorem C5_power_up_survives_pickup (rnd : nat -> Q) (cv : option Canvas) :
  posEq (newHeadOf pickupBoard (mkCell 1 0) RIGHT) (mkCell 2 0) = true
  /\ powerUp (nextState (turn rnd cv pickupBoard RIGHT))
     = Some (mkPowerUp 2 0 3)
  /\ revealTurns (nextState (turn rnd cv pickupBoard RIGHT)) = 10
  /\ length (snake (nextState (turn rnd cv pickupBoard RIGHT))) = 10%nat.
Proof.
  split; [reflexivity|].
  assert (Hlen : length (snake (nextState (turn rnd cv pickupBoard RIGHT)))
                 = 10%nat).
  { by rewrite (turn_snake rnd cv pickupBoard RIGHT (mkCell 1 0)
                  (tl (snake pickupBoard))). }
  split; [|split; [|exact Hlen]].
  - by rewrite (turn_powerUp_present rnd cv pickupBoard RIGHT (mkCell 1 0)
                  (tl (snake pickupBoard)) (mkPowerUp 2 0 4)).
  - rewrite (turn_revealTurns_pickup rnd cv pickupBoard RIGHT (mkCell 1 0)
               (tl (snake pickupBoard)) (mkPowerUp 2 0 4)) by reflexivity.
    simpl. unfold snakeLength. rewrite Hlen. reflexivity.
Qed.

(** ** Spawning a power-up *)

Lemma has_addCell (o : option Cell) (s : gset string) (c : Cell) :
  has (addCell o s) c = true <-> o = Some c \/ has s c = true.
Proof.
  unfold has, addCell. destruct o as [c'|]; rewrite !bool_decide_eq_true.
  - rewrite elem_of_union, elem_of_singleton. split.
    + intros [E|H]; [left | by right]. apply cellKey_inj in E. by subst.
    + intros [[= ->]|H]; [by left | by right].
  - split; [by right | by intros [|]].
Qed.

Lemma has_addCells (l : list Cell) (s : gset string) (c : Cell) :
  has (addCells l s) c = true <-> In c l \/ has s c = true.
Proof.
  rewrite <- has_keySet. unfold has, addCells.
  rewrite !bool_decide_eq_true, elem_of_union. reflexivity.
Qed.

(** [ceilHypot] is the ceiling of the Euclidean norm. *)
Lemma ceilHypot_spec (dx dy : Z) :
  0 <= ceilHypot dx dy
  /\ dx * dx + dy * dy <= ceilHypot dx dy * ceilHypot dx dy
  /\ (0 < ceilHypot dx dy ->
      (ceilHypot dx dy - 1) * (ceilHypot dx dy - 1) < dx * dx + dy * dy).
Proof.
  unfold ceilHypot.
  assert (Hs : 0 <= dx * dx + dy * dy) by nia.
  pose proof (Z.sqrt_spec _ Hs) as Hq. cbv zeta in Hq. unfold Z.succ in Hq.
  pose proof (Z.sqrt_nonneg (dx * dx + dy * dy)) as Hq0.
  set (q := Z.sqrt (dx * dx + dy * dy)) in *.
  destruct (q * q =? dx * dx + dy * dy) eqn:E;
    [apply Z.eqb_eq in E | apply Z.eqb_neq in E].
  - split; [lia|]. split; [lia|]. intros Hpos. nia.
  - split; [lia|]. split; [nia|]. intros _.
    replace (q + 1 - 1) with q by lia. lia.
Qed.

Lemma ceilHypot_pos (dx dy : Z) :
  dx <> 0 \/ dy <> 0 -> 1 <= ceilHypot dx dy.
Proof.
  intros Hne. destruct (ceilHypot_spec dx dy) as (H0 & H1 & _).
  assert (0 < dx * dx + dy * dy) by nia. nia.
Qed.

Section Spawn.

Variable rnd : nat -> Q.
Variable canvasRef : option Canvas.

(** The spawn routine either leaves the power-up of the queue alone or
    sets one on a cell that is on no cell of the snake, with the [ttl]
    computed from the distance to [head]. *)
Lemma maybeSpawnPowerUp_run (st : State) (head : Cell) (s : list Cell)
    (c r : Z) (b : bool) (run run' : Run) :
  maybeSpawnPowerUp rnd st head s c r b run = (tt, run') ->
  powerUp (pending run') = powerUp (pending run)
  \/ exists pos,
       ~ In pos s
       /\ powerUp (pending run')
          = Some (mkPowerUp (x pos) (y pos)
                    (Z.max 1 (ceilHypot (x pos - x head) (y pos - y head) + 3))).
Proof.
  unfold maybeSpawnPowerUp.
  destruct b; [intros [= <-]; by left|].
  destruct (level st <? POWERUP_MIN_LEVEL); [intros [= <-]; by left|].
  destruct (bool_decide _); [intros [= <-]; by left|].
  destruct (revealTurns st >? 0); [intros [= <-]; by left|].
  destruct (snakeLength s <? 10); [intros [= <-]; by left|].
  unfold bind, random. simpl.
  destruct (negb _); [intros [= <-]; by left|].
  match goal with |- context [placeFreeCell rnd ?s ?c ?r0 ?r'] =>
    destruct (placeFreeCell_run rnd s c r0 r') as (o & k & -> & Ho) end.
  destruct o as [pos|]; [|intros [= <-]; by left].
  unfold_setters. simpl. intros [= <-]. right. exists pos. split; [|reflexivity].
  specialize (Ho pos eq_refl). intros Hin.
  assert (Hhas : has (addCells (hazards st) (addCell (fruit st) (keySet s))) pos
                 = true).
  { apply has_addCells. right. apply has_addCell. right. by apply has_keySet. }
  congruence.
Qed.

(** A power-up that appears in a step that started without one was
    spawned by that step. *)
Lemma turn_powerUp_absent (st : State) (d : Dir) (h : Cell)
    (tl : list Cell) (q : PowerUp) :
  terminal st = false -> rejected st d = false -> snake st = h :: tl ->
  lethal st (newHeadOf st h d) = false ->
  powerUp st = None ->
  powerUp (nextState (turn rnd canvasRef st d)) = Some q ->
  ~ In (puCell q) (snake (nextState (turn rnd canvasRef st d)))
  /\ ttl q = Z.max 1 (ceilHypot (pux q - x (newHeadOf st h d))
                                (puy q - y (newHeadOf st h d)) + 3).
Proof.
  intros Hterm Hrej Hs Hl Hp.
  destruct (turn_accepted rnd canvasRef st d h tl Hterm Hrej Hs Hl)
    as (newSnake & nf & picked & r1 & r2 & r3 & r4 & r5 & r6
        & E1 & E2 & E3 & E4 & E5 & E6 & ->).
  unfold nextState. simpl.
  rewrite (keeps_run powerUp _ _ _ _ (spawnHazard_keeps_powerUp rnd st _ _ _ _) E6).
  assert (H4 : powerUp (pending r4) = None).
  { rewrite (keeps_run powerUp _ _ _ _ (winCheck_keeps_powerUp st _ _) E4).
    rewrite (countdown_absent st r2 r3 Hp E3).
    revert E2. unfold pickUp. rewrite Hp. intros [= _ <-].
    rewrite (keeps_run powerUp _ _ _ _ (advance_keeps_powerUp rnd canvasRef st _) E1).
    exact Hp. }
  destruct (maybeSpawnPowerUp_run st _ _ _ _ _ _ _ E5) as [E|(pos & Hpos & E)];
    rewrite E; [rewrite H4; discriminate|].
  intros [= <-]. simpl. split; [|reflexivity].
  by destruct pos.
Qed.

End Spawn.

(** C9.  A power-up that spawns in a step (there was none before the step
    and there is one after it) lies at a distance [d > 0] from the head
    cell of the snake, and its initial [ttl] is [max (1, ceil d) + 3],
    where [c = ceil d] is given by [(c - 1)² < d² <= c²]. *)
Theorem C9_spawn_ttl (rnd : nat -> Q) (cv : option Canvas)
    (st : State) (d : Dir) (h : Cell) (tl : list Cell) (q : PowerUp) :
  terminal st = false ->
  rejected st d = false ->
  snake st = h :: tl ->
  lethal st (newHeadOf st h d) = false ->
  powerUp st = None ->
  powerUp (nextState (turn rnd cv st d)) = Some q ->
  exists (head : Cell) (rest : list Cell) (c : Z),
    snake (nextState (turn rnd cv st d)) = head :: rest
    /\ (c - 1) * (c - 1)
       < (pux q - x head) * (pux q - x head) + (puy q - y head) * (puy q - y head)
       <= c * c
    /\ 0 < c
    /\ ttl q = Z.max 1 c + 3.
Proof.
  intros Hterm Hrej Hs Hl Hp Hq.
  destruct (turn_powerUp_absent rnd cv st d h tl q Hterm Hrej Hs Hl Hp Hq)
    as [Hout Httl].
  set (n := newHeadOf st h d) in *.
  assert (Hsn : exists rest, snake (nextState (turn rnd cv st d)) = n :: rest).
  { rewrite (turn_snake rnd cv st d h tl Hterm Hrej Hs Hl). fold n.
    destruct (ateFruitAt st n); [by eexists|].
    rewrite Hs. change (removelast (n :: h :: tl)) with (n :: removelast (h :: tl)).
    by eexists. }
  destruct Hsn as [rest Hsn].
  exists n, rest, (ceilHypot (pux q - x n) (puy q - y n)).
  split; [exact Hsn|].
  assert (Hne : pux q - x n <> 0 \/ puy q - y n <> 0).
  { destruct (decide (pux q - x n = 0)) as [Ex|]; [|by left].
    destruct (decide (puy q - y n = 0)) as [Ey|]; [|by right].
    exfalso. apply Hout. rewrite Hsn. left.
    unfold puCell. destruct n as [nx ny]. simpl in *. f_equal; lia. }
  pose proof (ceilHypot_pos _ _ Hne) as Hpos.
  destruct (ceilHypot_spec (pux q - x n) (puy q - y n)) as (_ & Hle & Hlt).
  split; [split; [apply Hlt; lia | exact Hle]|].
  split; [lia|]. rewrite Httl. lia.
Qed.

Lemma C9_spawn_ttl_witness :
  exists (head : Cell) (rest : list Cell) (c : Z),
    snake (nextState (turn zeros None spawnBoard RIGHT)) = head :: rest
    /\ (c - 1) * (c - 1)
       < (2 - x head) * (2 - x head) + (0 - y head) * (0 - y head)
       <= c * c
    /\ 0 < c
    /\ 4 = Z.max 1 c + 3.
Proof.
  assert (H1 : terminal spawnBoard = false) by reflexivity.
  assert (H2 : rejected spawnBoard RIGHT = false) by reflexivity.
  assert (H3 : snake spawnBoard = mkCell 0 0 :: tl (snake spawnBoard))
    by reflexivity.
  assert (H4 : lethal spawnBoard (newHeadOf spawnBoard (mkCell 0 0) RIGHT)
               = false) by reflexivity.
  assert (H5 : powerUp spawnBoard = None) by reflexivity.
  assert (H6 : powerUp (nextState (turn zeros None spawnBoard RIGHT))
               = Some (mkPowerUp 2 0 4)) by (vm_compute; reflexivity).
  exact (C9_spawn_ttl zeros None spawnBoard RIGHT (mkCell 0 0)
           (tl (snake spawnBoard)) (mkPowerUp 2 0 4) H1 H2 H3 H4 H5 H6).
Defined.

(** ** A saturated board *)

Lemma boardCells_elem (c r : Z) (p : Cell) :
  p ∈ boardCells c r <-> 0 <= x p < c /\ 0 <= y p < r.
Proof.
  unfold boardCells. rewrite list_elem_of_bind. split.
  - intros (yy & Hp & Hy). apply list_elem_of_fmap in Hp as (xx & -> & Hx).
    apply elem_of_seqZ in Hx. apply elem_of_seqZ in Hy. simpl. lia.
  - intros [Hx Hy]. exists (y p). split.
    + apply list_elem_of_fmap. exists (x p). split; [by destruct p|].
      apply elem_of_seqZ. lia.
    + apply elem_of_seqZ. lia.
Qed.

Lemma boardCells_NoDup (c r : Z) : NoDup (boardCells c r).
Proof.
  unfold boardCells. apply NoDup_bind.
  - intros y1 y2 p _ _ H1 H2.
    apply list_elem_of_fmap in H1 as (x1 & -> & _).
    apply list_elem_of_fmap in H2 as (x2 & E & _). congruence.
  - intros yy _. apply NoDup_fmap_2; [|apply NoDup_seqZ].
    intros x1 x2 E. congruence.
  - apply NoDup_seqZ.
Qed.

Lemma boardCells_length (c r : Z) :
  length (boardCells c r) = (Z.to_nat r * Z.to_nat c)%nat.
Proof.
  unfold boardCells. rewrite <- (length_seqZ 0 r).
  induction (seqZ 0 r) as [|yy l IH]; [reflexivity|].
  csimpl. rewrite length_app, IH, length_fmap, length_seqZ. reflexivity.
Qed.

(** A set that has every cell of the board has at least [cols * rows]
    keys. *)
Lemma saturated_size (s : gset string) (c r : Z) :
  0 <= c -> 0 <= r ->
  (forall p, 0 <= x p < c /\ 0 <= y p < r -> has s p = true) ->
  c * r <= Z.of_nat (size s).
Proof.
  intros Hc Hr Hall.
  assert (Hsub : keySet (boardCells c r) ⊆ s).
  { intros k Hk. unfold keySet in Hk. apply elem_of_list_to_set in Hk.
    apply list_elem_of_fmap in Hk as (p & -> & Hp).
    apply boardCells_elem in Hp. specialize (Hall p Hp).
    unfold has in Hall. by apply bool_decide_eq_true in Hall. }
  apply subseteq_size in Hsub.
  unfold keySet in Hsub. rewrite size_list_to_set in Hsub.
  - rewrite length_fmap, boardCells_length in Hsub. nia.
  - apply NoDup_fmap_2; [|apply boardCells_NoDup].
    intros a b. apply cellKey_inj.
Qed.

(** ** The effect log only grows *)

Section Log.

Lemma extends_ret {A : Type} (a : A) : extends (ret a).
Proof. intros r. exists []. simpl. by rewrite app_nil_r. Qed.

Lemma extends_bind {A C : Type} (m : M A) (k : A -> M C) :
  extends m -> (forall a, extends (k a)) -> extends (bind m k).
Proof.
  intros Hm Hk r. unfold bind. destruct (Hm r) as [l1 E1].
  destruct (m r) as [a r']. simpl in E1.
  destruct (Hk a r') as [l2 E2]. exists (l1 ++ l2).
  by rewrite E2, E1, app_assoc.
Qed.

Lemma extends_emit (e : Effect) : extends (emit e).
Proof. intros r. by exists [e]. Qed.

Lemma extends_update (g : State -> State) : extends (update g).
Proof. intros r. exists []. simpl. by rewrite app_nil_r. Qed.

Lemma extends_when (b : bool) (m : M unit) : extends m -> extends (when b m).
Proof. intros Hm. destruct b; [done | apply extends_ret]. Qed.

Lemma extends_random (rnd : nat -> Q) : extends (random rnd).
Proof. intros r. exists []. simpl. by rewrite app_nil_r. Qed.

Lemma extends_placeFreeCell rnd s c r0 : extends (placeFreeCell rnd s c r0).
Proof.
  intros r. destruct (placeFreeCell_run rnd s c r0 r) as (o & k & -> & _).
  exists []. simpl. by rewrite app_nil_r.
Qed.

Lemma extends_scaledBurst rnd cv cur p col i :
  extends (scaledBurst rnd cv cur p col i).
Proof.
  intros r.
  destruct (scaledBurst_run rnd cv cur p col i r) as (l & k & -> & _).
  by exists l.
Qed.

Lemma extends_run {A : Type} (m : M A) (r r' : Run) (a : A) (e : Effect) :
  extends m -> m r = (a, r') -> In e (fx r) -> In e (fx r').
Proof.
  intros Hm E Hin. destruct (Hm r) as [l El]. rewrite E in El. simpl in El.
  rewrite El. apply in_or_app. by left.
Qed.

End Log.

Ltac grows_step :=
  first
    [ apply extends_ret
    | apply extends_emit
    | apply extends_random
    | apply extends_placeFreeCell
    | apply extends_scaledBurst
    | apply extends_update
    | apply extends_when
    | apply extends_bind; [|intros ?]
    | match goal with
      | |- extends (if ?b then _ else _) => destruct b
      | |- extends (match ?o with _ => _ end) => destruct o
      end ].

Ltac grows := repeat grows_step.

Section BlockLogs.

Variable rnd : nat -> Q.
Variable canvasRef : option Canvas.
Variable cur : State.

Lemma triggerWin_extends : extends (triggerWin cur).
Proof. unfold triggerWin. unfold_setters. grows. Qed.

Lemma pickUp_extends n s : extends (pickUp cur n s).
Proof. unfold pickUp. unfold_setters. grows. Qed.

Lemma countdown_extends : extends (countdown cur).
Proof. unfold countdown. unfold_setters. grows. Qed.

Lemma winCheck_extends s o : extends (winCheck cur s o).
Proof. unfold winCheck. grows. apply triggerWin_extends. Qed.

Lemma spawnPowerUp_extends h s c r b :
  extends (maybeSpawnPowerUp rnd cur h s c r b).
Proof. unfold maybeSpawnPowerUp. unfold_setters. grows. Qed.

Lemma spawnHazard_extends h s c r :
  extends (maybeSpawnHazard rnd cur h s c r).
Proof. unfold maybeSpawnHazard. unfold_setters. grows. Qed.

(** Once the queue holds a win, the win check leaves it there. *)
Lemma winCheck_won (s : list Cell) (o : option Cell) (r r' : Run) :
  won (pending r) = true -> winCheck cur s o r = (tt, r') ->
  won (pending r') = true.
Proof.
  intros Hw. unfold winCheck, when, triggerWin.
  destruct (_ <? _); [|by intros [= <-]].
  destruct (won cur); [by intros [= <-]|].
  unfold bind, emit. unfold_setters. simpl. by intros [= <-].
Qed.

End BlockLogs.

(** ** Eating the last fruit *)

Section Exhaustion.

Variable rnd : nat -> Q.
Variable canvasRef : option Canvas.

(** The set [occF] of [doStep]. *)
Lemma has_occF (st : State) (s : list Cell) (c : Cell) :
  has (addCells (hazards st) (addCell (puCell <$> powerUp st) (keySet s))) c
    = true
  <-> In c s \/ In c (hazards st) \/ puCell <$> powerUp st = Some c.
Proof. rewrite has_addCells, has_addCell, has_keySet. tauto. Qed.

(** Eating the fruit when the grown snake, the hazards and the power-up
    cover the board: no cell is drawn, [nextFruitPos] is [null], the
    stored fruit is not touched and the win is triggered. *)
Lemma advance_exhausted (st : State) (n : Cell) (r : Run) :
  ateFruitAt st n = true -> won st = false ->
  0 <= cols st -> 0 <= rows st ->
  (forall c, inBoard st c ->
     In c (n :: snake st) \/ In c (hazards st)
     \/ puCell <$> powerUp st = Some c) ->
  exists r1,
    advance rnd canvasRef st n r = ((n :: snake st, None), r1)
    /\ won (pending r1) = true
    /\ fruit (pending r1) = fruit (pending r)
    /\ In PlayWin (fx r1).
Proof.
  intros Ha Hw Hc Hr Hfull. unfold advance, fruitEaten. rewrite Ha. simpl.
  unfold bind at 1. unfold bind at 1. unfold bind at 1. unfold emit at 1.
  rewrite placeFreeCell_full.
  2:{ apply saturated_size; [done|done|]. intros c Hin.
      apply has_occF. by apply Hfull. }
  unfold triggerWin. rewrite Hw. unfold bind, emit, ret. unfold_setters. simpl.
  match goal with |- context [scaledBurst _ _ _ ?c ?s ?i ?r'] =>
    destruct (scaledBurst_run rnd canvasRef st c s i r') as (l & k & -> & _) end.
  eexists. split; [reflexivity|]. simpl. split; [reflexivity|].
  split; [reflexivity|].
  apply in_or_app. left. apply in_or_app. left. apply in_or_app. right.
  by left.
Qed.

End Exhaustion.

(** C4, as amended.  When the fruit is eaten and the grown snake, the
    hazards and the power-up leave no cell of the board free, the step
    returns normally, no new fruit is placed (the stored fruit keeps the
    eaten cell, now under the head of the snake), the win is triggered
    and the score goes up by one. *)
Theorem C4_fruit_exhaustion_wins (rnd : nat -> Q) (cv : option Canvas)
    (st : State) (d : Dir) (h : Cell) (tl : list Cell) :
  terminal st = false ->
  rejected st d = false ->
  snake st = h :: tl ->
  lethal st (newHeadOf st h d) = false ->
  0 <= cols st -> 0 <= rows st ->
  fruit st = Some (newHeadOf st h d) ->
  (forall c, inBoard st c ->
     In c (newHeadOf st h d :: snake st) \/ In c (hazards st)
     \/ puCell <$> powerUp st = Some c) ->
  fst (turn rnd cv st d) = Returns
  /\ fruit (nextState (turn rnd cv st d)) = Some (newHeadOf st h d)
  /\ snake (nextState (turn rnd cv st d)) = newHeadOf st h d :: snake st
  /\ won (nextState (turn rnd cv st d)) = true
  /\ In PlayWin (effects (turn rnd cv st d))
  /\ score (nextState (turn rnd cv st d)) = score st + 1.
Proof.
  intros Hterm Hrej Hs Hl Hc Hr Hf Hfull.
  assert (Ha : ateFruitAt st (newHeadOf st h d) = true)
    by (by apply ateFruitAt_iff).
  assert (Hw : won st = false).
  { unfold terminal in Hterm. by apply orb_false_iff in Hterm as [_ ->]. }
  pose proof (turn_score rnd cv st d h tl Hterm Hrej Hs Hl) as Hsc.
  rewrite Ha in Hsc.
  destruct (turn_accepted rnd cv st d h tl Hterm Hrej Hs Hl)
    as (newSnake & nf & picked & r1 & r2 & r3 & r4 & r5 & r6
        & E1 & E2 & E3 & E4 & E5 & E6 & Et).
  rewrite Et in Hsc. rewrite Et. unfold nextState, effects in *.
  cbn [fst snd pending fx moved snake fruit won score] in Hsc |- *.
  destruct (advance_exhausted rnd cv st _ (mkRun st [] 0%nat) Ha Hw Hc Hr Hfull)
    as (r1' & E1' & Hw1 & Hf1 & Hp1).
  rewrite E1 in E1'. injection E1' as -> -> <-.
  split; [reflexivity|]. split; [|split; [reflexivity|]].
  - rewrite (keeps_run fruit _ _ _ _ (spawnHazard_keeps_fruit rnd st _ _ _ _) E6).
    rewrite (keeps_run fruit _ _ _ _ (spawnPowerUp_keeps_fruit rnd st _ _ _ _ _) E5).
    rewrite (keeps_run fruit _ _ _ _ (winCheck_keeps_fruit st _ _) E4).
    rewrite (keeps_run fruit _ _ _ _ (countdown_keeps_fruit st) E3).
    rewrite (keeps_run fruit _ _ _ _ (pickUp_keeps_fruit st _ _) E2).
    rewrite Hf1. exact Hf.
  - split; [|split; [|exact Hsc]].
    + rewrite (keeps_run won _ _ _ _ (spawnHazard_keeps_won rnd st _ _ _ _) E6).
      rewrite (keeps_run won _ _ _ _ (spawnPowerUp_keeps_won rnd st _ _ _ _ _) E5).
      refine (winCheck_won st _ _ r3 r4 _ E4).
      rewrite (keeps_run won _ _ _ _ (countdown_keeps_won st) E3).
      rewrite (keeps_run won _ _ _ _ (pickUp_keeps_won st _ _) E2).
      exact Hw1.
    + apply (extends_run _ _ _ _ _ (spawnHazard_extends rnd st _ _ _ _) E6).
      apply (extends_run _ _ _ _ _ (spawnPowerUp_extends rnd st _ _ _ _ _) E5).
      apply (extends_run _ _ _ _ _ (winCheck_extends st _ _) E4).
      apply (extends_run _ _ _ _ _ (countdown_extends st) E3).
      apply (extends_run _ _ _ _ _ (pickUp_extends st _ _) E2).
      exact Hp1.
Qed.

Lemma lastFruit_saturated (c : Cell) :
  inBoard lastFruit c ->
  In c (newHeadOf lastFruit (mkCell 0 1) RIGHT :: snake lastFruit)
  \/ In c (hazards lastFruit)
  \/ puCell <$> powerUp lastFruit = Some c.
Proof.
  destruct c as [cx cy]. unfold inBoard. simpl. intros [Hx Hy]. left.
  assert (Ex : cx = 0 \/ cx = 1 \/ cx = 2) by lia.
  assert (Ey : cy = 0 \/ cy = 1 \/ cy = 2) by lia.
  destruct Ex as [-> | [-> | ->]], Ey as [-> | [-> | ->]]; tauto.
Defined.

Lemma C4_fruit_exhaustion_wins_witness :
  fruit (nextState (turn zeros None lastFruit RIGHT)) = Some (mkCell 1 1)
  /\ won (nextState (turn zeros None lastFruit RIGHT)) = true
  /\ score (nextState (turn zeros None lastFruit RIGHT)) = 8.
Proof.
  assert (H1 : terminal lastFruit = false) by reflexivity.
  assert (H2 : rejected lastFruit RIGHT = false) by reflexivity.
  assert (H3 : snake lastFruit = mkCell 0 1 :: tl (snake lastFruit))
    by reflexivity.
  assert (H4 : lethal lastFruit (newHeadOf lastFruit (mkCell 0 1) RIGHT)
               = false) by reflexivity.
  assert (H5 : 0 <= cols lastFruit) by (simpl; lia).
  assert (H6 : 0 <= rows lastFruit) by (simpl; lia).
  assert (H7 : fruit lastFruit
               = Some (newHeadOf lastFruit (mkCell 0 1) RIGHT)) by reflexivity.
  destruct (C4_fruit_exhaustion_wins zeros None lastFruit RIGHT (mkCell 0 1)
              (tl (snake lastFruit)) H1 H2 H3 H4 H5 H6 H7 lastFruit_saturated)
    as (_ & Hf & _ & Hw & _ & Hsc).
  split; [exact Hf|]. split; [exact Hw | exact Hsc].
Defined.

(** C4 as stated fails on the fruit: on [lastFruit] the fruit is eaten
    and no cell is left for a new one, yet the fruit of the resulting
    state is not absent. *)
Lemma C4_counterexample :
  fruit lastFruit = Some (newHeadOf lastFruit (mkCell 0 1) RIGHT)
  /\ (forall c, inBoard lastFruit c ->
        In c (newHeadOf lastFruit (mkCell 0 1) RIGHT :: snake lastFruit))
  /\ fruit (nextState (turn zeros None lastFruit RIGHT)) <> None.
Proof.
  split; [reflexivity|]. split.
  - intros c Hc. destruct (lastFruit_saturated c Hc) as [H|[[]|H]];
      [exact H | discriminate H].
  - assert (E : fruit (nextState (turn zeros None lastFruit RIGHT))
                = Some (mkCell 1 1)) by (vm_compute; reflexivity).
    rewrite E. discriminate.
Qed.

(** C6 (the code departs from it).  On [lastFruit] the fruit is eaten with
    no cell left for a new one: the win is triggered by the fruit block,
    and triggered a second time by the win check of the same turn, whose
    guard reads the mirror of the last render.  The win cue and the
    overlay timer are emitted twice, with or without a canvas. *)
Theorem C6_win_triggered_twice (rnd : nat -> Q) :
  effects (turn rnd None lastFruit RIGHT)
  = [PlayFruit; PlayWin; OverlayTimer 1000 true;
     PlayWin; OverlayTimer 1000 true]
  /\ effects (turn rnd (Some (mkCanvas 600 600)) lastFruit RIGHT)
  = [PlayFruit; PlayWin; OverlayTimer 1000 true;
     Burst (mkCell 1 1) "#22c55e" 64;
     PlayWin; OverlayTimer 1000 true]
  /\ won (nextState (turn rnd None lastFruit RIGHT)) = true.
Proof. split; [|split]; vm_compute; reflexivity. Qed.

(** ** The win check against the cells that are occupied after the move *)

Section WinCheck.

Local Set Warnings "-clear-no-such-hyp".

Variable rnd : nat -> Q.
Variable canvasRef : option Canvas.

Lemma fruitEaten_fruit (st : State) (n : Cell) (s : list Cell)
    (r r1 : Run) (nf : option Cell) :
  fruitEaten rnd canvasRef st n s r = (nf, r1) ->
  fruit (pending r1) = nf \/ (nf = None /\ fruit (pending r1) = fruit (pending r)).
Proof.
  unfold fruitEaten, bind, emit. simpl.
  match goal with |- context [placeFreeCell rnd ?s ?c ?r0 ?r'] =>
    destruct (placeFreeCell_run rnd s c r0 r') as (o & k & -> & _) end.
  destruct o as [c|].
  - unfold_setters. simpl.
    match goal with |- context [scaledBurst _ _ _ ?c ?s ?i ?r'] =>
      destruct (scaledBurst_run rnd canvasRef st c s i r') as (l & k' & -> & _)
    end.
    intros [= <- <-]. by left.
  - match goal with |- context [triggerWin st ?r'] =>
      pose proof (triggerWin_keeps_fruit st r') as Hk;
      destruct (triggerWin st r') as [[] r''] end.
    simpl in Hk. unfold_setters. simpl.
    match goal with |- context [scaledBurst _ _ _ ?c ?s ?i ?r'] =>
      destruct (scaledBurst_run rnd canvasRef st c s i r') as (l & k' & -> & _)
    end.
    intros [= <- <-]. right. split; [reflexivity|]. simpl. exact Hk.
Qed.

(** When the win check finds fewer empty cells than the threshold in a
    state that has not been won, it triggers the win. *)
Lemma winCheck_triggers (st : State) (s : list Cell) (o : option Cell)
    (r r' : Run) :
  won st = false ->
  cols st * rows st - Z.of_nat (size (winOcc st s o))
    < winThreshold (cols st * rows st) ->
  winCheck st s o r = (tt, r') ->
  won (pending r') = true /\ In PlayWin (fx r').
Proof.
  intros Hw Hlt. unfold winCheck, when.
  apply Z.ltb_lt in Hlt. rewrite Hlt.
  unfold triggerWin. rewrite Hw. unfold bind, emit. unfold_setters. simpl.
  intros [= <-]. simpl. split; [reflexivity|].
  apply in_or_app. left. apply in_or_app. right. by left.
Qed.

(** The first half of C6: in an accepted step, if the cells left empty
    by the snake after the move, the hazards, the fruit and the power-up
    that survives the step are fewer than [ceil (0.15 * cols * rows)],
    the step wins. *)
Lemma turn_wins_below_threshold (st : State) (d : Dir) (h : Cell)
    (tl : list Cell) :
  terminal st = false -> rejected st d = false -> snake st = h :: tl ->
  lethal st (newHeadOf st h d) = false ->
  cols st * rows st
    - Z.of_nat (size (occupiedKeys (snake (nextState (turn rnd canvasRef st d)))
                        (hazards st)
                        (fruit (nextState (turn rnd canvasRef st d)))
                        (powerUpAfterMove st)))
    < winThreshold (cols st * rows st) ->
  won (nextState (turn rnd canvasRef st d)) = true
  /\ In PlayWin (effects (turn rnd canvasRef st d)).
Proof.
  intros Hterm Hrej Hs Hl.
  assert (Hw : won st = false).
  { unfold terminal in Hterm. by apply orb_false_iff in Hterm as [_ ->]. }
  destruct (turn_accepted rnd canvasRef st d h tl Hterm Hrej Hs Hl)
    as (newSnake & nf & picked & r1 & r2 & r3 & r4 & r5 & r6
        & E1 & E2 & E3 & E4 & E5 & E6 & ->).
  unfold nextState, effects.
  cbn [fst snd pending fx moved snake fruit won].
  rewrite (keeps_run fruit _ _ _ _ (spawnHazard_keeps_fruit rnd st _ _ _ _) E6).
  rewrite (keeps_run fruit _ _ _ _ (spawnPowerUp_keeps_fruit rnd st _ _ _ _ _) E5).
  rewrite (keeps_run fruit _ _ _ _ (winCheck_keeps_fruit st _ _) E4).
  rewrite (keeps_run fruit _ _ _ _ (countdown_keeps_fruit st) E3).
  rewrite (keeps_run fruit _ _ _ _ (pickUp_keeps_fruit st _ _) E2).
  intros Hlt.
  assert (Hsub : occupiedKeys newSnake (hazards st) (fruit (pending r1))
                   (powerUpAfterMove st) ⊆ winOcc st newSnake nf).
  { assert (Hpu : addCell (puCell <$> powerUpAfterMove st) ∅
                  ⊆ addCell (puCell <$> powerUp st) ∅).
    { unfold powerUpAfterMove, countedDown.
      destruct (powerUp st) as [p|]; [|done]. simpl.
      destruct (ttl p - 1 <=? 0); simpl; unfold addCell, puCell; simpl;
        set_solver. }
    assert (Hfr : addCell (fruit (pending r1)) ∅
                  ⊆ addCell nf ∅ ∪ keySet newSnake).
    { revert E1. unfold advance.
      destruct (ateFruitAt st (newHeadOf st h d)) eqn:Ha; simpl.
      - unfold bind at 1.
        destruct (fruitEaten rnd canvasRef st (newHeadOf st h d)
                    (newHeadOf st h d :: snake st) (mkRun st [] 0%nat))
          as [nf' r1'] eqn:Ef.
        intros [= <- <- <-].
        destruct (fruitEaten_fruit st _ _ _ _ _ Ef) as [->|[-> ->]];
          [set_solver|].
        apply ateFruitAt_iff in Ha. simpl. rewrite Ha.
        unfold addCell, keySet. rewrite fmap_cons, list_to_set_cons.
        set_solver.
      - intros [= <- <- <-]. simpl. set_solver. }
    unfold occupiedKeys, winOcc.
    unfold addCell at 1 2 in Hpu. unfold addCell at 1 2 in Hfr.
    unfold addCells, addCell in *.
    destruct (puCell <$> powerUpAfterMove st), (puCell <$> powerUp st),
      (fruit (pending r1)), nf; set_solver. }
  apply subseteq_size in Hsub.
  destruct (winCheck_triggers st newSnake nf r3 r4 Hw ltac:(lia) E4)
    as [Hw4 Hp4].
  split.
  - rewrite (keeps_run won _ _ _ _ (spawnHazard_keeps_won rnd st _ _ _ _) E6).
    rewrite (keeps_run won _ _ _ _ (spawnPowerUp_keeps_won rnd st _ _ _ _ _) E5).
    exact Hw4.
  - apply (extends_run _ _ _ _ _ (spawnHazard_extends rnd st _ _ _ _) E6).
    apply (extends_run _ _ _ _ _ (spawnPowerUp_extends rnd st _ _ _ _ _) E5).
    exact Hp4.
Qed.

End WinCheck.

(** * Further properties of the code *)

(** ** [placeFreeCell] *)

Lemma find_free_board (s : gset string) (c r : Z) :
  0 <= c -> 0 <= r -> Z.of_nat (size s) < c * r ->
  exists p, find (fun p => negb (has s p)) (boardCells c r) = Some p.
Proof.
  intros Hc Hr Hlt.
  destruct (find (fun p => negb (has s p)) (boardCells c r)) as [p|] eqn:E;
    [by exists p|].
  exfalso. assert (c * r <= Z.of_nat (size s)); [|lia].
  apply saturated_size; [done|done|]. intros p Hp.
  apply boardCells_elem, list_elem_of_In in Hp.
  apply (find_none _ _ E) in Hp. by apply negb_false_iff in Hp.
Qed.

(** On a board with room left, [placeFreeCell] finds a cell. *)
Lemma placeFreeCell_finds (rnd : nat -> Q) (s : gset string) (c r : Z)
    (run : Run) :
  0 <= c -> 0 <= r -> Z.of_nat (size s) < c * r ->
  exists p, fst (placeFreeCell rnd s c r run) = Some p.
Proof.
  intros Hc Hr Hlt. unfold placeFreeCell.
  destruct (Z.of_nat (size s) >=? c * r) eqn:E.
  { rewrite Z.geb_leb in E. apply Z.leb_le in E. lia. }
  unfold bind.
  destruct (sampleFree_run rnd s c r 128 run) as ([p|] & k & -> & _);
    [by exists p|].
  destruct (find_free_board s c r Hc Hr Hlt) as [p ->]. by exists p.
Qed.

(** X1.  On a board with non-negative sides, [placeFreeCell] returns
    [null] exactly when the excluded set holds at least [cols * rows]
    keys, whatever the random draws. *)
Theorem X1_placeFreeCell_null_iff_saturated (rnd : nat -> Q)
    (s : gset string) (c r : Z) (run : Run) :
  0 <= c -> 0 <= r ->
  fst (placeFreeCell rnd s c r run) = None <-> c * r <= Z.of_nat (size s).
Proof.
  intros Hc Hr. split.
  - intros Hnone.
    destruct (Z_le_gt_dec (c * r) (Z.of_nat (size s))) as [|Hgt]; [done|].
    destruct (placeFreeCell_finds rnd s c r run Hc Hr ltac:(lia)) as [p Hp].
    congruence.
  - intros Hfull. by rewrite placeFreeCell_full.
Qed.

Lemma X1_placeFreeCell_null_iff_saturated_witness :
  fst (placeFreeCell zeros (keySet (boardCells 2 2)) 2 2 (mkRun twoCells [] 0%nat))
    = None.
Proof.
  apply (X1_placeFreeCell_null_iff_saturated zeros (keySet (boardCells 2 2)) 2 2
           (mkRun twoCells [] 0%nat)); [lia | lia |].
  vm_compute. discriminate.
Defined.

Lemma floor_draw_range (q : Q) (c : Z) :
  (0 <= q)%Q -> (q < 1)%Q -> 0 < c -> 0 <= Qfloor (q * inject_Z c) < c.
Proof.
  intros H0 H1 Hc.
  assert (Hc' : (inject_Z 0 < inject_Z c)%Q) by (rewrite <- Zlt_Qlt; exact Hc).
  change (inject_Z 0) with 0%Q in Hc'.
  split.
  - change 0 with (Qfloor 0). apply Qfloor_resp_le.
    apply Qmult_le_0_compat; [exact H0 | by apply Qlt_le_weak].
  - rewrite Zlt_Qlt.
    eapply Qle_lt_trans; [apply Qfloor_le|].
    apply Qlt_le_trans with (1 * inject_Z c)%Q;
      [by apply Qmult_lt_compat_r | rewrite Qmult_1_l; apply Qle_refl].
Qed.

Lemma sampleFree_spec (rnd : nat -> Q) (s : gset string) (c r : Z) (n : nat)
    (run : Run) :
  exists o k,
    sampleFree rnd s c r n run
      = (o, mkRun (pending run) (fx run) (drawn run + k))
    /\ (k <= 2 * n)%nat
    /\ forall p, o = Some p ->
         has s p = false
         /\ (tapeInRange rnd -> 0 < c -> 0 < r ->
             0 <= x p < c /\ 0 <= y p < r).
Proof.
  revert run. induction n as [|n IH]; intros run; simpl.
  - exists None, 0%nat. rewrite Nat.add_0_r. destruct run.
    split; [reflexivity|]. split; [lia | discriminate].
  - unfold bind, random, ret; simpl.
    match goal with |- context [has s ?p] => destruct (has s p) eqn:Hhas end.
    + destruct (IH (mkRun (pending run) (fx run) (S (S (drawn run)))))
        as (o & k & -> & Hk & Ho).
      exists o, (2 + k)%nat. simpl.
      split; [f_equal; f_equal; lia|]. split; [lia | exact Ho].
    + eexists _, 2%nat. split; [f_equal; f_equal; lia|]. split; [lia|].
      intros p [= <-]. split; [exact Hhas|]. intros Ht Hc Hr. simpl.
      destruct (Ht (drawn run)), (Ht (S (drawn run))).
      split; by apply floor_draw_range.
Qed.

(** X2.  [placeFreeCell] writes no state and emits nothing, makes at most
    256 random draws, and a cell it returns is never in the excluded set,
    whatever the random draws and the board. *)
Theorem X2_placeFreeCell_returns_free (rnd : nat -> Q) (s : gset string)
    (c r : Z) (run : Run) :
  pending (snd (placeFreeCell rnd s c r run)) = pending run
  /\ fx (snd (placeFreeCell rnd s c r run)) = fx run
  /\ (drawn run <= drawn (snd (placeFreeCell rnd s c r run))
      <= drawn run + 256)%nat
  /\ forall p, fst (placeFreeCell rnd s c r run) = Some p -> cellKey p ∉ s.
Proof.
  unfold placeFreeCell.
  destruct (Z.of_nat (size s) >=? c * r).
  - simpl. repeat split; try lia. discriminate.
  - unfold bind.
    destruct (sampleFree_spec rnd s c r 128 run) as (o & k & -> & Hk & Ho).
    assert (Hfree : forall p, o = Some p -> cellKey p ∉ s).
    { intros p Hp. destruct (Ho p Hp) as [Hhas _].
      unfold has in Hhas. by apply bool_decide_eq_false in Hhas. }
    destruct o as [q|]; simpl; repeat split; try lia; try done.
    intros p Hp. apply find_some in Hp as [_ Hp].
    apply negb_true_iff in Hp. unfold has in Hp.
    by apply bool_decide_eq_false in Hp.
Qed.

(** With draws in [[0, 1)], [placeFreeCell] stays on the board. *)
Lemma placeFreeCell_in_board (rnd : nat -> Q) (s : gset string)
    (c r : Z) (run : Run) (p : Cell) :
  tapeInRange rnd -> 0 < c -> 0 < r ->
  fst (placeFreeCell rnd s c r run) = Some p ->
  0 <= x p < c /\ 0 <= y p < r.
Proof.
  intros Ht Hc Hr. unfold placeFreeCell.
  destruct (Z.of_nat (size s) >=? c * r); [discriminate|].
  unfold bind.
  destruct (sampleFree_spec rnd s c r 128 run) as (o & k & -> & Hk & Ho).
  destruct o as [q|]; simpl.
  - intros [= <-]. by apply (Ho q eq_refl).
  - intros Hp. apply find_some in Hp as [Hp _].
    by apply list_elem_of_In, boardCells_elem in Hp.
Qed.




(** ** Invariants of a turn *)

Ltac unfold_blocks :=
  unfold advance, fruitEaten, pickUp, countdown, winCheck, triggerWin,
    maybeSpawnPowerUp, maybeSpawnHazard, loseLifeAt.

Section Invariants.

Variable rnd : nat -> Q.
Variable canvasRef : option Canvas.

(** The four ways a call of [doStep] can go. *)
Lemma turn_cases (st : State) (d : Dir) :
  ((terminal st = true \/ rejected st d = true)
   /\ turn rnd canvasRef st d = (Returns, mkRun st [] 0%nat))
  \/ (terminal st = false /\ rejected st d = false /\ snake st = []
      /\ turn rnd canvasRef st d = (Throws, mkRun st [] 0%nat))
  \/ (exists h tl, terminal st = false /\ rejected st d = false
        /\ snake st = h :: tl /\ lethal st (newHeadOf st h d) = true)
  \/ (exists h tl, terminal st = false /\ rejected st d = false
        /\ snake st = h :: tl /\ lethal st (newHeadOf st h d) = false).
Proof.
  destruct (terminal st) eqn:Ht.
  { left. split; [by left|]. unfold turn, doStep. unfold terminal in Ht.
    by rewrite Ht. }
  destruct (rejected st d) eqn:Hr.
  { left. split; [by right|]. unfold turn, doStep.
    unfold terminal in Ht. unfold rejected in Hr. by rewrite Ht, Hr. }
  destruct (snake st) as [|h tl] eqn:Hs.
  { right. left. repeat split. unfold turn, doStep.
    unfold terminal in Ht. unfold rejected in Hr. rewrite Hs in Hr.
    by rewrite Ht, Hs, Hr. }
  right. right.
  destruct (lethal st (newHeadOf st h d)) eqn:Hl; [left | right];
    by exists h, tl.
Qed.

Lemma doStep_keeps_level (st : State) (d : Dir) :
  keeps level (doStep rnd canvasRef st d).
Proof. unfold doStep. unfold_blocks. unfold_setters. frame. Qed.

Lemma doStep_keeps_cols (st : State) (d : Dir) :
  keeps cols (doStep rnd canvasRef st d).
Proof. unfold doStep. unfold_blocks. unfold_setters. frame. Qed.

Lemma doStep_keeps_rows (st : State) (d : Dir) :
  keeps rows (doStep rnd canvasRef st d).
Proof. unfold doStep. unfold_blocks. unfold_setters. frame. Qed.

End Invariants.

(** X4.  A turn never changes the level or the sides of the board,
    whatever the request, the state and the random draws. *)
Theorem X4_turn_keeps_board (rnd : nat -> Q) (cv : option Canvas)
    (st : State) (d : Dir) :
  level (nextState (turn rnd cv st d)) = level st
  /\ cols (nextState (turn rnd cv st d)) = cols st
  /\ rows (nextState (turn rnd cv st d)) = rows st.
Proof.
  unfold nextState, turn. split; [|split].
  - apply (doStep_keeps_level rnd cv st d (mkRun st [] 0%nat)).
  - apply (doStep_keeps_cols rnd cv st d (mkRun st [] 0%nat)).
  - apply (doStep_keeps_rows rnd cv st d (mkRun st [] 0%nat)).
Qed.

Lemma wrapCoord_range (v m : Z) : 0 < m -> 0 <= wrapCoord v m < m.
Proof.
  intros Hm. unfold wrapCoord.
  destruct (v <? 0) eqn:E1; [lia|]. apply Z.ltb_ge in E1.
  destruct (v >=? m) eqn:E2; [lia|].
  rewrite Z.geb_leb in E2. apply Z.leb_gt in E2. lia.
Qed.

(** X5.  For a positive bound, [wrapCoord] lands in [[0, max)] for every
    integer, is the identity on [[0, max)], sends every negative value to
    [max - 1] and every value from [max] on to [0], and is idempotent. *)
Theorem X5_wrapCoord_total (v m : Z) :
  0 < m ->
  0 <= wrapCoord v m < m
  /\ (0 <= v < m -> wrapCoord v m = v)
  /\ (v < 0 -> wrapCoord v m = m - 1)
  /\ (m <= v -> wrapCoord v m = 0)
  /\ wrapCoord (wrapCoord v m) m = wrapCoord v m.
Proof.
  intros Hm. pose proof (wrapCoord_range v m Hm) as Hr.
  assert (Hid : forall w, 0 <= w < m -> wrapCoord w m = w).
  { intros w Hw. unfold wrapCoord.
    destruct (w <? 0) eqn:E1; [apply Z.ltb_lt in E1; lia|].
    destruct (w >=? m) eqn:E2; [|reflexivity].
    rewrite Z.geb_leb in E2. apply Z.leb_le in E2. lia. }
  split; [exact Hr|]. split; [apply Hid|]. split; [|split].
  - intros Hv. unfold wrapCoord. apply Z.ltb_lt in Hv. by rewrite Hv.
  - intros Hv. unfold wrapCoord.
    destruct (v <? 0) eqn:E1; [apply Z.ltb_lt in E1; lia|].
    destruct (v >=? m) eqn:E2; [reflexivity|].
    rewrite Z.geb_leb in E2. apply Z.leb_gt in E2. lia.
  - by apply Hid.
Qed.

Lemma X5_wrapCoord_total_witness :
  wrapCoord (-7) 5 = 5 - 1 /\ wrapCoord 12 5 = 0.
Proof.
  split.
  - apply (X5_wrapCoord_total (-7) 5); lia.
  - apply (X5_wrapCoord_total 12 5); lia.
Defined.

(** ** The snake stays a simple connected path on the board *)

Lemma removelast_In {A : Type} (a : A) (l : list A) :
  In a (removelast l) -> In a l.
Proof.
  induction l as [|b l IH]; [done|]. destruct l as [|c l]; [done|].
  change (removelast (b :: c :: l)) with (b :: removelast (c :: l)).
  intros [->|H]; [by left | right; by apply IH].
Qed.

Lemma removelast_NoDup {A : Type} (l : list A) :
  NoDup l -> NoDup (removelast l).
Proof.
  induction l as [|b l IH]; [done|]. destruct l as [|c l]; [constructor|].
  change (removelast (b :: c :: l)) with (b :: removelast (c :: l)).
  intros H. apply NoDup_cons in H as [Hb Hl]. apply NoDup_cons. split.
  - intros Hin. apply Hb. apply list_elem_of_In. apply removelast_In.
    by apply list_elem_of_In.
  - by apply IH.
Qed.

Lemma removelast_Forall {A : Type} (P : A -> Prop) (l : list A) :
  Forall P l -> Forall P (removelast l).
Proof.
  intros H. apply Forall_forall. intros a Ha.
  apply list_elem_of_In, removelast_In, list_elem_of_In in Ha.
  by apply (proj1 (Forall_forall P l) H).
Qed.

Lemma removelast_chained (st : State) (l : list Cell) :
  chained st l -> chained st (removelast l).
Proof.
  induction l as [|a l IH]; [done|]. destruct l as [|b l]; [done|].
  change (removelast (a :: b :: l)) with (a :: removelast (b :: l)).
  intros [Hd Hl]. specialize (IH Hl).
  destruct l as [|c l]; [done|].
  change (removelast (b :: c :: l)) with (b :: removelast (c :: l)) in *.
  by split.
Qed.

Lemma chained_ext (a b : State) (l : list Cell) :
  cols a = cols b -> rows a = rows b -> chained b l -> chained a l.
Proof.
  intros Hc Hr. induction l as [|p l IH]; [done|]. destruct l as [|q l]; [done|].
  intros [[d Hd] Hl]. split; [|by apply IH].
  exists d. rewrite Hd. unfold newHeadOf. by rewrite Hc, Hr.
Qed.

Lemma snakeOk_ext (a b : State) :
  cols a = cols b -> rows a = rows b -> snake a = snake b ->
  snakeOk b -> snakeOk a.
Proof.
  intros Hc Hr Hs (H1 & H2 & H3 & H4). unfold snakeOk. rewrite Hs.
  repeat split; try done.
  - eapply Forall_impl; [exact H3|]. intros p. unfold inBoard. by rewrite Hc, Hr.
  - by apply (chained_ext a b).
Qed.

Lemma newHeadOf_inBoard (st : State) (h : Cell) (d : Dir) :
  inBoard st h -> inBoard st (newHeadOf st h d).
Proof.
  unfold inBoard, newHeadOf. simpl. intros [Hx Hy].
  split; apply wrapCoord_range; lia.
Qed.

(** X6.  From a state whose snake is not empty, has no repeated cell,
    lies on the board and is connected (each cell one wrapped unit step
    from the next), every call of [doStep] returns normally and commits a
    state whose snake has the same four properties. *)
Theorem X6_turn_keeps_snake_ok (rnd : nat -> Q) (cv : option Canvas)
    (st : State) (d : Dir) :
  snakeOk st ->
  fst (turn rnd cv st d) = Returns
  /\ snakeOk (nextState (turn rnd cv st d)).
Proof.
  intros Hok.
  pose proof (doStep_keeps_cols rnd cv st d (mkRun st [] 0%nat)) as Hc.
  pose proof (doStep_keeps_rows rnd cv st d (mkRun st [] 0%nat)) as Hr.
  fold (turn rnd cv st d) in Hc, Hr. simpl in Hc, Hr.
  destruct (turn_cases rnd cv st d)
    as [[_ E]|[(_ & _ & Hs & _)|[(h & tl & Ht & Hrej & Hs & Hl)
                                |(h & tl & Ht & Hrej & Hs & Hl)]]].
  - rewrite E. by split.
  - by destruct Hok as [Hne _].
  - destruct (turn_lethal rnd cv st d h tl Ht Hrej Hs Hl) as (l & k & -> & _).
    split; [reflexivity|]. by apply (snakeOk_ext _ st).
  - pose proof (turn_snake rnd cv st d h tl Ht Hrej Hs Hl) as Hsn.
    destruct (turn_accepted rnd cv st d h tl Ht Hrej Hs Hl)
      as (newSnake & nf & picked & r1 & r2 & r3 & r4 & r5 & r6
          & _ & _ & _ & _ & _ & _ & Et).
    split; [by rewrite Et|].
    destruct Hok as (Hne & Hnd & Hin & Hch).
    set (n := newHeadOf st h d) in *.
    assert (Hfresh : ~ In n (snake st)).
    { unfold lethal in Hl. apply orb_false_iff in Hl as [_ Hl].
      intros Hn. apply existsb_posEq in Hn. congruence. }
    assert (Hgrown : NoDup (n :: snake st) /\ Forall (inBoard st) (n :: snake st)
                     /\ chained st (n :: snake st)).
    { split; [|split].
      - apply NoDup_cons. split; [|done]. by rewrite list_elem_of_In.
      - constructor; [|done]. apply newHeadOf_inBoard.
        rewrite Hs in Hin. by apply Forall_cons in Hin as [Hh _].
      - rewrite Hs. split; [by exists d | by rewrite <- Hs]. }
    destruct Hgrown as (G1 & G2 & G3).
    unfold snakeOk. unfold nextState in *. rewrite Hsn.
    assert (Hext : forall l, Forall (inBoard st) l -> chained st l ->
               Forall (inBoard (pending (snd (turn rnd cv st d)))) l
               /\ chained (pending (snd (turn rnd cv st d))) l).
    { intros l F C. split.
      - eapply Forall_impl; [exact F|]. intros p. unfold inBoard.
        by rewrite Hc, Hr.
      - by apply (chained_ext _ st). }
    destruct (ateFruitAt st n).
    + destruct (Hext _ G2 G3). by repeat split.
    + destruct (Hext _ (removelast_Forall _ _ G2) (removelast_chained _ _ G3)).
      repeat split; try done.
      * rewrite Hs. by change (removelast (n :: h :: tl))
          with (n :: removelast (h :: tl)).
      * by apply removelast_NoDup.
Qed.

Lemma twoCells_snakeOk : snakeOk twoCells.
Proof.
  unfold snakeOk, twoCells. simpl. split; [discriminate|]. split.
  - apply NoDup_cons. split.
    + intros H. apply list_elem_of_In in H. destruct H as [H|[]]. discriminate H.
    + apply NoDup_cons. split; [|constructor].
      intros H. apply list_elem_of_In in H. destruct H.
  - split.
    + repeat constructor; simpl; lia.
    + split; [|exact I]. exists DOWN. reflexivity.
Defined.

Lemma X6_turn_keeps_snake_ok_witness :
  fst (turn zeros None twoCells RIGHT) = Returns
  /\ snakeOk (nextState (turn zeros None twoCells RIGHT)).
Proof. exact (X6_turn_keeps_snake_ok zeros None twoCells RIGHT twoCells_snakeOk). Defined.

(** ** What a turn does to the hazards, the power-up and the fruit *)

Lemma kept_by {A B : Type} (f : State -> B) (m : M A) (r r' : Run) (a : A) :
  m r = (a, r') -> keeps f m -> f (pending r') = f (pending r).
Proof. intros E Hm. by apply (keeps_run f m r r' a). Qed.

Ltac kept := unfold_blocks; unfold_setters; frame.

Section Spawns.

Variable rnd : nat -> Q.
Variable canvasRef : option Canvas.

(** What [maybeSpawnHazard] does to the hazards of the queue. *)
Lemma maybeSpawnHazard_spec (st : State) (head : Cell) (s : list Cell)
    (c r : Z) (run run' : Run) :
  maybeSpawnHazard rnd st head s c r run = (tt, run') ->
  hazards (pending run') = hazards (pending run)
  \/ exists pos,
       hazards (pending run') = hazards (pending run) ++ [pos]
       /\ HAZARD_MIN_LEVEL <= level st
       /\ Z.of_nat (length (hazards st)) < hazardCap st
       /\ pos <> head /\ ~ In pos s /\ ~ In pos (hazards st)
       /\ fruit st <> Some pos
       /\ puCell <$> powerUp st <> Some pos.
Proof.
  unfold maybeSpawnHazard.
  destruct (level st <? HAZARD_MIN_LEVEL) eqn:El; [intros [= <-]; by left|].
  destruct (_ >=? _) eqn:Ec; [intros [= <-]; by left|].
  unfold bind, random. simpl.
  destruct (negb _); [intros [= <-]; by left|].
  match goal with |- context [placeFreeCell rnd ?s ?c ?r0 ?r'] =>
    destruct (placeFreeCell_run rnd s c r0 r') as (o & k & -> & Ho) end.
  destruct o as [pos|]; [|intros [= <-]; by left].
  unfold_setters. simpl. intros [= <-]. right. exists pos.
  split; [reflexivity|].
  apply Z.ltb_ge in El. rewrite Z.geb_leb in Ec. apply Z.leb_gt in Ec.
  split; [exact El|]. split; [exact Ec|].
  specialize (Ho pos eq_refl).
  assert (Hnot : forall P : Prop,
    (P -> has (addCell (Some head)
                 (addCells (hazards st)
                    (addCell (puCell <$> powerUp st)
                       (addCell (fruit st) (keySet s))))) pos = true) -> ~ P).
  { intros P HP Hp. specialize (HP Hp). congruence. }
  repeat split; apply Hnot; intros H.
  - apply has_addCell. left. by rewrite H.
  - apply has_addCell. right. apply has_addCells. right. apply has_addCell.
    right. apply has_addCell. right. by apply has_keySet.
  - apply has_addCell. right. apply has_addCells. by left.
  - apply has_addCell. right. apply has_addCells. right. apply has_addCell.
    right. apply has_addCell. by left.
  - apply has_addCell. right. apply has_addCells. right. apply has_addCell.
    by left.
Qed.

(** What [maybeSpawnPowerUp] does to the power-up of the queue. *)
Lemma maybeSpawnPowerUp_spec (st : State) (head : Cell) (s : list Cell)
    (c r : Z) (b : bool) (run run' : Run) :
  maybeSpawnPowerUp rnd st head s c r b run = (tt, run') ->
  powerUp (pending run') = powerUp (pending run)
  \/ exists pos,
       powerUp (pending run')
         = Some (mkPowerUp (x pos) (y pos)
                   (Z.max 1 (ceilHypot (x pos - x head) (y pos - y head) + 3)))
       /\ b = false
       /\ POWERUP_MIN_LEVEL <= level st
       /\ powerUp st = None
       /\ revealTurns st <= 0
       /\ 10 <= snakeLength s
       /\ ~ In pos s /\ ~ In pos (hazards st) /\ fruit st <> Some pos.
Proof.
  unfold maybeSpawnPowerUp.
  destruct b; [intros [= <-]; by left|].
  destruct (level st <? POWERUP_MIN_LEVEL) eqn:El; [intros [= <-]; by left|].
  destruct (bool_decide _) eqn:Ep; [intros [= <-]; by left|].
  destruct (revealTurns st >? 0) eqn:Er; [intros [= <-]; by left|].
  destruct (snakeLength s <? 10) eqn:En; [intros [= <-]; by left|].
  unfold bind, random. simpl.
  destruct (negb _); [intros [= <-]; by left|].
  match goal with |- context [placeFreeCell rnd ?s ?c ?r0 ?r'] =>
    destruct (placeFreeCell_run rnd s c r0 r') as (o & k & -> & Ho) end.
  destruct o as [pos|]; [|intros [= <-]; by left].
  unfold_setters. simpl. intros [= <-]. right. exists pos.
  split; [reflexivity|]. split; [reflexivity|].
  apply Z.ltb_ge in El, En. apply bool_decide_eq_false in Ep.
  assert (Er' : revealTurns st <= 0).
  { destruct (Z_le_gt_dec (revealTurns st) 0) as [|Hgt]; [done|].
    apply Z.gt_lt, Z.gtb_lt in Hgt. congruence. }
  split; [exact El|]. split.
  { destruct (powerUp st); [|done]. exfalso. apply Ep. by eexists. }
  split; [exact Er'|]. split; [exact En|].
  specialize (Ho pos eq_refl).
  assert (Hnot : forall P : Prop,
    (P -> has (addCells (hazards st) (addCell (fruit st) (keySet s))) pos
          = true) -> ~ P).
  { intros P HP Hp. specialize (HP Hp). congruence. }
  repeat split; apply Hnot; intros H.
  - apply has_addCells. right. apply has_addCell. right. by apply has_keySet.
  - apply has_addCells. by left.
  - apply has_addCells. right. apply has_addCell. by left.
Qed.

(** The hazards after any call of [doStep]. *)
Lemma turn_hazards (st : State) (d : Dir) :
  hazards (nextState (turn rnd canvasRef st d)) = hazards st
  \/ exists pos,
       hazards (nextState (turn rnd canvasRef st d)) = hazards st ++ [pos]
       /\ HAZARD_MIN_LEVEL <= level st
       /\ Z.of_nat (length (hazards st)) < hazardCap st
       /\ ~ In pos (snake (nextState (turn rnd canvasRef st d)))
       /\ ~ In pos (hazards st)
       /\ fruit st <> Some pos
       /\ puCell <$> powerUp st <> Some pos.
Proof.
  destruct (turn_cases rnd canvasRef st d)
    as [[_ E]|[(_ & _ & _ & E)|[(h & tl & Ht & Hrej & Hs & Hl)
                               |(h & tl & Ht & Hrej & Hs & Hl)]]].
  - left. by rewrite E.
  - left. by rewrite E.
  - destruct (turn_lethal rnd canvasRef st d h tl Ht Hrej Hs Hl)
      as (l & k & -> & _). by left.
  - destruct (turn_accepted rnd canvasRef st d h tl Ht Hrej Hs Hl)
      as (newSnake & nf & picked & r1 & r2 & r3 & r4 & r5 & r6
          & E1 & E2 & E3 & E4 & E5 & E6 & ->).
    unfold nextState. cbn [fst snd pending moved hazards snake].
    assert (H5 : hazards (pending r5) = hazards st).
    { rewrite (kept_by hazards _ _ _ _ E5) by kept.
      rewrite (kept_by hazards _ _ _ _ E4) by kept.
      rewrite (kept_by hazards _ _ _ _ E3) by kept.
      rewrite (kept_by hazards _ _ _ _ E2) by kept.
      by rewrite (kept_by hazards _ _ _ _ E1) by kept. }
    destruct (maybeSpawnHazard_spec st _ _ _ _ _ _ E6)
      as [E|(pos & E & H1 & H2 & _ & H4 & H5' & H6 & H7)];
      rewrite E, H5; [by left|].
    right. by exists pos.
Qed.

End Spawns.

(** X7.  A turn leaves the hazards as they were or appends exactly one.
    A hazard is appended only at level 3 or more and below the cap
    [max (0, level - 2)], on a cell that is on no cell of the snake after
    the move, on no existing hazard, and neither on the fruit nor on the
    power-up that the board had before the turn. *)
Theorem X7_turn_spawns_at_most_one_hazard (rnd : nat -> Q)
    (cv : option Canvas) (st : State) (d : Dir) :
  hazards (nextState (turn rnd cv st d)) = hazards st
  \/ exists pos,
       hazards (nextState (turn rnd cv st d)) = hazards st ++ [pos]
       /\ 3 <= level st
       /\ Z.of_nat (length (hazards st)) < Z.max 0 (level st - 2)
       /\ ~ In pos (snake (nextState (turn rnd cv st d)))
       /\ ~ In pos (hazards st)
       /\ fruit st <> Some pos
       /\ puCell <$> powerUp st <> Some pos.
Proof. exact (turn_hazards rnd cv st d). Qed.

(** X8.  The number of hazards never exceeds [max (0, level - 2)]: a turn
    that starts within the cap ends within the cap, and hazards are never
    removed by a turn. *)
Theorem X8_turn_keeps_hazard_cap (rnd : nat -> Q) (cv : option Canvas)
    (st : State) (d : Dir) :
  Z.of_nat (length (hazards st)) <= hazardCap st ->
  Z.of_nat (length (hazards (nextState (turn rnd cv st d))))
    <= hazardCap (nextState (turn rnd cv st d))
  /\ (length (hazards st)
      <= length (hazards (nextState (turn rnd cv st d))))%nat.
Proof.
  intros Hcap.
  pose proof (doStep_keeps_level rnd cv st d (mkRun st [] 0%nat)) as Hlv.
  fold (turn rnd cv st d) in Hlv. simpl in Hlv.
  unfold hazardCap in *. unfold nextState in *. rewrite Hlv.
  destruct (turn_hazards rnd cv st d) as [E|(pos & E & _ & Hlt & _)];
    unfold nextState in E; rewrite E.
  - split; [exact Hcap | lia].
  - rewrite length_app. simpl. unfold hazardCap in Hlt. split; lia.
Qed.

Lemma X8_turn_keeps_hazard_cap_witness :
  Z.of_nat (length (hazards (nextState (turn zeros None spawnBoard RIGHT))))
    <= hazardCap (nextState (turn zeros None spawnBoard RIGHT))
  /\ (length (hazards spawnBoard)
      <= length (hazards (nextState (turn zeros None spawnBoard RIGHT))))%nat.
Proof.
  apply (X8_turn_keeps_hazard_cap zeros None spawnBoard RIGHT).
  unfold hazardCap. simpl. lia.
Defined.

Section Bookkeeping.

Variable rnd : nat -> Q.
Variable canvasRef : option Canvas.

(** A power-up appears only through the spawn routine. *)
Lemma turn_powerUp_spawn (st : State) (d : Dir) (q : PowerUp) :
  powerUp st = None ->
  powerUp (nextState (turn rnd canvasRef st d)) = Some q ->
  POWERUP_MIN_LEVEL <= level st
  /\ revealTurns st <= 0
  /\ 10 <= snakeLength (snake (nextState (turn rnd canvasRef st d)))
  /\ 4 <= ttl q
  /\ ~ In (puCell q) (snake (nextState (turn rnd canvasRef st d)))
  /\ ~ In (puCell q) (hazards st)
  /\ fruit st <> Some (puCell q).
Proof.
  intros Hp.
  destruct (turn_cases rnd canvasRef st d)
    as [[_ E]|[(_ & _ & _ & E)|[(h & tl & Ht & Hrej & Hs & Hl)
                               |(h & tl & Ht & Hrej & Hs & Hl)]]].
  - rewrite E. unfold nextState. simpl. congruence.
  - rewrite E. unfold nextState. simpl. congruence.
  - destruct (turn_lethal rnd canvasRef st d h tl Ht Hrej Hs Hl)
      as (l & k & -> & _). unfold nextState. simpl. congruence.
  - pose proof (turn_snake rnd canvasRef st d h tl Ht Hrej Hs Hl) as Hsn.
    destruct (turn_accepted rnd canvasRef st d h tl Ht Hrej Hs Hl)
      as (newSnake & nf & picked & r1 & r2 & r3 & r4 & r5 & r6
          & E1 & E2 & E3 & E4 & E5 & E6 & Et).
    rewrite Et in *. unfold nextState in *.
    cbn [fst snd pending moved powerUp snake] in Hsn |- *.
    rewrite (kept_by powerUp _ _ _ _ E6) by kept.
    assert (H4 : powerUp (pending r4) = None).
    { rewrite (kept_by powerUp _ _ _ _ E4) by kept.
      rewrite (countdown_absent st r2 r3 Hp E3).
      revert E2. unfold pickUp. rewrite Hp. intros [= _ <-].
      by rewrite (kept_by powerUp _ _ _ _ E1) by kept. }
    destruct (maybeSpawnPowerUp_spec rnd st _ _ _ _ _ _ _ E5)
      as [E|(pos & E & _ & Hlv & _ & Hrv & Hlen & Hsnake & Hhz & Hfr)];
      rewrite E; [rewrite H4; discriminate|].
    intros [= <-]. unfold puCell. cbn [ttl pux puy].
    assert (Hpos : mkCell (x pos) (y pos) = pos) by (by destruct pos).
    rewrite Hpos.
    repeat split; try done.
    assert (Hhead : In (newHeadOf st h d) newSnake).
    { rewrite Hsn. destruct (ateFruitAt st (newHeadOf st h d)); [by left|].
      rewrite Hs. change (removelast (newHeadOf st h d :: h :: tl))
        with (newHeadOf st h d :: removelast (h :: tl)). by left. }
    assert (Hne : x pos - x (newHeadOf st h d) <> 0
                  \/ y pos - y (newHeadOf st h d) <> 0).
    { destruct (decide (x pos - x (newHeadOf st h d) = 0)) as [Ex|]; [|by left].
      destruct (decide (y pos - y (newHeadOf st h d) = 0)) as [Ey|]; [|by right].
      exfalso. apply Hsnake.
      replace pos with (newHeadOf st h d); [done|].
      destruct pos, (newHeadOf st h d). simpl in *. f_equal; lia. }
    pose proof (ceilHypot_pos _ _ Hne) as Hc.
    unfold newHeadOf in Hc. simpl in Hc. lia.
Qed.

(** What eating the fruit does to the stored fruit and to the win. *)
Lemma fruitEaten_spec (st : State) (n : Cell) (s : list Cell)
    (r r1 : Run) (nf : option Cell) :
  fruitEaten rnd canvasRef st n s r = (nf, r1) ->
  (exists c, nf = Some c /\ fruit (pending r1) = Some c
             /\ ~ In c s /\ ~ In c (hazards st)
             /\ puCell <$> powerUp st <> Some c)
  \/ (nf = None /\ fruit (pending r1) = fruit (pending r)
      /\ (won st = false -> won (pending r1) = true)).
Proof.
  unfold fruitEaten, bind, emit. simpl.
  match goal with |- context [placeFreeCell rnd ?s ?c ?r0 ?r'] =>
    destruct (placeFreeCell_run rnd s c r0 r') as (o & k & -> & Ho) end.
  destruct o as [c|].
  - unfold_setters. simpl.
    match goal with |- context [scaledBurst _ _ _ ?c ?s ?i ?r'] =>
      destruct (scaledBurst_run rnd canvasRef st c s i r') as (l & k' & -> & _)
    end.
    intros [= <- <-]. left. exists c. split; [done|]. split; [done|].
    specialize (Ho c eq_refl).
    repeat split; intros H;
      assert (has (addCells (hazards st)
                     (addCell (puCell <$> powerUp st) (keySet s))) c = true)
        by (apply has_occF; tauto); congruence.
  - unfold triggerWin. destruct (won st) eqn:Hw.
    + unfold ret. unfold_setters. simpl.
      match goal with |- context [scaledBurst _ _ _ ?c ?s ?i ?r'] =>
        destruct (scaledBurst_run rnd canvasRef st c s i r') as (l & k' & -> & _)
      end.
      intros [= <- <-]. right. by repeat split.
    + unfold bind, emit, ret. unfold_setters. simpl.
      match goal with |- context [scaledBurst _ _ _ ?c ?s ?i ?r'] =>
        destruct (scaledBurst_run rnd canvasRef st c s i r') as (l & k' & -> & _)
      end.
      intros [= <- <-]. right. by repeat split.
Qed.

(** The fruit after any call of [doStep] is off the snake, unless the
    turn has won. *)
Lemma turn_fruit_off_snake (st : State) (d : Dir) :
  (forall f, fruit st = Some f -> ~ In f (snake st)) ->
  won (nextState (turn rnd canvasRef st d)) = true
  \/ forall f, fruit (nextState (turn rnd canvasRef st d)) = Some f ->
       ~ In f (snake (nextState (turn rnd canvasRef st d))).
Proof.
  intros Hoff.
  destruct (turn_cases rnd canvasRef st d)
    as [[_ E]|[(_ & _ & _ & E)|[(h & tl & Ht & Hrej & Hs & Hl)
                               |(h & tl & Ht & Hrej & Hs & Hl)]]].
  - right. by rewrite E.
  - right. by rewrite E.
  - destruct (turn_lethal rnd canvasRef st d h tl Ht Hrej Hs Hl)
      as (l & k & -> & _). by right.
  - assert (Hw : won st = false).
    { unfold terminal in Ht. by apply orb_false_iff in Ht as [_ ->]. }
    pose proof (turn_snake rnd canvasRef st d h tl Ht Hrej Hs Hl) as Hsn.
    destruct (turn_accepted rnd canvasRef st d h tl Ht Hrej Hs Hl)
      as (newSnake & nf & picked & r1 & r2 & r3 & r4 & r5 & r6
          & E1 & E2 & E3 & E4 & E5 & E6 & Et).
    rewrite Et in *. unfold nextState in *.
    cbn [fst snd pending moved fruit won snake] in Hsn |- *.
    rewrite (kept_by fruit _ _ _ _ E6) by kept.
    rewrite (kept_by fruit _ _ _ _ E5) by kept.
    rewrite (kept_by fruit _ _ _ _ E4) by kept.
    rewrite (kept_by fruit _ _ _ _ E3) by kept.
    rewrite (kept_by fruit _ _ _ _ E2) by kept.
    rewrite (kept_by won _ _ _ _ E6) by kept.
    rewrite (kept_by won _ _ _ _ E5) by kept.
    set (n := newHeadOf st h d) in *.
    revert E1. unfold advance.
    destruct (ateFruitAt st n) eqn:Ha; cbn [negb].
    + unfold bind at 1.
      destruct (fruitEaten rnd canvasRef st n (n :: snake st)
                  (mkRun st [] 0%nat)) as [nf' r1'] eqn:Ef.
      intros [= <- <- <-].
      destruct (fruitEaten_spec st _ _ _ _ _ Ef)
        as [(c & -> & Hc & Hcs & _)|(-> & _ & Hwin)].
      * right. intros f. rewrite Hc. intros [= <-]. exact Hcs.
      * left. refine (winCheck_won st _ _ r3 r4 _ E4).
        rewrite (kept_by won _ _ _ _ E3) by kept.
        rewrite (kept_by won _ _ _ _ E2) by kept.
        by apply Hwin.
    + unfold bind, emit, ret. intros [= <- <- <-]. right. intros f Hf.
      cbn [pending fruit] in Hf.
      intros Hin.
      assert (Hin' : In f (n :: snake st)) by (apply removelast_In; exact Hin).
      destruct Hin' as [<-|Hin']; [|by apply (Hoff f)].
      apply ateFruitAt_iff in Hf. congruence.
Qed.

(** Lives, score and the terminal flags after any call of [doStep]. *)
Lemma turn_books (st : State) (d : Dir) :
  (gameOver (nextState (turn rnd canvasRef st d)) = gameOver st
   /\ lives (nextState (turn rnd canvasRef st d)) = lives st
   /\ (score (nextState (turn rnd canvasRef st d)) = score st
       \/ (score (nextState (turn rnd canvasRef st d)) = score st + 1
           /\ length (snake (nextState (turn rnd canvasRef st d)))
              = S (length (snake st)))))
  \/ (terminal st = false
      /\ gameOver (nextState (turn rnd canvasRef st d)) = true
      /\ won (nextState (turn rnd canvasRef st d)) = false
      /\ lives (nextState (turn rnd canvasRef st d)) = Z.max 0 (lives st - 1)
      /\ score (nextState (turn rnd canvasRef st d)) = score st).
Proof.
  destruct (turn_cases rnd canvasRef st d)
    as [[_ E]|[(_ & _ & _ & E)|[(h & tl & Ht & Hrej & Hs & Hl)
                               |(h & tl & Ht & Hrej & Hs & Hl)]]].
  - left. rewrite E. repeat split. by left.
  - left. rewrite E. repeat split. by left.
  - right. destruct (turn_lethal rnd canvasRef st d h tl Ht Hrej Hs Hl)
      as (l & k & -> & _). unfold nextState. simpl.
    repeat split; try done.
    unfold terminal in Ht. by apply orb_false_iff in Ht as [_ ->].
  - left.
    pose proof (turn_snake rnd canvasRef st d h tl Ht Hrej Hs Hl) as Hsn.
    pose proof (turn_score rnd canvasRef st d h tl Ht Hrej Hs Hl) as Hsc.
    destruct (turn_accepted rnd canvasRef st d h tl Ht Hrej Hs Hl)
      as (newSnake & nf & picked & r1 & r2 & r3 & r4 & r5 & r6
          & E1 & E2 & E3 & E4 & E5 & E6 & Et).
    rewrite Et in *. unfold nextState in *.
    cbn [fst snd pending moved gameOver lives score snake] in Hsn, Hsc |- *.
    rewrite (kept_by gameOver _ _ _ _ E6) by kept.
    rewrite (kept_by gameOver _ _ _ _ E5) by kept.
    rewrite (kept_by gameOver _ _ _ _ E4) by kept.
    rewrite (kept_by gameOver _ _ _ _ E3) by kept.
    rewrite (kept_by gameOver _ _ _ _ E2) by kept.
    rewrite (kept_by gameOver _ _ _ _ E1) by kept.
    rewrite (kept_by lives _ _ _ _ E6) by kept.
    rewrite (kept_by lives _ _ _ _ E5) by kept.
    rewrite (kept_by lives _ _ _ _ E4) by kept.
    rewrite (kept_by lives _ _ _ _ E3) by kept.
    rewrite (kept_by lives _ _ _ _ E2) by kept.
    rewrite (kept_by lives _ _ _ _ E1) by kept.
    split; [reflexivity|]. split; [reflexivity|].
    rewrite Hsc, Hsn. destruct (ateFruitAt st (newHeadOf st h d)).
    + right. by split.
    + left. lia.
Qed.

End Bookkeeping.

(** X9.  A power-up comes into being (none before the turn, one after)
    only at level 2 or more, with the reveal counter at zero and a snake
    of at least ten cells after the move; it starts with a [ttl] of at
    least 4, on a cell that is on no cell of the snake, on no hazard and
    not on the fruit the board had before the turn. *)
Theorem X9_power_up_spawn_conditions (rnd : nat -> Q) (cv : option Canvas)
    (st : State) (d : Dir) (q : PowerUp) :
  powerUp st = None ->
  powerUp (nextState (turn rnd cv st d)) = Some q ->
  2 <= level st
  /\ revealTurns st <= 0
  /\ (10 <= length (snake (nextState (turn rnd cv st d))))%nat
  /\ 4 <= ttl q
  /\ ~ In (puCell q) (snake (nextState (turn rnd cv st d)))
  /\ ~ In (puCell q) (hazards st)
  /\ fruit st <> Some (puCell q).
Proof.
  intros Hp Hq.
  destruct (turn_powerUp_spawn rnd cv st d q Hp Hq)
    as (H1 & H2 & H3 & H4 & H5 & H6 & H7).
  unfold snakeLength in H3. repeat split; try done. lia.
Qed.

Lemma X9_power_up_spawn_conditions_witness :
  2 <= level spawnBoard
  /\ revealTurns spawnBoard <= 0
  /\ (10 <= length (snake (nextState (turn zeros None spawnBoard RIGHT))))%nat
  /\ 4 <= ttl (mkPowerUp 2 0 4)
  /\ ~ In (puCell (mkPowerUp 2 0 4))
         (snake (nextState (turn zeros None spawnBoard RIGHT)))
  /\ ~ In (puCell (mkPowerUp 2 0 4)) (hazards spawnBoard)
  /\ fruit spawnBoard <> Some (puCell (mkPowerUp 2 0 4)).
Proof.
  assert (H1 : powerUp spawnBoard = None) by reflexivity.
  assert (H2 : powerUp (nextState (turn zeros None spawnBoard RIGHT))
               = Some (mkPowerUp 2 0 4)) by (vm_compute; reflexivity).
  exact (X9_power_up_spawn_conditions zeros None spawnBoard RIGHT
           (mkPowerUp 2 0 4) H1 H2).
Defined.

(** X10.  If the fruit is not under the snake before a turn, then after
    the turn either the level is won or the fruit, moved or not, is again
    on no cell of the snake. *)
Theorem X10_fruit_stays_off_snake (rnd : nat -> Q) (cv : option Canvas)
    (st : State) (d : Dir) :
  (forall f, fruit st = Some f -> ~ In f (snake st)) ->
  won (nextState (turn rnd cv st d)) = true
  \/ forall f, fruit (nextState (turn rnd cv st d)) = Some f ->
       ~ In f (snake (nextState (turn rnd cv st d))).
Proof. exact (turn_fruit_off_snake rnd cv st d). Qed.

Lemma twoCells_fruit_off (f : Cell) :
  fruit twoCells = Some f -> ~ In f (snake twoCells).
Proof.
  intros [= <-] [H|[H|[]]]; discriminate H.
Defined.

Lemma X10_fruit_stays_off_snake_witness :
  won (nextState (turn zeros None twoCells RIGHT)) = true
  \/ forall f, fruit (nextState (turn zeros None twoCells RIGHT)) = Some f ->
       ~ In f (snake (nextState (turn zeros None twoCells RIGHT))).
Proof.
  exact (X10_fruit_stays_off_snake zeros None twoCells RIGHT twoCells_fruit_off).
Defined.

(** X11.  A turn changes the lives only by a death, which takes one life
    (floored at 0) and sets the game over; the score never decreases and
    goes up by at most one, and only in a turn in which the snake grows by
    one cell. *)
Theorem X11_lives_and_score (rnd : nat -> Q) (cv : option Canvas)
    (st : State) (d : Dir) :
  (lives (nextState (turn rnd cv st d)) = lives st
   \/ (gameOver st = false
       /\ gameOver (nextState (turn rnd cv st d)) = true
       /\ lives (nextState (turn rnd cv st d)) = Z.max 0 (lives st - 1)))
  /\ (score (nextState (turn rnd cv st d)) = score st
      \/ (score (nextState (turn rnd cv st d)) = score st + 1
          /\ length (snake (nextState (turn rnd cv st d)))
             = S (length (snake st)))).
Proof.
  destruct (turn_books rnd cv st d)
    as [(_ & Hl & Hs)|(Ht & Hg & _ & Hl & Hs)].
  - split; [by left | exact Hs].
  - split; [|by left]. right.
    unfold terminal in Ht. apply orb_false_iff in Ht as [Hg0 _]. by repeat split.
Qed.

(** X12.  A terminal state absorbs every request: the call changes no
    state, emits nothing and draws no random number.  And a turn never
    leaves the game both over and won, unless it already was. *)
Theorem X12_terminal_states (rnd : nat -> Q) (cv : option Canvas)
    (st : State) (d : Dir) :
  (terminal st = true -> turn rnd cv st d = (Returns, mkRun st [] 0%nat))
  /\ (gameOver st && won st = false ->
      gameOver (nextState (turn rnd cv st d))
      && won (nextState (turn rnd cv st d)) = false).
Proof.
  split.
  - intros Ht. unfold turn, doStep. unfold terminal in Ht. by rewrite Ht.
  - intros Hex.
    destruct (turn_cases rnd cv st d)
      as [[_ E]|[(_ & _ & _ & E)|[(h & tl & Ht & Hrej & Hs & Hl)
                                 |(h & tl & Ht & Hrej & Hs & Hl)]]].
    + by rewrite E.
    + by rewrite E.
    + destruct (turn_books rnd cv st d)
        as [(Hg & _)|(_ & _ & Hw & _)].
      * rewrite Hg. unfold terminal in Ht.
        by apply orb_false_iff in Ht as [-> _].
      * rewrite Hw. apply andb_false_r.
    + destruct (turn_books rnd cv st d)
        as [(Hg & _)|(_ & _ & Hw & _)].
      * rewrite Hg. unfold terminal in Ht.
        by apply orb_false_iff in Ht as [-> _].
      * rewrite Hw. apply andb_false_r.
Qed.

(** ** The level and lives controller *)

Arguments centerCell : simpl never.
Arguments sizeForLevel : simpl never.

Section ControllerFacts.

Variable rnd : nat -> Q.

(** [resetBoard] in one equation: the fruit is the cell that
    [placeFreeCell] returns for the set that holds the center only, or
    (0,0) when it returns none. *)
Lemma resetBoard_run (c r : Z) (run : Run) :
  exists o k,
    resetBoard rnd c r run
    = (tt, mkRun (resetState (pending run) c r
                    (match o with Some p => p | None => mkCell 0 0 end))
             (fx run) k)
    /\ (forall p, o = Some p -> p <> centerCell c r)
    /\ (0 <= c -> 0 <= r -> 2 <= c * r -> exists p, o = Some p)
    /\ (0 <= c -> 0 <= r -> c * r <= 1 -> o = None)
    /\ (tapeInRange rnd -> 0 < c -> 0 < r ->
        forall p, o = Some p -> 0 <= x p < c /\ 0 <= y p < r).
Proof.
  unfold resetBoard. unfold bind at 1. unfold bind at 1. unfold bind at 1.
  unfold_setters. unfold update at 1 2.
  match goal with |- context [placeFreeCell rnd ?s ?c ?r0 ?r'] =>
    set (occ := s); set (run0 := r')
  end.
  pose proof (placeFreeCell_run rnd occ c r run0) as Hrun.
  pose proof (placeFreeCell_finds rnd occ c r run0) as Hfind.
  pose proof (placeFreeCell_full rnd occ c r run0) as Hfull.
  pose proof (placeFreeCell_in_board rnd occ c r run0) as Hin.
  assert (Hsize : size occ = 1%nat).
  { unfold occ, keySet. rewrite size_list_to_set; [done|].
    rewrite fmap_cons. apply NoDup_singleton. }
  destruct Hrun as (o & k & E & Ho). rewrite E in Hfind, Hfull, Hin |- *.
  exists o, k. split; [|split; [|split; [|split]]].
  - cbv -[centerCell]. reflexivity.
  - intros p Hp Heq. specialize (Ho p Hp). subst p.
    assert (has occ (centerCell c r) = true); [|congruence].
    apply has_keySet. by left.
  - intros Hc Hr Hcr. apply Hfind; [done|done|]. rewrite Hsize. lia.
  - intros Hc Hr Hcr. rewrite Hsize in Hfull.
    assert (Hf := Hfull ltac:(lia)). by injection Hf as ->.
  - intros Ht Hc Hr p Hp. apply Hin; try done.
Qed.

End ControllerFacts.

(** X13.  [resetBoard (c, r)] commits a board that is not terminal, with
    a one-cell snake at the center heading RIGHT, score 0, no hazard, no
    power-up and no reveal; it keeps the level, the sides of the board and
    the lives, emits nothing, and always leaves a fruit. *)
Theorem X13_resetBoard_fresh (rnd : nat -> Q) (c r : Z) (run : Run) :
  freshAt (pending (snd (resetBoard rnd c r run))) c r
  /\ level (pending (snd (resetBoard rnd c r run))) = level (pending run)
  /\ cols (pending (snd (resetBoard rnd c r run))) = cols (pending run)
  /\ rows (pending (snd (resetBoard rnd c r run))) = rows (pending run)
  /\ lives (pending (snd (resetBoard rnd c r run))) = lives (pending run)
  /\ fx (snd (resetBoard rnd c r run)) = fx run
  /\ fruit (pending (snd (resetBoard rnd c r run))) <> None.
Proof.
  destruct (resetBoard_run rnd c r run) as (o & k & -> & _).
  unfold freshAt. simpl. by repeat split.
Qed.



Section LevelFacts.

Variable rnd : nat -> Q.

Lemma applyLevel_run (lvl : Z) (run : Run) :
  applyLevel lvl run
  = ([ResetBoardTask
        (sizeForLevel (Z.max 1 (Z.min 10 (if lvl =? 0 then 1 else lvl))))
        (sizeForLevel (Z.max 1 (Z.min 10 (if lvl =? 0 then 1 else lvl))))],
     mkRun (levelState (pending run)
              (Z.max 1 (Z.min 10 (if lvl =? 0 then 1 else lvl))) 3)
       (fx run) (drawn run)).
Proof.
  unfold applyLevel.
  set (clamped := Z.max 1 (Z.min 10 (if lvl =? 0 then 1 else lvl))).
  cbv -[sizeForLevel pretty clamped]. reflexivity.
Qed.

Lemma nextLevel_run (st : State) (run : Run) :
  nextLevel st run
  = ([ResetBoardTask
        (sizeForLevel (Z.max 1 (Z.min 10 (level st + 1))))
        (sizeForLevel (Z.max 1 (Z.min 10 (level st + 1))))],
     mkRun (levelState (pending run)
              (Z.max 1 (Z.min 10 (level st + 1))) (lives (pending run)))
       (fx run) (drawn run)).
Proof.
  unfold nextLevel.
  set (next := Z.max 1 (Z.min 10 (level st + 1))).
  cbv -[sizeForLevel pretty next]. reflexivity.
Qed.

(** A fresh one-cell snake on a board with positive sides is in order. *)
Lemma fresh_snakeOk (st : State) (c r : Z) :
  freshAt st c r -> cols st = c -> rows st = r -> 0 < c -> 0 < r ->
  snakeOk st.
Proof.
  intros (Hs & _) Hc Hr Hc0 Hr0. unfold snakeOk. rewrite Hs.
  split; [discriminate|]. split; [apply NoDup_singleton|]. split; [|exact I].
  constructor; [|constructor]. unfold inBoard, centerCell. simpl.
  rewrite Hc, Hr. split; split;
    try (apply Z.div_pos; lia); apply Z.div_lt_upper_bound; lia.
Qed.

End LevelFacts.

(** X15.  [applyLevel], for every integer it is called with, followed by
    the reset it schedules: the level is clamped to [[1, 10]] (0 counts
    as 1), the board is square with side [level + 2], the lives are 3, the
    level box shows the level, and the board is fresh, with a snake in
    order and the fruit off the snake.  Until the scheduled reset runs,
    the old snake is still in the state. *)
Theorem X15_applyLevel_then_reset (rnd : nat -> Q) (lvl : Z) (st : State) :
  let chosen := handle (fun _ => applyLevel lvl) st in
  let after := pending (runTasks rnd (fst chosen) (snd chosen)) in
  1 <= level after <= 10
  /\ (1 <= lvl <= 10 -> level after = lvl)
  /\ cols after = level after + 2 /\ rows after = level after + 2
  /\ lives after = 3
  /\ selectedLevel after = level after
  /\ selectedLevelInput after = pretty (level after)
  /\ snake (pending (snd chosen)) = snake st
  /\ freshAt after (cols after) (rows after)
  /\ snakeOk after
  /\ (exists f, fruit after = Some f /\ ~ In f (snake after)).
Proof.
  unfold handle. rewrite applyLevel_run.
  set (clamped := Z.max 1 (Z.min 10 (if lvl =? 0 then 1 else lvl))).
  assert (Hcl : 1 <= clamped <= 10) by (unfold clamped; lia).
  assert (Hsz : sizeForLevel clamped = clamped + 2)
    by (unfold sizeForLevel; lia).
  cbn [fst snd runTasks runTask pending fx drawn].
  destruct (resetBoard_run rnd (sizeForLevel clamped) (sizeForLevel clamped)
              (mkRun (levelState st clamped 3) [] 0%nat))
    as (o & k & -> & Hne & Hsome & _ & _).
  cbn [fst snd pending].
  destruct (Hsome ltac:(lia) ltac:(lia) ltac:(nia)) as [f ->].
  unfold resetState, levelState.
  cbn [level cols rows lives selectedLevel selectedLevelInput snake fruit].
  assert (Hfresh : freshAt
    (mkState clamped (sizeForLevel clamped) (sizeForLevel clamped) clamped
       (pretty clamped) 3 [centerCell (sizeForLevel clamped) (sizeForLevel clamped)]
       RIGHT (Some f) 0 false false None false None None 0 [])
    (sizeForLevel clamped) (sizeForLevel clamped))
    by (unfold freshAt; cbn; by repeat split).
  split; [exact Hcl|]. split.
  { intros Hl. unfold clamped. destruct (lvl =? 0) eqn:E; [|lia].
    apply Z.eqb_eq in E. lia. }
  repeat (split; [first [exact Hsz | reflexivity | exact Hfresh]|]).
  split.
  - apply (fresh_snakeOk _ _ _ Hfresh); cbn; lia.
  - exists f. split; [reflexivity|]. intros [H|[]]. by apply (Hne f eq_refl).
Qed.

(** X16.  Acknowledging a win.  [onOverlayClick] does not look at the
    overlay flag when the level is won (Enter reaches the same code before
    the overlay is on the screen): from a won state at a level in
    [[1, 10]], the call and the reset it schedules lead to level
    [min (10, level + 1)] with the lives unchanged, a square board of side
    [level + 2] and a fresh board that is no longer won. *)
Theorem X16_win_acknowledged (rnd : nat -> Q) (st : State) :
  won st = true ->
  1 <= level st <= 10 ->
  let clicked := handle (onOverlayClick rnd) st in
  let after := pending (runTasks rnd (fst clicked) (snd clicked)) in
  level after = Z.min 10 (level st + 1)
  /\ cols after = level after + 2 /\ rows after = level after + 2
  /\ lives after = lives st
  /\ freshAt after (cols after) (rows after)
  /\ snakeOk after.
Proof.
  intros Hw Hl. unfold handle, onOverlayClick. rewrite Hw, nextLevel_run.
  set (next := Z.max 1 (Z.min 10 (level st + 1))).
  assert (Hn : next = Z.min 10 (level st + 1)) by (unfold next; lia).
  assert (Hsz : sizeForLevel next = next + 2) by (unfold sizeForLevel; lia).
  cbn [fst snd runTasks runTask pending fx drawn].
  destruct (resetBoard_run rnd (sizeForLevel next) (sizeForLevel next)
              (mkRun (levelState st next (lives st)) [] 0%nat))
    as (o & k & -> & _).
  cbn [fst snd pending]. unfold resetState, levelState.
  cbn [level cols rows lives].
  set (f := match o with Some p => p | None => mkCell 0 0 end).
  assert (Hfresh : freshAt
    (mkState next (sizeForLevel next) (sizeForLevel next) next
       (pretty next) (lives st) [centerCell (sizeForLevel next) (sizeForLevel next)]
       RIGHT (Some f) 0 false false None false None None 0 [])
    (sizeForLevel next) (sizeForLevel next))
    by (unfold freshAt; cbn; by repeat split).
  repeat (split; [first [exact Hn | exact Hsz | reflexivity | exact Hfresh]|]).
  apply (fresh_snakeOk _ _ _ Hfresh); cbn; lia.
Qed.

Lemma X16_win_acknowledged_witness :
  level (pending (runTasks zeros (fst (handle (onOverlayClick zeros) (wonBoard 10)))
                    (snd (handle (onOverlayClick zeros) (wonBoard 10)))))
  = Z.min 10 (level (wonBoard 10) + 1).
Proof.
  assert (H1 : won (wonBoard 10) = true) by reflexivity.
  assert (H2 : 1 <= level (wonBoard 10) <= 10) by (cbn; lia).
  exact (proj1 (X16_win_acknowledged zeros (wonBoard 10) H1 H2)).
Defined.

(** X17.  While the game is neither won nor over, and after a death until
    the overlay is on the screen, a click on the canvas (or Enter) changes
    nothing, emits nothing and schedules nothing. *)
Theorem X17_click_ignored (rnd : nat -> Q) (st : State) :
  won st = false ->
  gameOver st && showOverlay st = false ->
  handle (onOverlayClick rnd) st = ([], mkRun st [] 0%nat).
Proof.
  intros Hw Hg. unfold handle, onOverlayClick. by rewrite Hw, Hg.
Qed.

Lemma X17_click_ignored_witness :
  handle (onOverlayClick zeros) twoCells = ([], mkRun twoCells [] 0%nat).
Proof.
  apply (X17_click_ignored zeros twoCells); reflexivity.
Defined.

(** ** A life, from the crash to the next board *)

Section LifeCycle.

Variable rnd : nat -> Q.

(** The overlay timer of a death puts the overlay on the screen and
    changes nothing else. *)
Lemma deathTimer_run (st : State) (n : Cell) :
  handle (fun s => overlayTimerFired s false) (lifeLost st n)
  = (tt, mkRun (mkState (level st) (cols st) (rows st)
                  (selectedLevel (lifeLost st n))
                  (selectedLevelInput (lifeLost st n))
                  (Z.max 0 (lives st - 1)) (snake st) (dir st) (fruit st)
                  (score st) true (won st) (Some n) true
                  (overlayMode (lifeLost st n))
                  (powerUp st) (revealTurns st) (hazards st)) [] 0%nat).
Proof. reflexivity. Qed.

End LifeCycle.

(** X18.  A crash with at least two lives: until the overlay timer has
    fired a click does nothing; the timer puts the overlay on the screen;
    the click that follows resets the board at once (nothing is
    scheduled): same level and board size, one life less, the score back
    to 0 and a fresh board. *)
Theorem X18_retry_after_crash (rnd : nat -> Q) (cv : option Canvas)
    (st : State) (d : Dir) (h : Cell) (tl : list Cell) :
  terminal st = false -> rejected st d = false -> snake st = h :: tl ->
  lethal st (newHeadOf st h d) = true ->
  2 <= lives st ->
  let dead := nextState (turn rnd cv st d) in
  let shown := pending (snd (handle (fun s => overlayTimerFired s false) dead)) in
  let clicked := handle (onOverlayClick rnd) shown in
  handle (onOverlayClick rnd) dead = ([], mkRun dead [] 0%nat)
  /\ showOverlay shown = true
  /\ fst clicked = []
  /\ level (pending (snd clicked)) = level st
  /\ cols (pending (snd clicked)) = cols st
  /\ rows (pending (snd clicked)) = rows st
  /\ lives (pending (snd clicked)) = lives st - 1
  /\ freshAt (pending (snd clicked)) (cols st) (rows st).
Proof.
  intros Ht Hr Hs Hl Hlv.
  destruct (turn_lethal rnd cv st d h tl Ht Hr Hs Hl) as (l & k & E & _).
  rewrite E. unfold nextState. cbn [snd pending].
  set (n := newHeadOf st h d).
  assert (Hw : won st = false).
  { unfold terminal in Ht. by apply orb_false_iff in Ht as [_ ->]. }
  assert (Hrem : (Z.max 0 (lives st - 1) >? 0) = true)
    by (apply Z.gtb_lt; lia).
  split.
  { unfold handle, onOverlayClick. cbn [lifeLost won gameOver showOverlay].
    by rewrite Hw. }
  rewrite deathTimer_run. cbn [snd pending].
  split; [reflexivity|].
  unfold handle, onOverlayClick.
  cbn [lifeLost won gameOver showOverlay overlayMode cols rows andb].
  rewrite Hw, Hrem. unfold bind, ret.
  match goal with |- context [resetBoard rnd ?c ?r ?run] =>
    destruct (resetBoard_run rnd c r run) as (o & k' & Eq & _) end.
  rewrite Eq. cbn [fst snd pending ret].
  unfold resetState. cbn [level cols rows lives].
  repeat (split; [first [reflexivity | lia]|]).
  unfold freshAt. cbn. by repeat split.
Qed.

Lemma X18_retry_after_crash_witness :
  lives (pending (snd (handle (onOverlayClick zeros)
           (pending (snd (handle (fun s => overlayTimerFired s false)
              (nextState (turn zeros None hazardAhead RIGHT))))))))
  = lives hazardAhead - 1.
Proof.
  assert (H1 : terminal hazardAhead = false) by reflexivity.
  assert (H2 : rejected hazardAhead RIGHT = false) by reflexivity.
  assert (H3 : snake hazardAhead = [mkCell 1 2]) by reflexivity.
  assert (H4 : lethal hazardAhead (newHeadOf hazardAhead (mkCell 1 2) RIGHT) = true)
    by (vm_compute; reflexivity).
  assert (H5 : 2 <= lives hazardAhead) by (cbn; lia).
  destruct (X18_retry_after_crash zeros None hazardAhead RIGHT (mkCell 1 2) []
              H1 H2 H3 H4 H5) as (_ & _ & _ & _ & _ & _ & H & _).
  exact H.
Defined.

(** X19.  A crash on the last life: the lives drop to 0 and the level box
    is set to 1 at once; after the overlay timer, the click runs
    [applyLevel (1)]: the old board stays until the scheduled reset has
    run, then the game is at level 1 on a fresh 3 x 3 board with 3
    lives. *)
Theorem X19_game_over_restarts (rnd : nat -> Q) (cv : option Canvas)
    (st : State) (d : Dir) (h : Cell) (tl : list Cell) :
  terminal st = false -> rejected st d = false -> snake st = h :: tl ->
  lethal st (newHeadOf st h d) = true ->
  lives st <= 1 ->
  let dead := nextState (turn rnd cv st d) in
  let shown := pending (snd (handle (fun s => overlayTimerFired s false) dead)) in
  let clicked := handle (onOverlayClick rnd) shown in
  let after := pending (runTasks rnd (fst clicked) (snd clicked)) in
  lives dead = 0
  /\ selectedLevel dead = 1 /\ selectedLevelInput dead = "1"
  /\ level dead = level st
  /\ snake (pending (snd clicked)) = snake st
  /\ level after = 1 /\ cols after = 3 /\ rows after = 3
  /\ lives after = 3
  /\ freshAt after 3 3.
Proof.
  intros Ht Hr Hs Hl Hlv.
  destruct (turn_lethal rnd cv st d h tl Ht Hr Hs Hl) as (l & k & E & _).
  rewrite E. unfold nextState. cbn [snd pending].
  set (n := newHeadOf st h d).
  assert (Hw : won st = false).
  { unfold terminal in Ht. by apply orb_false_iff in Ht as [_ ->]. }
  assert (Hrem : (Z.max 0 (lives st - 1) >? 0) = false).
  { destruct (Z.max 0 (lives st - 1) >? 0) eqn:G; [|done].
    apply Z.gtb_lt in G. lia. }
  cbn [lifeLost lives selectedLevel selectedLevelInput level].
  rewrite Hrem.
  split; [lia|]. repeat (split; [reflexivity|]).
  rewrite deathTimer_run. cbn [snd pending].
  unfold handle, onOverlayClick, resetLevelOne.
  cbn [lifeLost won gameOver showOverlay overlayMode cols rows andb].
  rewrite Hw, Hrem. rewrite applyLevel_run.
  cbn [fst snd pending fx drawn runTasks runTask].
  change (Z.max 1 (Z.min 10 (if 1 =? 0 then 1 else 1))) with 1.
  change (sizeForLevel 1) with 3.
  match goal with |- context [resetBoard rnd ?c ?r ?run] =>
    destruct (resetBoard_run rnd c r run) as (o & k' & -> & _) end.
  cbn [fst snd pending]. unfold resetState, levelState.
  cbn [level cols rows lives snake].
  repeat (split; [reflexivity|]).
  unfold freshAt. cbn. by repeat split.
Qed.

Lemma X19_game_over_restarts_witness :
  level (pending (runTasks zeros
    (fst (handle (onOverlayClick zeros)
           (pending (snd (handle (fun s => overlayTimerFired s false)
              (nextState (turn zeros None lastLife RIGHT)))))))
    (snd (handle (onOverlayClick zeros)
           (pending (snd (handle (fun s => overlayTimerFired s false)
              (nextState (turn zeros None lastLife RIGHT))))))))) = 1.
Proof.
  assert (H1 : terminal lastLife = false) by reflexivity.
  assert (H2 : rejected lastLife RIGHT = false) by reflexivity.
  assert (H3 : snake lastLife = [mkCell 1 2]) by reflexivity.
  assert (H4 : lethal lastLife (newHeadOf lastLife (mkCell 1 2) RIGHT) = true)
    by (vm_compute; reflexivity).
  assert (H5 : lives lastLife <= 1) by (cbn; lia).
  destruct (X19_game_over_restarts zeros None lastLife RIGHT (mkCell 1 2) []
              H1 H2 H3 H4 H5) as (_ & _ & _ & _ & _ & H & _).
  exact H.
Defined.

(** ** The keyboard and the level box *)

(** X20.  A key event that is not an auto-repeat and whose key is Enter
    or the space bar does exactly what [onOverlayClick] does: the same
    state updates, the same effects, the same draws and the same scheduled
    resets. *)
Theorem X20_enter_is_overlay_click (rnd : nat -> Q) (cv : option Canvas)
    (st : State) (e : KeyEvent) :
  repeat e = false ->
  key e = "Enter" \/ key e = " " ->
  handle (fun s => onKeyDown rnd cv s e) st
  = ((Returns, fst (handle (onOverlayClick rnd) st)),
     snd (handle (onOverlayClick rnd) st)).
Proof.
  intros Hrep Hkey. unfold handle, onKeyDown, onOverlayClick. rewrite Hrep.
  destruct Hkey as [-> | ->]; cbn [String.eqb Ascii.eqb Bool.eqb orb];
    (destruct (won st);
     [unfold bind, ret; by destruct (nextLevel st _)|];
     destruct (gameOver st && showOverlay st); [|reflexivity];
     destruct (overlayMode st) as [[]|]; try reflexivity;
     unfold bind, ret;
     match goal with |- context [?f (mkRun st [] 0%nat)] =>
       by destruct (f (mkRun st [] 0%nat)) end).
Qed.

Lemma X20_enter_is_overlay_click_witness :
  handle (fun s => onKeyDown zeros None s (mkKeyEvent false "Enter")) (wonBoard 2)
  = ((Returns, fst (handle (onOverlayClick zeros) (wonBoard 2))),
     snd (handle (onOverlayClick zeros) (wonBoard 2))).
Proof.
  apply (X20_enter_is_overlay_click zeros None (wonBoard 2)
           (mkKeyEvent false "Enter")); [reflexivity | by left].
Defined.

(** X21.  An auto-repeat event, and an event whose key is none of the
    fourteen handled keys, changes nothing: no state update, no effect, no
    draw, nothing scheduled. *)
Theorem X21_other_keys_ignored (rnd : nat -> Q) (cv : option Canvas)
    (st : State) (e : KeyEvent) :
  repeat e = true \/ ~ In (key e) handledKeys ->
  handle (fun s => onKeyDown rnd cv s e) st
  = ((Returns, []), mkRun st [] 0%nat).
Proof.
  intros [Hrep|Hkey]; unfold handle, onKeyDown.
  - by rewrite Hrep.
  - destruct (repeat e); [reflexivity|].
    assert (Hn : forall k, In k handledKeys -> String.eqb (key e) k = false).
    { intros k Hk. apply String.eqb_neq. intros Heq. apply Hkey. by rewrite Heq. }
    rewrite !Hn by (unfold handledKeys; simpl; tauto).
    reflexivity.
Qed.

Lemma X21_other_keys_ignored_witness :
  handle (fun s => onKeyDown zeros None s (mkKeyEvent false "x")) twoCells
  = ((Returns, []), mkRun twoCells [] 0%nat).
Proof.
  apply (X21_other_keys_ignored zeros None twoCells (mkKeyEvent false "x")).
  right. unfold handledKeys. simpl.
  intros H. repeat (destruct H as [H|H]; [discriminate H|]). exact H.
Defined.

Lemma Qfloor_below (q : Q) (z : Z) : (q < inject_Z z)%Q -> Qfloor q < z.
Proof.
  intros H. rewrite Zlt_Qlt. eapply Qle_lt_trans; [apply Qfloor_le | exact H].
Qed.

Lemma commitLevelInput_run (Number : string -> JsNum) (st : State) (run : Run) :
  commitLevelInput Number st run
  = (tt, mkRun (levelPicked (pending run)
                  (clampFloored (mathFloor (Number (selectedLevelInput st)))))
           (fx run) (drawn run)).
Proof.
  unfold commitLevelInput.
  set (v := clampFloored (mathFloor (Number (selectedLevelInput st)))).
  cbv -[pretty v]. reflexivity.
Qed.

(** X22.  [commitLevelInput], whatever [Number] makes of the text of the
    level box: the level it commits to the box is an integer of
    [[1, 10]], the text becomes that integer's decimal form, and nothing
    else changes.  It is 1 when the text is not a number or the number is
    below 2, 10 when the number is at least 10 (infinity included), and
    the floor of the number in between. *)
Theorem X22_commitLevelInput_clamps (Number : string -> JsNum) (st : State) :
  exists v,
    handle (commitLevelInput Number) st = (tt, mkRun (levelPicked st v) [] 0%nat)
    /\ 1 <= v <= 10
    /\ (Number (selectedLevelInput st) = NaN -> v = 1)
    /\ (Number (selectedLevelInput st) = PosInf -> v = 10)
    /\ (Number (selectedLevelInput st) = NegInf -> v = 1)
    /\ (forall q, Number (selectedLevelInput st) = Finite q ->
        ((q < 2)%Q -> v = 1)
        /\ ((10 <= q)%Q -> v = 10)
        /\ ((1 <= q)%Q -> (q < 11)%Q -> v = Qfloor q)).
Proof.
  exists (clampFloored (mathFloor (Number (selectedLevelInput st)))).
  split; [unfold handle; by rewrite commitLevelInput_run|].
  destruct (Number (selectedLevelInput st)) as [| | |q] eqn:E;
    cbn [mathFloor clampFloored].
  1-3: repeat split; try discriminate; lia.
  rewrite Qfloor_Z.
  split; [lia|]. repeat (split; [discriminate|]).
  intros q' [= <-]. split; [|split].
  - intros Hq. assert (Qfloor q < 2) by (by apply Qfloor_below). lia.
  - intros Hq. assert (10 <= Qfloor q); [|lia].
    rewrite <- (Qfloor_Z 10). by apply Qfloor_resp_le.
  - intros H1 H2.
    assert (1 <= Qfloor q)
      by (rewrite <- (Qfloor_Z 1); by apply Qfloor_resp_le).
    assert (Qfloor q < 11) by (by apply Qfloor_below).
    lia.
Qed.

(** X23.  The button "Start" runs [commitLevelInput] and then
    [applyLevel (selectedLevel)] in one handler: [applyLevel] overwrites
    both fields that [commitLevelInput] has set, and it is given the
    level of the last render, so the text in the box has no influence:
    the handler does what [applyLevel (selectedLevel)] alone does. *)
Theorem X23_start_ignores_the_text (Number : string -> JsNum) (st : State) :
  handle (startClicked Number) st
  = handle (fun _ => applyLevel (selectedLevel st)) st.
Proof.
  unfold handle, startClicked. unfold bind.
  rewrite commitLevelInput_run, !applyLevel_run. reflexivity.
Qed.

(** X24.  A click on the overlay of a won level runs [onOverlayClick]
    twice, once from the overlay and once from the wrapper of the canvas
    the event bubbles to.  Both calls read the level of the same render:
    two resets are scheduled, but the game moves up by one level, not two,
    the lives are kept, and the board is fresh when both resets have
    run. *)
Theorem X24_overlay_click_bubbles (rnd : nat -> Q) (st : State) :
  won st = true -> showOverlay st = true ->
  1 <= level st <= 10 ->
  let clicked := handle (overlayClicked rnd) st in
  let after := pending (runTasks rnd (fst clicked) (snd clicked)) in
  length (fst clicked) = 2%nat
  /\ level after = Z.min 10 (level st + 1)
  /\ cols after = level after + 2 /\ rows after = level after + 2
  /\ lives after = lives st
  /\ freshAt after (cols after) (rows after).
Proof.
  intros Hw Hs Hl. unfold handle, overlayClicked, onOverlayClick.
  rewrite Hw, Hs. unfold bind, ret. rewrite !nextLevel_run.
  set (next := Z.max 1 (Z.min 10 (level st + 1))).
  assert (Hn : next = Z.min 10 (level st + 1)) by (unfold next; lia).
  assert (Hsz : sizeForLevel next = next + 2) by (unfold sizeForLevel; lia).
  cbn [fst snd app length runTasks runTask pending fx drawn].
  split; [reflexivity|].
  match goal with |- context [resetBoard rnd ?c ?r ?run] =>
    destruct (resetBoard_run rnd c r run) as (o1 & k1 & -> & _) end.
  cbn [fst snd pending fx].
  match goal with |- context [resetBoard rnd ?c ?r ?run] =>
    destruct (resetBoard_run rnd c r run) as (o2 & k2 & -> & _) end.
  cbn [fst snd pending]. unfold resetState, levelState.
  cbn [level cols rows lives].
  repeat (split; [first [exact Hn | exact Hsz | reflexivity]|]).
  unfold freshAt. cbn. by repeat split.
Qed.

Lemma X24_overlay_click_bubbles_witness :
  level (pending (runTasks zeros
    (fst (handle (overlayClicked zeros) (wonShown 4)))
    (snd (handle (overlayClicked zeros) (wonShown 4)))))
  = Z.min 10 (level (wonShown 4) + 1).
Proof.
  assert (H1 : won (wonShown 4) = true) by reflexivity.
  assert (H2 : showOverlay (wonShown 4) = true) by reflexivity.
  assert (H3 : 1 <= level (wonShown 4) <= 10) by (cbn; lia).
  exact (proj1 (proj2 (X24_overlay_click_bubbles zeros (wonShown 4) H1 H2 H3))).
Defined.

(** ** The pure helpers *)

Lemma baselineAlpha_cases (i : Z) :
  (i <= 3 /\ baselineAlpha i = 1%Q)
  \/ (10 <= i /\ baselineAlpha i = 0%Q)
  \/ (3 < i < 10 /\ baselineAlpha i = (1 - inject_Z (i - 3) / 7)%Q).
Proof.
  unfold baselineAlpha.
  destruct (i <=? 3) eqn:E1; [left; split; [lia | done]|].
  destruct (i >=? 10) eqn:E2; [right; left; split; [lia | done]|].
  right; right. split; [lia | done].
Qed.

Lemma baselineAlpha_ramp (i : Z) :
  (1 - inject_Z (i - 3) / 7 == inject_Z (10 - i) / 7)%Q.
Proof.
  replace (10 - i) with (7 - (i - 3)) by lia.
  unfold Z.sub at 2. rewrite inject_Z_plus, inject_Z_opp. field.
Qed.

Lemma ramp_le (a b : Z) : a <= b -> (inject_Z a / 7 <= inject_Z b / 7)%Q.
Proof.
  intros H. unfold Qdiv. apply Qmult_le_compat_r; [|done].
  by rewrite <- Zle_Qle.
Qed.

Lemma ramp_lt (a b : Z) : a < b -> (inject_Z a / 7 < inject_Z b / 7)%Q.
Proof.
  intros H. unfold Qdiv. apply Qmult_lt_compat_r; [done|].
  by rewrite <- Zlt_Qlt.
Qed.

Lemma baselineAlpha_bounds (i : Z) :
  (0 <= baselineAlpha i)%Q /\ (baselineAlpha i <= 1)%Q
  /\ (3 < i -> (baselineAlpha i < 1)%Q)
  /\ (i < 10 -> (0 < baselineAlpha i)%Q).
Proof.
  destruct (baselineAlpha_cases i) as [[Hi ->]|[[Hi ->]|[Hi ->]]].
  - repeat split; try done. lia.
  - repeat split; try done. lia.
  - rewrite baselineAlpha_ramp.
    pose proof (ramp_lt 0 (10 - i) ltac:(lia)) as H0.
    pose proof (ramp_lt (10 - i) 7 ltac:(lia)) as H1.
    assert (E0 : (inject_Z 0 / 7 == 0)%Q) by reflexivity.
    assert (E1 : (inject_Z 7 / 7 == 1)%Q) by reflexivity.
    rewrite E0 in H0. rewrite E1 in H1.
    repeat split; try done; by apply Qlt_le_weak.
Qed.

Lemma baselineAlpha_mono (i j : Z) :
  i <= j -> (baselineAlpha j <= baselineAlpha i)%Q.
Proof.
  intros Hij.
  destruct (baselineAlpha_bounds i) as (Hi0 & Hi1 & _).
  destruct (baselineAlpha_bounds j) as (Hj0 & Hj1 & _).
  destruct (baselineAlpha_cases i) as [[Hi Ei]|[[Hi Ei]|[Hi Ei]]].
  - by rewrite Ei in *.
  - destruct (baselineAlpha_cases j) as [[Hj Ej]|[[Hj Ej]|[Hj Ej]]]; try lia.
    by rewrite Ei, Ej.
  - destruct (baselineAlpha_cases j) as [[Hj Ej]|[[Hj Ej]|[Hj Ej]]]; try lia.
    + by rewrite Ej in *.
    + rewrite Ei, Ej, !baselineAlpha_ramp. apply ramp_le. lia.
Qed.

(** X25.  [baselineAlpha] fades from the head to the tail: the opacity
    lies in [[0, 1]], never grows with the index, is 1 exactly up to
    index 3 and 0 exactly from index 10 on. *)
Theorem X25_baselineAlpha_fades (i j : Z) :
  i <= j ->
  (0 <= baselineAlpha j)%Q
  /\ (baselineAlpha j <= baselineAlpha i)%Q
  /\ (baselineAlpha i <= 1)%Q
  /\ ((baselineAlpha i == 1)%Q <-> i <= 3)
  /\ ((baselineAlpha i == 0)%Q <-> 10 <= i).
Proof.
  intros Hij.
  destruct (baselineAlpha_bounds i) as (Hi0 & Hi1 & Hlt1 & Hgt0).
  destruct (baselineAlpha_bounds j) as (Hj0 & _).
  split; [done|]. split; [by apply baselineAlpha_mono|]. split; [done|].
  split; split.
  - intros Heq. destruct (Z_le_gt_dec i 3) as [|Hgt]; [done|].
    specialize (Hlt1 ltac:(lia)). rewrite Heq in Hlt1.
    by apply Qlt_irrefl in Hlt1.
  - intros Hi. unfold baselineAlpha.
    destruct (i <=? 3) eqn:E; [reflexivity | lia].
  - intros Heq. destruct (Z_le_gt_dec 10 i) as [|Hgt]; [done|].
    specialize (Hgt0 ltac:(lia)). rewrite Heq in Hgt0.
    by apply Qlt_irrefl in Hgt0.
  - intros Hi. unfold baselineAlpha.
    destruct (i <=? 3) eqn:E1; [lia|].
    destruct (i >=? 10) eqn:E2; [reflexivity | lia].
Qed.

Lemma X25_baselineAlpha_fades_witness :
  (baselineAlpha 7 <= baselineAlpha 5)%Q.
Proof.
  assert (H : 5 <= 7) by lia.
  exact (proj1 (proj2 (X25_baselineAlpha_fades 5 7 H))).
Defined.



(** ** The heading and the direction gate *)

Lemma headed_ext (a b : State) :
  cols a = cols b -> rows a = rows b -> snake a = snake b -> dir a = dir b ->
  headed b -> headed a.
Proof.
  unfold headed, newHeadOf. intros -> -> -> ->. done.
Qed.

(** X27.  Every call of [doStep] keeps the heading in step with the
    snake: when the committed snake has two cells or more, its head is one
    wrapped step in the committed direction from the cell behind it. *)
Theorem X27_turn_keeps_heading (rnd : nat -> Q) (cv : option Canvas)
    (st : State) (d : Dir) :
  headed st -> headed (nextState (turn rnd cv st d)).
Proof.
  intros Hh.
  pose proof (doStep_keeps_cols rnd cv st d (mkRun st [] 0%nat)) as Hc.
  pose proof (doStep_keeps_rows rnd cv st d (mkRun st [] 0%nat)) as Hr.
  fold (turn rnd cv st d) in Hc, Hr. simpl in Hc, Hr.
  destruct (turn_cases rnd cv st d)
    as [[_ E]|[(_ & _ & _ & E)|[(h & tl & Ht & Hrej & Hs & Hl)
                               |(h & tl & Ht & Hrej & Hs & Hl)]]].
  - by rewrite E.
  - by rewrite E.
  - destruct (turn_lethal rnd cv st d h tl Ht Hrej Hs Hl) as (l & k & -> & _).
    by apply (headed_ext _ st).
  - pose proof (turn_snake rnd cv st d h tl Ht Hrej Hs Hl) as Hsn.
    assert (Hd : dir (nextState (turn rnd cv st d)) = d).
    { destruct (turn_accepted rnd cv st d h tl Ht Hrej Hs Hl)
        as (newSnake & nf & picked & r1 & r2 & r3 & r4 & r5 & r6
            & _ & _ & _ & _ & _ & _ & ->). reflexivity. }
    unfold nextState in *. unfold headed. rewrite Hsn, Hd, Hs.
    unfold newHeadOf at 2 4. rewrite Hc, Hr.
    destruct (ateFruitAt st (newHeadOf st h d)); [reflexivity|].
    destruct tl as [|n tl]; [exact I|reflexivity].
Qed.

Lemma X27_turn_keeps_heading_witness :
  headed (nextState (turn zeros None twoCells RIGHT)).
Proof.
  apply (X27_turn_keeps_heading zeros None twoCells RIGHT).
  vm_compute. reflexivity.
Defined.

(** X28.  What the direction gate is for: on a board of at least 3 x 3,
    when the snake has two cells or more and its heading is in step with
    it, a request is rejected exactly when it would move the head onto
    the cell right behind it. *)
Theorem X28_gate_blocks_the_neck (st : State) (d : Dir) (h n : Cell)
    (tl : list Cell) :
  snake st = h :: n :: tl ->
  headed st -> inBoard st n ->
  3 <= cols st -> 3 <= rows st ->
  rejected st d = true <-> newHeadOf st h d = n.
Proof.
  intros Hs Hh [Hx Hy] Hc Hr.
  unfold headed in Hh. rewrite Hs in Hh.
  unfold rejected, snakeLength. rewrite Hs.
  assert (Hlen : (Z.of_nat (length (h :: n :: tl)) >? 1) = true)
    by (apply Z.gtb_lt; cbn [length]; lia).
  rewrite Hlen. cbn [andb].
  subst h. destruct n as [nx ny]. cbn [x y] in Hx, Hy.
  unfold newHeadOf. cbn [x y].
  assert (Hw : forall v m, wrapCoord v m
    = if v <? 0 then m - 1 else if v >=? m then 0 else v) by reflexivity.
  split.
  - intros Ho. destruct d, (dir st); try discriminate Ho;
      cbn [dirX dirY]; f_equal; rewrite !Hw;
      repeat (case_match; try lia).
  - intros [= Ex Ey]. destruct d, (dir st); try reflexivity; exfalso;
      cbn [dirX dirY] in Ex, Ey; rewrite !Hw in Ex, Ey;
      repeat (case_match; try lia).
Qed.

Lemma X28_gate_blocks_the_neck_witness :
  rejected twoCells UP = true
  <-> newHeadOf twoCells (mkCell 1 1) UP = mkCell 1 0.
Proof.
  apply (X28_gate_blocks_the_neck twoCells UP (mkCell 1 1) (mkCell 1 0) []).
  - reflexivity.
  - vm_compute. reflexivity.
  - unfold inBoard. cbn. lia.
  - cbn. lia.
  - cbn. lia.
Defined.

(** ** When a move wins *)

(** [Math.ceil (total * 0.15)] in integers. *)
Lemma winThreshold_int (t : Z) : winThreshold t = (3 * t + 19) / 20.
Proof.
  unfold winThreshold, Qceiling, Qfloor. cbn [Qopp Qmult inject_Z Qnum Qden].
  change (Z.pos (1 * 100)) with 100.
  assert (E : - (t * 15) = 5 * (- (3 * t))) by lia.
  rewrite E. change 100 with (5 * 20) at 1.
  rewrite Z.div_mul_cancel_l by lia.
  pose proof (Z.div_mod (- (3 * t)) 20 ltac:(lia)) as D1.
  pose proof (Z.mod_pos_bound (- (3 * t)) 20 ltac:(lia)) as B1.
  pose proof (Z.div_mod (3 * t + 19) 20 ltac:(lia)) as D2.
  pose proof (Z.mod_pos_bound (3 * t + 19) 20 ltac:(lia)) as B2.
  lia.
Qed.

Section WinExactly.

Local Set Warnings "-clear-no-such-hyp".

Variable rnd : nat -> Q.
Variable canvasRef : option Canvas.

(** The two ways the block "Fruit" ends when a fruit was eaten: a new
    fruit is placed and the win flag is left alone, or the board is
    covered. *)
Lemma fruitEaten_cases (st : State) (n : Cell) (s : list Cell)
    (r r1 : Run) (nf : option Cell) :
  0 <= cols st -> 0 <= rows st ->
  fruitEaten rnd canvasRef st n s r = (nf, r1) ->
  (exists c, nf = Some c /\ fruit (pending r1) = Some c
             /\ won (pending r1) = won (pending r))
  \/ (nf = None /\ fruit (pending r1) = fruit (pending r)
      /\ cols st * rows st
         <= Z.of_nat (size (addCells (hazards st)
                              (addCell (puCell <$> powerUp st) (keySet s))))).
Proof.
  intros Hc Hr. unfold fruitEaten, bind, emit. simpl.
  match goal with |- context [placeFreeCell rnd ?s ?c ?r0 ?r'] =>
    pose proof (placeFreeCell_finds rnd s c r0 r' Hc Hr) as Hfind;
    destruct (placeFreeCell_run rnd s c r0 r') as (o & k & E & _) end.
  rewrite E in Hfind. rewrite E. cbn [fst] in Hfind.
  destruct o as [c|].
  - unfold_setters. simpl.
    match goal with |- context [scaledBurst _ _ _ ?c ?s ?i ?r'] =>
      destruct (scaledBurst_run rnd canvasRef st c s i r') as (l & k' & -> & _)
    end.
    intros [= <- <-]. left. exists c. by repeat split.
  - match goal with |- context [triggerWin st ?r'] =>
      pose proof (triggerWin_keeps_fruit st r') as Hk;
      destruct (triggerWin st r') as [[] r''] end.
    simpl in Hk. unfold_setters. simpl.
    match goal with |- context [scaledBurst _ _ _ ?c ?s ?i ?r'] =>
      destruct (scaledBurst_run rnd canvasRef st c s i r') as (l & k' & -> & _)
    end.
    intros [= <- <-]. right. split; [reflexivity|]. split; [exact Hk|].
    match goal with |- ?a <= ?b =>
      destruct (Z_le_gt_dec a b) as [|Hgt]; [done|] end.
    destruct (Hfind ltac:(lia)) as [p Hp]. discriminate Hp.
Qed.

(** What the block "Fruit" hands to the win check. *)
Lemma advance_counted (st : State) (n : Cell) (newSnake : list Cell)
    (nf : option Cell) (r1 : Run) :
  0 <= cols st -> 0 <= rows st -> won st = false ->
  advance rnd canvasRef st n (mkRun st [] 0%nat) = ((newSnake, nf), r1) ->
  winOcc st newSnake nf
  = occupiedKeys newSnake (hazards st) (fruit (pending r1)) (powerUp st)
  /\ (won (pending r1) = false
      \/ (cols st * rows st <= Z.of_nat (size (winOcc st newSnake nf))
          /\ (1 <= Z.of_nat (size (winOcc st newSnake nf))))).
Proof.
  intros Hc Hr Hw. unfold advance.
  destruct (ateFruitAt st n) eqn:Ha; cbn [negb].
  - unfold bind at 1.
    destruct (fruitEaten rnd canvasRef st n (n :: snake st) (mkRun st [] 0%nat))
      as [nf' r1'] eqn:Ef.
    intros [= <- <- <-].
    destruct (fruitEaten_cases st _ _ _ _ _ Hc Hr Ef)
      as [(c & -> & Hf & Hwon)|(-> & Hf & Hfull)].
    + split; [|left; by rewrite Hwon].
      rewrite Hf. unfold winOcc, occupiedKeys, addCells, addCell.
      destruct (puCell <$> powerUp st); set_solver.
    + cbn [pending] in Hf. apply ateFruitAt_iff in Ha.
      assert (Heq : winOcc st (n :: snake st) None
                    = addCells (hazards st)
                        (addCell (puCell <$> powerUp st) (keySet (n :: snake st)))).
      { unfold winOcc, addCells, addCell.
        destruct (puCell <$> powerUp st); set_solver. }
      split.
      * rewrite Hf, Ha. unfold winOcc, occupiedKeys, addCells, addCell, keySet.
        rewrite fmap_cons, list_to_set_cons.
        destruct (puCell <$> powerUp st); set_solver.
      * right. rewrite Heq. split; [exact Hfull|].
        assert (Hsub : {[cellKey n]} ⊆ addCells (hazards st)
                  (addCell (puCell <$> powerUp st) (keySet (n :: snake st)))).
        { unfold addCells, addCell, keySet.
          rewrite fmap_cons, list_to_set_cons.
          destruct (puCell <$> powerUp st); set_solver. }
        apply subseteq_size in Hsub. rewrite size_singleton in Hsub. lia.
  - unfold bind, emit, ret. intros [= <- <- <-]. cbn [pending].
    split; [|by left].
    unfold winOcc, occupiedKeys, addCells, addCell.
    destruct (puCell <$> powerUp st), (fruit st); set_solver.
Qed.

End WinExactly.

(** X29.  When a move wins.  On a board with sides [>= 0], an accepted
    step that is not lethal leaves the game won exactly when the cells
    the win check counts as empty are fewer than
    [ceil (0.15 * cols * rows)]: the count takes the snake after the
    move, the hazards and the power-up as they were before the move (a
    power-up picked up or expired this turn still counts, a hazard
    spawned this turn does not), and the fruit after the move.  The win
    that the fruit block triggers when no free cell is left is always such
    a case. *)
Theorem X29_win_exactly_below_threshold (rnd : nat -> Q) (cv : option Canvas)
    (st : State) (d : Dir) (h : Cell) (tl : list Cell) :
  terminal st = false -> rejected st d = false -> snake st = h :: tl ->
  lethal st (newHeadOf st h d) = false ->
  0 <= cols st -> 0 <= rows st ->
  won (nextState (turn rnd cv st d)) = true
  <-> cols st * rows st
      - Z.of_nat (size (occupiedKeys (snake (nextState (turn rnd cv st d)))
                          (hazards st)
                          (fruit (nextState (turn rnd cv st d)))
                          (powerUp st)))
      < winThreshold (cols st * rows st).
Proof.
  intros Hterm Hrej Hs Hl Hc Hr.
  assert (Hw : won st = false).
  { unfold terminal in Hterm. by apply orb_false_iff in Hterm as [_ ->]. }
  destruct (turn_accepted rnd cv st d h tl Hterm Hrej Hs Hl)
    as (newSnake & nf & picked & r1 & r2 & r3 & r4 & r5 & r6
        & E1 & E2 & E3 & E4 & E5 & E6 & ->).
  unfold nextState.
  cbn [fst snd pending moved snake fruit won].
  rewrite (kept_by fruit _ _ _ _ E6) by kept.
  rewrite (kept_by fruit _ _ _ _ E5) by kept.
  rewrite (kept_by fruit _ _ _ _ E4) by kept.
  rewrite (kept_by fruit _ _ _ _ E3) by kept.
  rewrite (kept_by fruit _ _ _ _ E2) by kept.
  rewrite (kept_by won _ _ _ _ E6) by kept.
  rewrite (kept_by won _ _ _ _ E5) by kept.
  destruct (advance_counted rnd cv st _ _ _ _ Hc Hr Hw E1) as [<- Hadv].
  assert (Hw3 : won (pending r3) = won (pending r1)).
  { rewrite (kept_by won _ _ _ _ E3) by kept.
    by rewrite (kept_by won _ _ _ _ E2) by kept. }
  revert E4. unfold winCheck, when.
  destruct (cols st * rows st - Z.of_nat (size (winOcc st newSnake nf))
            <? winThreshold (cols st * rows st)) eqn:G.
  - apply Z.ltb_lt in G. unfold triggerWin. rewrite Hw.
    unfold bind, emit. unfold_setters. cbn. intros [= <-]. cbn. by split.
  - apply Z.ltb_ge in G. unfold ret. intros [= <-]. rewrite Hw3.
    split; [|lia]. intros Hwon.
    destruct Hadv as [Hno|[Hfull Hone]]; [congruence|].
    rewrite winThreshold_int in *.
    assert (0 <= cols st * rows st) by nia.
    destruct (Z.eq_dec (cols st * rows st) 0) as [E0|E0].
    + rewrite E0 in *. change ((3 * 0 + 19) / 20) with 0 in *. lia.
    + assert (1 <= (3 * (cols st * rows st) + 19) / 20); [|lia].
      apply Z.div_le_lower_bound; lia.
Qed.

Lemma X29_win_exactly_below_threshold_witness :
  won (nextState (turn zeros None twoCells DOWN)) = true
  <-> cols twoCells * rows twoCells
      - Z.of_nat (size (occupiedKeys
                          (snake (nextState (turn zeros None twoCells DOWN)))
                          (hazards twoCells)
                          (fruit (nextState (turn zeros None twoCells DOWN)))
                          (powerUp twoCells)))
      < winThreshold (cols twoCells * rows twoCells).
Proof.
  assert (H1 : terminal twoCells = false) by reflexivity.
  assert (H2 : rejected twoCells DOWN = false) by reflexivity.
  assert (H3 : snake twoCells = [mkCell 1 1; mkCell 1 0]) by reflexivity.
  assert (H4 : lethal twoCells (newHeadOf twoCells (mkCell 1 1) DOWN) = false)
    by (vm_compute; reflexivity).
  assert (H5 : 0 <= cols twoCells) by (cbn; lia).
  assert (H6 : 0 <= rows twoCells) by (cbn; lia).
  exact (X29_win_exactly_below_threshold zeros None twoCells DOWN (mkCell 1 1)
           [mkCell 1 0] H1 H2 H3 H4 H5 H6).
Defined.

(** ** Timers that fire late *)

(** X30.  The overlay timers are never cancelled; the guard of their
    callback makes a late one harmless.  When a win is acknowledged with
    Enter before its timer has fired and the scheduled reset has run, the
    timer of the win, and the timer of any earlier death, changes
    nothing on the new board. *)
Theorem X30_late_timer_is_harmless (rnd : nat -> Q) (st : State)
    (for_win : bool) :
  won st = true ->
  let clicked := handle (onOverlayClick rnd) st in
  let after := pending (runTasks rnd (fst clicked) (snd clicked)) in
  handle (fun s => overlayTimerFired s for_win) after
  = (tt, mkRun after [] 0%nat).
Proof.
  intros Hw. cbv zeta. unfold handle, onOverlayClick. rewrite Hw, nextLevel_run.
  cbn [fst snd runTasks runTask pending fx drawn].
  match goal with |- context [resetBoard rnd ?c ?r ?run] =>
    destruct (resetBoard_run rnd c r run) as (o & k & -> & _) end.
  cbn [fst snd pending]. unfold overlayTimerFired, resetState.
  cbn [won gameOver]. by destruct for_win.
Qed.

Lemma X30_late_timer_is_harmless_witness :
  handle (fun s => overlayTimerFired s true)
    (pending (runTasks zeros (fst (handle (onOverlayClick zeros) (wonBoard 2)))
                (snd (handle (onOverlayClick zeros) (wonBoard 2)))))
  = (tt, mkRun (pending (runTasks zeros
                  (fst (handle (onOverlayClick zeros) (wonBoard 2)))
                  (snd (handle (onOverlayClick zeros) (wonBoard 2))))) [] 0%nat).
Proof.
  apply (X30_late_timer_is_harmless zeros (wonBoard 2) true). reflexivity.
Defined.
